(** * Log-ingestion server: filter compiler, batch ingestion and API-key
    authentication

    A shallow embedding of [database/database.go], of the ingest handlers,
    of the [auth] package, of [config/config.go] and of the start of
    [main], followed by the properties of the specification that were
    checked against them and by further properties of the code.

    Conventions.  Go strings are byte strings and become [string]; a Go
    [int]/[int64] becomes [Z]; a [time.Time] becomes a [Z] counting
    nanoseconds from Go's zero time, so that [IsZero] is a test against [0];
    a nil-able pointer becomes an [option]; the in-memory key cache
    [map[string]bool] becomes a [gmap string bool].  The relational store is
    explicit state: two tables with the constraints of the migration file.

    Names follow the Go source.  Where two structs share a field name the
    later one gets a prefix: the fields of [LogFilter] start with [F] where
    [AnalyticsLog] has the same name, [APIKey.ID] and [APIKey.CreatedAt]
    are [KeyID] and [KeyCreatedAt], [ErrorResponse.Message] is
    [ErrMessage], and [DatabaseConfig.Port] and [DatabaseConfig.Name] are
    [DBPort] and [DBName].  Every function that reads the clock takes the
    time as its argument [now]. *)

From Stdlib Require Import ZArith Ascii String List Bool Lia.
From stdpp Require Import base option list strings pretty gmap.

Local Open Scope Z_scope.

(** ** Strings *)

Module Strings.

(** [strings.HasPrefix]. *)
Fixpoint HasPrefix (s p : string) {struct p} : bool :=
  match p with
  | EmptyString => true
  | String c p' =>
      match s with
      | EmptyString => false
      | String d s' => if Ascii.eqb c d then HasPrefix s' p' else false
      end
  end.

(** [strings.TrimPrefix]: [s] without the leading [p], or [s] itself when
    [p] is not a prefix. *)
Definition TrimPrefix (s p : string) : string :=
  if HasPrefix s p
  then String.substring (String.length p)
                        (String.length s - String.length p)%nat s
  else s.

(** [strings.Contains]. *)
Fixpoint Contains (s sub : string) : bool :=
  HasPrefix s sub ||
  match s with
  | EmptyString => false
  | String _ s' => Contains s' sub
  end.

Definition LF : string := String "010"%char EmptyString.
Definition TAB : string := String "009"%char EmptyString.

(** [fmt.Sprintf("%d", n)]. *)
Definition itoa (n : Z) : string := pretty n.

(** [strings.ToLower] on ASCII letters, and [strings.EqualFold]. *)
Definition lowerChar (c : ascii) : ascii :=
  let n := nat_of_ascii c in
  if (65 <=? n)%nat && (n <=? 90)%nat then ascii_of_nat (n + 32) else c.

Fixpoint ToLower (s : string) : string :=
  match s with
  | EmptyString => EmptyString
  | String c s' => String (lowerChar c) (ToLower s')
  end.

Definition EqualFold (s t : string) : bool :=
  String.eqb (ToLower s) (ToLower t).

(** Whether the byte [c] occurs in [s]. *)
Fixpoint occurs (c : ascii) (s : string) : bool :=
  match s with
  | EmptyString => false
  | String d s' => Ascii.eqb c d || occurs c s'
  end.

Definition semicolon : ascii := ";"%char.

Definition isDigitOrDash (c : ascii) : bool :=
  let n := nat_of_ascii c in
  ((48 <=? n)%nat && (n <=? 57)%nat) || (n =? 45)%nat.

(** Strings made of digits and dashes only. *)
Definition plain (s : string) : Prop :=
  forall c, occurs c s = true -> isDigitOrDash c = true.

End Strings.

(** ** models/log.go *)

Module Models.

(** Nanoseconds since Go's zero [time.Time]. *)
Definition Time : Type := Z.

Definition IsZero (t : Time) : bool := t =? 0.

(** [t.Before(u)]. *)
Definition Before (t u : Time) : bool := t <? u.

(** [JSONB] is [map[string]interface{}]; [None] is the nil map.  The
    values are kept as their JSON text. *)
Definition JSONB : Type := option (gmap string string).

Record AnalyticsLog : Type := mkAnalyticsLog {
  ID : Z;
  EventID : string;
  Timestamp : Time;
  EventType : string;
  EventName : string;
  Properties : JSONB;
  UserID : option string;
  SessionID : option string;
  AppVersion : option string;
  DeviceInfo : JSONB;
  SequenceNumber : option Z;
  Priority : string;
  CreatedAt : Time;
  ProcessedAt : option Time
}.

Record BatchRequest : Type := mkBatchRequest {
  Logs : list AnalyticsLog
}.

Record APIKey : Type := mkAPIKey {
  KeyID : Z;
  KeyHash : string;
  Name : string;
  IsActive : bool;
  KeyCreatedAt : Time;
  LastUsedAt : option Time;
  ExpiresAt : option Time;
  UsageCount : Z
}.

Record ValidationError : Type := mkValidationError {
  Field : string;
  Message : string
}.

Record ErrorResponse : Type := mkErrorResponse {
  Error : string;
  ErrMessage : string;
  Details : list ValidationError
}.

End Models.

(** ** database/database.go: the filter compiler *)

Module Database.
Import Strings Models.

(** A value bound to a placeholder ([interface{}] in [args]). *)
Inductive Arg : Type :=
| ArgString (s : string)
| ArgTime (t : Time)
| ArgInt (n : Z).

Record LogFilter : Type := mkLogFilter {
  FEventType : string;
  FEventName : string;
  FUserID : string;
  FSessionID : string;
  FAppVersion : string;
  FPriority : string;
  FProviderName : string;
  FStartTime : option Time;
  FEndTime : option Time;
  Limit : Z;
  Offset : Z;
  SortBy : string;
  SortOrder : string
}.

(** The three locals [conditions], [args] and [argIndex] that the
    function threads through its chain of [if] statements. *)
Record Builder : Type := mkBuilder {
  conditions : list string;
  args : list Arg;
  argIndex : Z
}.

Definition emptyBuilder : Builder := mkBuilder [] [] 1.

(** One [if present { conditions = append(...); args = append(...);
    argIndex++ }] block; [lhs] is the text before [$%d]. *)
Definition addCondition (lhs : string) (a : option Arg) (b : Builder)
  : Builder :=
  match a with
  | None => b
  | Some v =>
      mkBuilder (conditions b ++ [lhs +:+ "$" +:+ itoa (argIndex b)])
                (args b ++ [v])
                (argIndex b + 1)
  end.

(** [filter.X != ""] guarding a string argument. *)
Definition nonEmpty (s : string) : option Arg :=
  if String.eqb s "" then None else Some (ArgString s).

Definition buildConditions (filter : LogFilter) : Builder :=
  let b := emptyBuilder in
  let b := addCondition "event_type = " (nonEmpty (FEventType filter)) b in
  let b := addCondition "event_name = " (nonEmpty (FEventName filter)) b in
  let b := addCondition "user_id = " (nonEmpty (FUserID filter)) b in
  let b := addCondition "session_id = " (nonEmpty (FSessionID filter)) b in
  let b := addCondition "app_version = " (nonEmpty (FAppVersion filter)) b in
  let b := addCondition "priority = " (nonEmpty (FPriority filter)) b in
  let b := addCondition "properties->'tags'->>'provider' = "
                        (nonEmpty (FProviderName filter)) b in
  let b := addCondition "created_at >= " (ArgTime <$> FStartTime filter) b in
  let b := addCondition "created_at <= " (ArgTime <$> FEndTime filter) b in
  b.

(** The loop [for i := 1; i < len(conditions); i++]. *)
Fixpoint joinAnd (acc : string) (rest : list string) : string :=
  match rest with
  | [] => acc
  | c :: rest' => joinAnd (acc +:+ " AND " +:+ c) rest'
  end.

Definition buildWhere (conds : list string) : string :=
  match conds with
  | [] => ""
  | c0 :: rest => joinAnd ("WHERE " +:+ c0) rest
  end.

Definition countQueryText (whereClause : string) : string :=
  "SELECT COUNT(*) FROM analytics_logs " +:+ whereClause.

Definition validSortFields : list string :=
  ["id"; "event_id"; "timestamp"; "event_type"; "event_name"; "user_id";
   "session_id"; "app_version"; "priority"; "created_at"].

(** [validSortFields[filter.SortBy]]: a missing key reads as [false]. *)
Definition isValidSortField (s : string) : bool :=
  existsb (String.eqb s) validSortFields.

Definition sortByOf (filter : LogFilter) : string :=
  if String.eqb (SortBy filter) "" then "created_at"
  else if isValidSortField (SortBy filter) then SortBy filter
  else "created_at".

Definition sortOrderOf (filter : LogFilter) : string :=
  if String.eqb (SortOrder filter) "ASC" || String.eqb (SortOrder filter) "asc"
  then "ASC" else "DESC".

Definition hasOffset (filter : LogFilter) : bool := 0 <? Offset filter.

Definition limitClauseOf (filter : LogFilter) (argIndex : Z) : string :=
  let limitClause :=
    "ORDER BY " +:+ sortByOf filter +:+ " " +:+ sortOrderOf filter
    +:+ " LIMIT $" +:+ itoa argIndex in
  if hasOffset filter
  then limitClause +:+ " OFFSET $" +:+ itoa (argIndex + 1)
  else limitClause.

Definition pageArgs (filter : LogFilter) (whereArgs : list Arg) : list Arg :=
  let args := whereArgs ++ [ArgInt (Limit filter)] in
  if hasOffset filter then args ++ [ArgInt (Offset filter)] else args.

(** The select list of the page query, up to the first [%s]. *)
Definition selectList : string :=
  LF +:+ TAB +:+ TAB
  +:+ "SELECT id, event_id, timestamp, event_type, event_name, properties,"
  +:+ LF +:+ TAB +:+ TAB +:+ TAB
  +:+ "   user_id, session_id, app_version, device_info, sequence_number,"
  +:+ LF +:+ TAB +:+ TAB +:+ TAB
  +:+ "   priority, created_at, processed_at"
  +:+ LF +:+ TAB +:+ TAB
  +:+ "FROM analytics_logs "
  +:+ LF +:+ TAB +:+ TAB.

Definition pageQueryText (whereClause limitClause : string) : string :=
  selectList +:+ whereClause +:+ " " +:+ LF +:+ TAB +:+ TAB +:+ limitClause.

(** A statement as handed to the driver: text and bound values. *)
Record Query : Type := mkQuery {
  text : string;
  bound : list Arg
}.

Definition countQueryOf (filter : LogFilter) : Query :=
  let b := buildConditions filter in
  mkQuery (countQueryText (buildWhere (conditions b))) (args b).

Definition pageQueryOf (filter : LogFilter) : Query :=
  let b := buildConditions filter in
  mkQuery (pageQueryText (buildWhere (conditions b))
                         (limitClauseOf filter (argIndex b)))
          (pageArgs filter (args b)).

(** *** Running the two statements

    [db.conn] is the driver of the relational engine.  For the filter
    queries it is taken as it is used: something that runs a statement
    with its bound values and gives back an error, a count, or rows, each
    row with the outcome of its [Scan]. *)

Inductive result (A : Type) : Type :=
| Ok (a : A)
| Err (msg : string).
Arguments Ok {A} a.
Arguments Err {A} msg.

Section Driver.
Variable queryCount : Query -> result Z.
Variable queryRows : Query -> result (list (result AnalyticsLog)).

(** The loop [for rows.Next() { rows.Scan(...); logs = append(logs, log) }]. *)
Fixpoint scanRows (prefix : string) (rows : list (result AnalyticsLog))
                  (logs : list AnalyticsLog) : result (list AnalyticsLog) :=
  match rows with
  | [] => Ok logs
  | Ok log :: rows' => scanRows prefix rows' (logs ++ [log])
  | Err e :: _ => Err (prefix +:+ e)
  end.

Definition GetFilteredLogs (filter : LogFilter)
  : result (list AnalyticsLog * Z) :=
  match queryCount (countQueryOf filter) with
  | Err e => Err ("failed to get filtered logs count: " +:+ e)
  | Ok totalCount =>
      match queryRows (pageQueryOf filter) with
      | Err e => Err ("failed to get filtered logs: " +:+ e)
      | Ok rows =>
          match scanRows "failed to scan filtered log: " rows [] with
          | Err e => Err e
          | Ok logs => Ok (logs, totalCount)
          end
      end
  end.
End Driver.

(** *** The store

    The two tables of the migration file with the constraints that can
    make a statement of this package fail: [event_id] and [key_hash] are
    [UNIQUE], and the [VARCHAR(n)] columns hold at most [n] characters.
    [conn_ok] says whether the connection answers at all, [commit_ok]
    whether a [COMMIT] issued now would go through.  The two [BIGSERIAL]
    sequences only move forward, also when a transaction is rolled back. *)

Record Store : Type := mkStore {
  conn_ok : bool;
  commit_ok : bool;
  analytics_logs : list AnalyticsLog;
  api_keys : list APIKey;
  analytics_logs_id_seq : Z;
  api_keys_id_seq : Z
}.

(** Characters of a UTF-8 byte string: the bytes that are not
    continuation bytes [10xxxxxx]. *)
Fixpoint charLength (s : string) : Z :=
  match s with
  | EmptyString => 0
  | String c s' =>
      (if Z.land (Z.of_nat (nat_of_ascii c)) 192 =? 128 then 0 else 1)
      + charLength s'
  end.

Definition fitsVarchar (n : Z) (s : string) : bool := charLength s <=? n.

Definition fitsVarcharOpt (n : Z) (s : option string) : bool :=
  match s with
  | None => true
  | Some v => fitsVarchar n v
  end.

Definition hasEventID (rows : list AnalyticsLog) (eventID : string) : bool :=
  existsb (fun r => String.eqb (EventID r) eventID) rows.

(** The row an [INSERT INTO analytics_logs] stores: the eleven bound
    columns, [id] from the sequence, [created_at] from [NOW()] and
    [processed_at] left null. *)
Definition insertedRow (id : Z) (now : Time) (log : AnalyticsLog)
  : AnalyticsLog :=
  mkAnalyticsLog id (EventID log) (Timestamp log) (EventType log)
                 (EventName log) (Properties log) (UserID log)
                 (SessionID log) (AppVersion log) (DeviceInfo log)
                 (SequenceNumber log) (Priority log) now None.

(** What the engine checks on one insert into [analytics_logs]. *)
Definition checkLogRow (rows : list AnalyticsLog) (log : AnalyticsLog)
  : result unit :=
  if negb (fitsVarchar 255 (EventID log)
           && fitsVarchar 50 (EventType log)
           && fitsVarchar 100 (EventName log)
           && fitsVarcharOpt 255 (UserID log)
           && fitsVarcharOpt 255 (SessionID log)
           && fitsVarcharOpt 50 (AppVersion log)
           && fitsVarchar 20 (Priority log))
  then Err "pq: value too long for type character varying"
  else if hasEventID rows (EventID log)
  then Err "pq: duplicate key value violates unique constraint"
  else Ok tt.

(** A transaction in progress: the rows it sees and the sequence. *)
Record Tx : Type := mkTx {
  tx_rows : list AnalyticsLog;
  tx_seq : Z
}.

(** [stmt.Exec] of the prepared insert inside the transaction. *)
Definition txExec (now : Time) (tx : Tx) (log : AnalyticsLog)
  : Tx * result unit :=
  let id := tx_seq tx + 1 in
  match checkLogRow (tx_rows tx) log with
  | Err e => (mkTx (tx_rows tx) id, Err e)
  | Ok _ => (mkTx (tx_rows tx ++ [insertedRow id now log]) id, Ok tt)
  end.

(** The loop [for _, log := range logs] of [InsertLogsBatch]: stops at
    the first failing [Exec]. *)
Fixpoint execAll (now : Time) (tx : Tx) (logs : list AnalyticsLog)
  : Tx * result unit :=
  match logs with
  | [] => (tx, Ok tt)
  | log :: logs' =>
      match txExec now tx log with
      | (tx', Err e) => (tx', Err e)
      | (tx', Ok _) => execAll now tx' logs'
      end
  end.

Definition withSeq (db : Store) (seq : Z) : Store :=
  mkStore (conn_ok db) (commit_ok db) (analytics_logs db) (api_keys db)
          seq (api_keys_id_seq db).

Definition withLogs (db : Store) (rows : list AnalyticsLog) (seq : Z)
  : Store :=
  mkStore (conn_ok db) (commit_ok db) rows (api_keys db)
          seq (api_keys_id_seq db).

(** [InsertLogsBatch]: every [return] before the commit runs the
    deferred [tx.Rollback()], which discards the rows of [tx]. *)
Definition InsertLogsBatch (now : Time) (db : Store)
                           (logs : list AnalyticsLog)
  : Store * result unit :=
  match logs with
  | [] => (db, Ok tt)
  | _ =>
      if negb (conn_ok db)
      then (db, Err "failed to begin transaction: driver: bad connection")
      else
        let tx := mkTx (analytics_logs db) (analytics_logs_id_seq db) in
        match execAll now tx logs with
        | (tx', Err e) =>
            (withSeq db (tx_seq tx'),
             Err ("failed to execute batch insert: " +:+ e))
        | (tx', Ok _) =>
            if commit_ok db
            then (withLogs db (tx_rows tx') (tx_seq tx'), Ok tt)
            else (withSeq db (tx_seq tx'),
                  Err "failed to commit transaction: driver: bad connection")
        end
  end.

(** [GetAPIKey]: the first row with this hash that is active;
    [sql.ErrNoRows] becomes [(nil, nil)]. *)
Definition GetAPIKey (db : Store) (keyHash : string)
  : result (option APIKey) :=
  if negb (conn_ok db)
  then Err "failed to get API key: driver: bad connection"
  else Ok (List.find (fun k => String.eqb (KeyHash k) keyHash && IsActive k)
                     (api_keys db)).

Definition hasKeyHash (rows : list APIKey) (keyHash : string) : bool :=
  existsb (fun k => String.eqb (KeyHash k) keyHash) rows.

Definition withKeys (db : Store) (rows : list APIKey) (seq : Z) : Store :=
  mkStore (conn_ok db) (commit_ok db) (analytics_logs db) rows
          (analytics_logs_id_seq db) seq.

(** [InsertAPIKey]: stores [key_hash, name, is_active, expires_at] and
    returns the record with [id] and [created_at] filled in. *)
Definition InsertAPIKey (now : Time) (db : Store) (apiKey : APIKey)
  : Store * result APIKey :=
  if negb (conn_ok db)
  then (db, Err "failed to insert API key: driver: bad connection")
  else
    let id := api_keys_id_seq db + 1 in
    if negb (fitsVarchar 255 (KeyHash apiKey)
             && fitsVarchar 100 (Name apiKey))
    then (withKeys db (api_keys db) id,
          Err "failed to insert API key: pq: value too long for type character varying")
    else if hasKeyHash (api_keys db) (KeyHash apiKey)
    then (withKeys db (api_keys db) id,
          Err "failed to insert API key: pq: duplicate key value violates unique constraint")
    else
      let row := mkAPIKey id (KeyHash apiKey) (Name apiKey)
                          (IsActive apiKey) now None (ExpiresAt apiKey) 0 in
      (withKeys db (api_keys db ++ [row]) id,
       Ok (mkAPIKey id (KeyHash apiKey) (Name apiKey) (IsActive apiKey)
                    now (LastUsedAt apiKey) (ExpiresAt apiKey)
                    (UsageCount apiKey))).

(** [UpdateAPIKeyUsage]. *)
Definition UpdateAPIKeyUsage (now : Time) (db : Store) (keyHash : string)
  : Store * result unit :=
  if negb (conn_ok db)
  then (db, Err "failed to update API key usage: driver: bad connection")
  else
    (withKeys db
       (map (fun k =>
               if String.eqb (KeyHash k) keyHash
               then mkAPIKey (KeyID k) (KeyHash k) (Name k) (IsActive k)
                             (KeyCreatedAt k) (Some now) (ExpiresAt k)
                             (UsageCount k + 1)
               else k)
            (api_keys db))
       (api_keys_id_seq db),
     Ok tt).

(** [InsertLog]: one insert outside any transaction; [Scan] writes the
    returned [id] and [created_at] into the log. *)
Definition withID (log : AnalyticsLog) (id : Z) (createdAt : Time)
  : AnalyticsLog :=
  mkAnalyticsLog id (EventID log) (Timestamp log) (EventType log)
                 (EventName log) (Properties log) (UserID log)
                 (SessionID log) (AppVersion log) (DeviceInfo log)
                 (SequenceNumber log) (Priority log) createdAt
                 (ProcessedAt log).

Definition InsertLog (now : Time) (db : Store) (log : AnalyticsLog)
  : Store * result AnalyticsLog :=
  if negb (conn_ok db)
  then (db, Err "failed to insert log: driver: bad connection")
  else
    let id := analytics_logs_id_seq db + 1 in
    match checkLogRow (analytics_logs db) log with
    | Err e => (withSeq db id, Err ("failed to insert log: " +:+ e))
    | Ok _ =>
        (withLogs db (analytics_logs db ++ [insertedRow id now log]) id,
         Ok (withID log id now))
    end.

(** [GetLogCount]: the number of rows of [analytics_logs]; the error of
    the driver is returned as it is. *)
Definition GetLogCount (db : Store) : result Z :=
  if negb (conn_ok db) then Err "driver: bad connection"
  else Ok (Z.of_nat (length (analytics_logs db))).

(** [GetRecentLogs]: a fixed statement with the limit as its one bound
    value, run by the driver as the filter queries are. *)
Definition recentQueryText : string :=
  LF +:+ TAB +:+ TAB
  +:+ "SELECT id, event_id, timestamp, event_type, event_name, properties,"
  +:+ LF +:+ TAB +:+ TAB +:+ TAB
  +:+ "   user_id, session_id, app_version, device_info, sequence_number,"
  +:+ LF +:+ TAB +:+ TAB +:+ TAB
  +:+ "   priority, created_at, processed_at"
  +:+ LF +:+ TAB +:+ TAB
  +:+ "FROM analytics_logs "
  +:+ LF +:+ TAB +:+ TAB
  +:+ "ORDER BY created_at DESC "
  +:+ LF +:+ TAB +:+ TAB
  +:+ "LIMIT $1".

Definition recentQueryOf (limit : Z) : Query :=
  mkQuery recentQueryText [ArgInt limit].

Definition GetRecentLogs
    (queryRows : Query -> result (list (result AnalyticsLog))) (limit : Z)
  : result (list AnalyticsLog) :=
  match queryRows (recentQueryOf limit) with
  | Err e => Err ("failed to get recent logs: " +:+ e)
  | Ok rows => scanRows "failed to scan log: " rows []
  end.

End Database.

(** ** The ingest handlers *)

Module Handlers.
Import Strings Models Database.

Record FilteredLogsResponse : Type := mkFilteredLogsResponse {
  RLogs : list AnalyticsLog;
  TotalCount : Z;
  Page : Z;
  PageSize : Z;
  TotalPages : Z
}.

(** The [Data] of the success envelopes these two handlers send. *)
Inductive SuccessData : Type :=
| BatchData (logs_processed total_received : Z)
| FilteredData (r : FilteredLogsResponse).

(** [c.JSON(status, body)]. *)
Inductive Response : Type :=
| ErrorJSON (status : Z) (body : ErrorResponse)
| SuccessJSON (status : Z) (message : string) (data : SuccessData).

Definition StatusOK : Z := 200.
Definition StatusCreated : Z := 201.
Definition StatusBadRequest : Z := 400.
Definition StatusInternalServerError : Z := 500.

(** *** Validation

    [validator.Struct] walks the fields in declaration order, runs the
    tags of a field from left to right and reports the first tag that
    fails; [Field()] is the Go field name, as no tag-name function is
    registered. *)

Record FieldError : Type := mkFieldError {
  fe_field : string;
  fe_tag : string;
  fe_param : string
}.

Definition eventTypes : list string :=
  ["behavioral"; "telemetry"; "observability"; "error"; "performance"].

Definition priorities : list string := ["normal"; "high"].

Definition oneof (allowed : list string) (v : string) : bool :=
  existsb (String.eqb v) allowed.

Definition eventTypesParam : string :=
  "behavioral telemetry observability error performance".

Definition checkRequired (field : string) (isZero : bool) : list FieldError :=
  if isZero then [mkFieldError field "required" ""] else [].

Definition validateStruct (log : AnalyticsLog) : list FieldError :=
  checkRequired "EventID" (String.eqb (EventID log) "")
  ++ checkRequired "Timestamp" (IsZero (Timestamp log))
  ++ (if String.eqb (EventType log) ""
      then [mkFieldError "EventType" "required" ""]
      else if oneof eventTypes (EventType log) then []
      else [mkFieldError "EventType" "oneof" eventTypesParam])
  ++ checkRequired "EventName" (String.eqb (EventName log) "")
  ++ (if oneof priorities (Priority log) then []
      else [mkFieldError "Priority" "oneof" "normal high"]).

Definition getValidationMessage (fe : FieldError) : string :=
  if String.eqb (fe_tag fe) "required" then "This field is required"
  else if String.eqb (fe_tag fe) "oneof"
  then "Must be one of: " +:+ fe_param fe
  else if String.eqb (fe_tag fe) "min"
  then "Must be at least " +:+ fe_param fe +:+ " characters"
  else if String.eqb (fe_tag fe) "max"
  then "Must be at most " +:+ fe_param fe +:+ " characters"
  else if String.eqb (fe_tag fe) "email"
  then "Must be a valid email address"
  else if String.eqb (fe_tag fe) "event_type"
  then "Must be a valid event type (behavioral, telemetry, observability, error, performance)"
  else "Validation failed for tag '" +:+ fe_tag fe +:+ "'".

Definition formatValidationErrors (errs : list FieldError)
  : list ValidationError :=
  map (fun fe => mkValidationError (fe_field fe) (getValidationMessage fe))
      errs.

Definition setDefaultValues (now : Time) (log : AnalyticsLog)
  : AnalyticsLog :=
  mkAnalyticsLog
    (ID log) (EventID log)
    (if IsZero (Timestamp log) then now else Timestamp log)
    (EventType log) (EventName log)
    (match Properties log with None => Some ∅ | p => p end)
    (UserID log) (SessionID log) (AppVersion log)
    (match DeviceInfo log with None => Some ∅ | d => d end)
    (SequenceNumber log)
    (if String.eqb (Priority log) "" then "normal" else Priority log)
    (CreatedAt log) (ProcessedAt log).

(** [ve.Field = fmt.Sprintf("logs[%d].%s", i, ve.Field)]. *)
Definition tagWithIndex (i : Z) (ve : ValidationError) : ValidationError :=
  mkValidationError ("logs[" +:+ itoa i +:+ "]." +:+ Field ve) (Message ve).

(** The loop [for i, log := range batchRequest.Logs] with its two
    accumulators [validationErrors] and [validLogs]. *)
Fixpoint validateBatch (now : Time) (i : Z) (logs : list AnalyticsLog)
                       (validationErrors : list ValidationError)
                       (validLogs : list AnalyticsLog)
  : list ValidationError * list AnalyticsLog :=
  match logs with
  | [] => (validationErrors, validLogs)
  | log :: logs' =>
      let log := setDefaultValues now log in
      match validateStruct log with
      | [] => validateBatch now (i + 1) logs' validationErrors
                            (validLogs ++ [log])
      | errs =>
          validateBatch now (i + 1) logs'
            (validationErrors
             ++ map (tagWithIndex i) (formatValidationErrors errs))
            validLogs
      end
  end.

Definition maxBatchSize : Z := 1000.

Definition len {A} (l : list A) : Z := Z.of_nat (length l).

(** [IngestBatch]; [body] is what [ShouldBindJSON] decoded, [None] when
    it failed.  The Prometheus counters are left out. *)
Definition IngestBatch (now : Time) (db : Store) (body : option BatchRequest)
  : Store * Response :=
  match body with
  | None =>
      (db, ErrorJSON StatusBadRequest
             (mkErrorResponse "invalid_json" "Invalid JSON format" []))
  | Some batchRequest =>
      if len (Logs batchRequest) =? 0
      then (db, ErrorJSON StatusBadRequest
                  (mkErrorResponse "empty_batch" "Batch cannot be empty" []))
      else if maxBatchSize <? len (Logs batchRequest)
      then (db, ErrorJSON StatusBadRequest
                  (mkErrorResponse "batch_too_large"
                     ("Batch size cannot exceed " +:+ itoa maxBatchSize
                      +:+ " logs") []))
      else
        let '(validationErrors, validLogs) :=
          validateBatch now 0 (Logs batchRequest) [] [] in
        if 0 <? len validationErrors
        then (db, ErrorJSON StatusBadRequest
                    (mkErrorResponse "validation_error"
                       ("Validation failed for "
                        +:+ itoa (len validationErrors) +:+ " logs")
                       validationErrors))
        else
          match InsertLogsBatch now db validLogs with
          | (db', Err _) =>
              (db', ErrorJSON StatusInternalServerError
                      (mkErrorResponse "database_error"
                         "Failed to store logs" []))
          | (db', Ok _) =>
              (db', SuccessJSON StatusCreated
                      ("Batch of " +:+ itoa (len validLogs)
                       +:+ " logs ingested successfully")
                      (BatchData (len validLogs)
                                 (len (Logs batchRequest))))
          end
  end.

(** *** The filter endpoint *)

(** Go's [int] is 64 bits wide and wraps around. *)
Definition wrap64 (z : Z) : Z := (z + 2 ^ 63) mod 2 ^ 64 - 2 ^ 63.

Section FilterEndpoint.
(** [strconv.Atoi] and [time.Parse(time.RFC3339, _)], [None] on error. *)
Variable Atoi : string -> option Z.
Variable ParseRFC3339 : string -> option Time.
Variable queryCount : Query -> result Z.
Variable queryRows : Query -> result (list (result AnalyticsLog)).

(** [c.Query(key)]: the empty string when the parameter is absent. *)
Definition QueryParam (params : gmap string string) (key : string)
  : string :=
  default "" (params !! key).

Definition parsePage (params : gmap string string) : Z :=
  let pageParam := QueryParam params "page" in
  if String.eqb pageParam "" then 1
  else match Atoi pageParam with
       | Some parsedPage => if 0 <? parsedPage then parsedPage else 1
       | None => 1
       end.

Definition parsePageSize (params : gmap string string) : Z :=
  let pageSizeParam := QueryParam params "page_size" in
  if String.eqb pageSizeParam "" then 50
  else match Atoi pageSizeParam with
       | Some parsedPageSize =>
           if (0 <? parsedPageSize) && (parsedPageSize <=? 1000)
           then parsedPageSize else 50
       | None => 50
       end.

Definition badRequest (code message : string) : Response :=
  ErrorJSON StatusBadRequest (mkErrorResponse code message []).

(** [start_time] and [end_time]: absent, parsed, or malformed. *)
Definition parseTime (s : string) : result (option Time) :=
  if String.eqb s "" then Ok None
  else match ParseRFC3339 s with
       | Some t => Ok (Some t)
       | None => Err s
       end.

Definition GetFilteredLogsHandler (params : gmap string string)
  : Response :=
  let page := parsePage params in
  let pageSize := parsePageSize params in
  match parseTime (QueryParam params "start_time") with
  | Err _ =>
      badRequest "invalid_start_time"
        "start_time must be in RFC3339 format (e.g., 2023-01-01T00:00:00Z)"
  | Ok startTime =>
  match parseTime (QueryParam params "end_time") with
  | Err _ =>
      badRequest "invalid_end_time"
        "end_time must be in RFC3339 format (e.g., 2023-01-01T00:00:00Z)"
  | Ok endTime =>
      let filter :=
        mkLogFilter (QueryParam params "event_type")
                    (QueryParam params "event_name")
                    (QueryParam params "user_id")
                    (QueryParam params "session_id")
                    (QueryParam params "app_version")
                    (QueryParam params "priority")
                    (QueryParam params "provider_name")
                    startTime endTime
                    pageSize (wrap64 ((page - 1) * pageSize))
                    (QueryParam params "sort_by")
                    (QueryParam params "sort_order") in
      if negb (String.eqb (FEventType filter) "")
         && negb (oneof eventTypes (FEventType filter))
      then badRequest "invalid_event_type"
             "event_type must be one of: behavioral, telemetry, observability, error, performance"
      else if negb (String.eqb (FPriority filter) "")
              && negb (String.eqb (FPriority filter) "normal")
              && negb (String.eqb (FPriority filter) "high")
      then badRequest "invalid_priority"
             "priority must be either 'normal' or 'high'"
      else
        match GetFilteredLogs queryCount queryRows filter with
        | Err _ =>
            ErrorJSON StatusInternalServerError
              (mkErrorResponse "database_error"
                 "Failed to retrieve filtered logs" [])
        | Ok (logs, totalCount) =>
            let totalPages :=
              if Z.rem totalCount pageSize =? 0
              then Z.quot totalCount pageSize
              else Z.quot totalCount pageSize + 1 in
            SuccessJSON StatusOK
              ("Retrieved " +:+ itoa (len logs)
               +:+ " filtered logs (page " +:+ itoa page
               +:+ " of " +:+ itoa totalPages +:+ ")")
              (FilteredData
                 (mkFilteredLogsResponse logs totalCount page pageSize
                                         totalPages))
        end
  end end.
End FilterEndpoint.

(** *** The single-event and recent-logs endpoints *)

(** [c.JSON] with an error envelope, or with a success envelope whose
    [Data] has type [D]. *)
Inductive Reply (D : Type) : Type :=
| ReplyError (status : Z) (body : ErrorResponse)
| ReplySuccess (status : Z) (message : string) (data : D).
Arguments ReplyError {D} status body.
Arguments ReplySuccess {D} status message data.

Definition StatusConflict : Z := 409.

(** [IngestSingle]; [body] is what [ShouldBindJSON] decoded, [None] when
    it failed; the data of the success envelope are [event_id] and [id].
    The Prometheus counters are left out. *)
Definition IngestSingle (now : Time) (db : Store) (body : option AnalyticsLog)
  : Store * Reply (string * Z) :=
  match body with
  | None =>
      (db, ReplyError StatusBadRequest
             (mkErrorResponse "invalid_json" "Invalid JSON format" []))
  | Some log =>
      let log := setDefaultValues now log in
      match validateStruct log with
      | [] =>
          match InsertLog now db log with
          | (db', Err e) =>
              if Contains e "duplicate key"
              then (db', ReplyError StatusConflict
                           (mkErrorResponse "duplicate_event"
                              "Event with this ID already exists" []))
              else (db', ReplyError StatusInternalServerError
                           (mkErrorResponse "database_error"
                                            "Failed to store log" []))
          | (db', Ok log') =>
              (db', ReplySuccess StatusCreated "Log ingested successfully"
                                 (EventID log', ID log'))
          end
      | errs =>
          (db, ReplyError StatusBadRequest
                 (mkErrorResponse "validation_error" "Invalid log data"
                                  (formatValidationErrors errs)))
      end
  end.

Section RecentEndpoint.
(** [parseInt] is [fmt.Sscanf(s, "%d", &result)], [None] on error. *)
Variable parseInt : string -> option Z.
Variable queryRows : Query -> result (list (result AnalyticsLog)).

Definition parseLimit (params : gmap string string) : Z :=
  let limitParam := default "" (params !! "limit") in
  if String.eqb limitParam "" then 50
  else match parseInt limitParam with
       | Some parsedLimit =>
           if (0 <? parsedLimit) && (parsedLimit <=? 1000)
           then parsedLimit else 50
       | None => 50
       end.

Definition GetRecentLogsHandler (params : gmap string string)
  : Reply (list AnalyticsLog) :=
  match GetRecentLogs queryRows (parseLimit params) with
  | Err _ =>
      ReplyError StatusInternalServerError
        (mkErrorResponse "database_error" "Failed to retrieve logs" [])
  | Ok logs =>
      ReplySuccess StatusOK
        ("Retrieved " +:+ itoa (len logs) +:+ " recent logs") logs
  end.
End RecentEndpoint.

End Handlers.

(** ** The auth package *)

Module Auth.
Import Strings Models Database.

Record AuthService : Type := mkAuthService {
  apiKeys : gmap string bool;
  lastSync : Time
}.

(** [NewAuthService]: an empty map and the zero time. *)
Definition NewAuthService : AuthService := mkAuthService ∅ 0.

(** [http.Header], under canonical keys, and [Header.Get]: the first
    value of the key, the empty string when there is none. *)
Abbreviation Header := (gmap string (list string)).

Definition HeaderGet (h : Header) (key : string) : string :=
  match h !! key with
  | Some (v :: _) => v
  | _ => ""
  end.

Definition extractAPIKey (r : Header) : string :=
  let auth := HeaderGet r "Authorization" in
  if negb (String.eqb auth "")
  then if HasPrefix auth "Bearer " then TrimPrefix auth "Bearer " else auth
  else HeaderGet r "X-Api-Key".

(** [as.apiKeys[keyHash]]: a missing key reads as [false]. *)
Definition cached (svc : AuthService) (keyHash : string) : bool :=
  default false (apiKeys svc !! keyHash).

Definition fiveMinutes : Z := 5 * 60 * 1000000000.

(** [refreshCache] keeps the map and restarts the clock. *)
Definition refreshCache (now : Time) (svc : AuthService) : AuthService :=
  mkAuthService (apiKeys svc) now.

(** [time.Since(as.lastSync) > 5*time.Minute]; a [Duration] saturates
    far above five minutes, so the difference in [Z] compares alike. *)
Definition isValidCachedKey (now : Time) (svc : AuthService)
                            (keyHash : string) : AuthService * bool :=
  let svc := if fiveMinutes <? now - lastSync svc
             then refreshCache now svc else svc in
  (svc, cached svc keyHash).

Definition setCached (svc : AuthService) (keyHash : string) : AuthService :=
  mkAuthService (<[keyHash := true]> (apiKeys svc)) (lastSync svc).

(** [RevokeAPIKey]. *)
Definition RevokeAPIKey (svc : AuthService) (keyHash : string)
  : AuthService :=
  mkAuthService (delete keyHash (apiKeys svc)) (lastSync svc).

(** What the middleware did for the request. *)
Inductive Outcome : Type :=
| Abort (status : Z) (body : ErrorResponse)
| Next (api_key_hash : string).

(** The calls on the store that one request causes: the synchronous
    lookup, and the usage update handed to a goroutine. *)
Inductive Effect : Type :=
| StoreLookup (keyHash : string)
| SpawnUsageUpdate (keyHash : string).

Definition StatusUnauthorized : Z := 401.
Definition StatusInternalServerError : Z := 500.

Definition unauthorized (message : string) : Outcome :=
  Abort StatusUnauthorized (mkErrorResponse "unauthorized" message []).

Definition expired (now : Time) (k : APIKey) : bool :=
  match ExpiresAt k with
  | Some t => Before t now
  | None => false
  end.

Section WithHash.
(** [hashAPIKey] is the hexadecimal SHA-256 of the key, and [formatDate]
    is [Format("2006-01-02")]; both come from Go's library. *)
Variable hashAPIKey : string -> string.
Variable formatDate : Time -> string.

(** The body of [for _, key := range keys]. *)
Fixpoint initializeKeys (now : Time) (svc : AuthService) (db : Store)
                        (keys : list string)
  : AuthService * Store * result unit :=
  match keys with
  | [] => (svc, db, Ok tt)
  | key :: keys' =>
      let keyHash := hashAPIKey key in
      match GetAPIKey db keyHash with
      | Err e => (svc, db, Err ("failed to check existing API key: " +:+ e))
      | Ok (Some _) => initializeKeys now (setCached svc keyHash) db keys'
      | Ok None =>
          let apiKey :=
            mkAPIKey 0 keyHash
                     ("Auto-generated key " +:+ formatDate now)
                     true 0 None None 0 in
          match InsertAPIKey now db apiKey with
          | (db', Err e) =>
              (svc, db', Err ("failed to insert API key: " +:+ e))
          | (db', Ok _) =>
              initializeKeys now (setCached svc keyHash) db' keys'
          end
      end
  end.

Definition InitializeAPIKeys (now : Time) (svc : AuthService) (db : Store)
                             (keys : list string)
  : AuthService * Store * result unit :=
  match initializeKeys now svc db keys with
  | (svc', db', Ok _) => (mkAuthService (apiKeys svc') now, db', Ok tt)
  | r => r
  end.

(** The handler returned by [AuthMiddleware], for one request. *)
Definition AuthMiddleware (now : Time) (svc : AuthService) (db : Store)
                          (r : Header)
  : AuthService * Outcome * list Effect :=
  let apiKey := extractAPIKey r in
  if String.eqb apiKey ""
  then (svc, unauthorized "API key is required", [])
  else
    let keyHash := hashAPIKey apiKey in
    let '(svc, hit) := isValidCachedKey now svc keyHash in
    if hit
    then (svc, Next keyHash, [SpawnUsageUpdate keyHash])
    else
      match GetAPIKey db keyHash with
      | Err _ =>
          (svc,
           Abort StatusInternalServerError
                 (mkErrorResponse "internal_error"
                                  "Failed to validate API key" []),
           [StoreLookup keyHash])
      | Ok dbKey =>
          match dbKey with
          | None =>
              (svc, unauthorized "Invalid or inactive API key",
               [StoreLookup keyHash])
          | Some k =>
              if negb (IsActive k)
              then (svc, unauthorized "Invalid or inactive API key",
                    [StoreLookup keyHash])
              else if expired now k
              then (svc, unauthorized "API key has expired",
                    [StoreLookup keyHash])
              else (setCached svc keyHash, Next keyHash,
                    [StoreLookup keyHash; SpawnUsageUpdate keyHash])
          end
      end.

(** A request as it reaches the middleware: the time, the store as it
    is then, and the headers. *)
Record Request : Type := mkRequest {
  req_now : Time;
  req_db : Store;
  req_header : Header
}.

(** The middleware serving a sequence of requests, one after the
    other, with what it did for each. *)
Fixpoint serve (svc : AuthService) (reqs : list Request)
  : list (Outcome * list Effect) * AuthService :=
  match reqs with
  | [] => ([], svc)
  | r :: reqs' =>
      let '(svc', out, eff) :=
        AuthMiddleware (req_now r) svc (req_db r) (req_header r) in
      let '(outs, svc'') := serve svc' reqs' in
      ((out, eff) :: outs, svc'')
  end.
End WithHash.

(** *** Key generation *)

Definition charset : string :=
  "abcdefghijklmnopqrstuvwxyzABCDEFGHIJKLMNOPQRSTUVWXYZ0123456789".

(** The loop of [generateRandomString]: byte [i] is
    [charset[time.Now().UnixNano() % 62]], with [clock i] the reading of
    the clock in that iteration.  Go's [%] keeps the sign of the dividend,
    so a reading before 1970 indexes below zero and panics: [None]. *)
Fixpoint randomBytes (n : nat) (clock : nat -> Z) (i : nat) : option string :=
  match n with
  | O => Some EmptyString
  | S n' =>
      let idx := Z.rem (clock i) (Z.of_nat (String.length charset)) in
      if idx <? 0 then None
      else match String.get (Z.to_nat idx) charset with
           | None => None
           | Some c =>
               match randomBytes n' clock (S i) with
               | None => None
               | Some rest => Some (String c rest)
               end
           end
  end.

(** [generateRandomString]; [make] panics on a negative length. *)
Definition generateRandomString (length : Z) (clock : nat -> Z)
  : option string :=
  if length <? 0 then None else randomBytes (Z.to_nat length) clock 0.

(** [ValidateAPIKeyFormat]. *)
Definition ValidateAPIKeyFormat (key : string) : bool :=
  if (String.length key <? 10)%nat then false
  else Contains key "hta_" || (20 <=? String.length key)%nat.

Section KeyGeneration.
Variable hashAPIKey : string -> string.

(** [GenerateAPIKey]: [unixNano] is the reading of the clock that goes
    into the key, [clock] the readings of [generateRandomString], [now]
    the time of the insert.  [None] is the panic of the random string. *)
Definition GenerateAPIKey (now : Time) (unixNano : Z) (clock : nat -> Z)
                          (svc : AuthService) (db : Store)
                          (name : string) (expiresAt : option Time)
  : option (AuthService * Store * result string) :=
  match generateRandomString 32 clock with
  | None => None
  | Some random =>
      let key := "hta_" +:+ itoa unixNano +:+ "_" +:+ random in
      let keyHash := hashAPIKey key in
      let apiKey := mkAPIKey 0 keyHash name true 0 None expiresAt 0 in
      match InsertAPIKey now db apiKey with
      | (db', Err e) =>
          Some (svc, db', Err ("failed to insert API key: " +:+ e))
      | (db', Ok _) => Some (setCached svc keyHash, db', Ok key)
      end
  end.

(** [GetAPIKeyInfo]. *)
Definition GetAPIKeyInfo (db : Store) (keyHash : string)
  : result (option APIKey) :=
  GetAPIKey db keyHash.
End KeyGeneration.

End Auth.

(** ** config/config.go *)

Module Config.
Import Strings Models Database.

(** The process environment; [os.Getenv] gives the empty string for a
    variable that is not set. *)
Abbreviation Env := (gmap string string).

Definition Getenv (env : Env) (key : string) : string :=
  default "" (env !! key).

Definition getEnv (env : Env) (key defaultValue : string) : string :=
  let value := Getenv env key in
  if negb (String.eqb value "") then value else defaultValue.

(** [strconv.ParseBool]. *)
Definition ParseBool (str : string) : option bool :=
  if existsb (String.eqb str) ["1"; "t"; "T"; "true"; "TRUE"; "True"]
  then Some true
  else if existsb (String.eqb str) ["0"; "f"; "F"; "false"; "FALSE"; "False"]
  then Some false
  else None.

Definition getEnvAsBool (env : Env) (key : string) (defaultValue : bool)
  : bool :=
  let value := Getenv env key in
  if negb (String.eqb value "")
  then match ParseBool value with
       | Some boolValue => boolValue
       | None => defaultValue
       end
  else defaultValue.

(** [strings.Split] for a separator that is not empty: [cur] is the piece
    being read, last byte first, and [skip] counts the bytes of a
    separator still to pass over. *)
Fixpoint splitFrom (sep s : string) (skip : nat) (cur : string)
  : list string :=
  match s with
  | EmptyString => [String.rev cur]
  | String c s' =>
      match skip with
      | S k => splitFrom sep s' k cur
      | O =>
          if HasPrefix s sep
          then String.rev cur
               :: splitFrom sep s' (String.length sep - 1) EmptyString
          else splitFrom sep s' 0 (String c cur)
      end
  end.

(** With an empty separator Go splits after each UTF-8 sequence, which on
    ASCII text is after each byte; the package only ever passes [","]. *)
Fixpoint explode (s : string) : list string :=
  match s with
  | EmptyString => []
  | String c s' => String c EmptyString :: explode s'
  end.

Definition Split (s sep : string) : list string :=
  match sep with
  | EmptyString => explode s
  | _ => splitFrom sep s 0 EmptyString
  end.

Definition getEnvAsSlice (env : Env) (key delimiter : string) : list string :=
  let value := Getenv env key in
  if negb (String.eqb value "") then Split value delimiter else [].

Record DatabaseConfig : Type := mkDatabaseConfig {
  Host : string;
  DBPort : Z;
  DBName : string;
  User : string;
  Password : string;
  SSLMode : string;
  MaxConnections : Z;
  MaxIdleConnections : Z;
  MaxLifetime : Z
}.

Record Config : Type := mkConfig {
  Port : string;
  GinMode : string;
  LogLevel : string;
  Environment : string;
  Database : DatabaseConfig;
  APIKeys : list string;
  EnableAPIKeyRotation : bool;
  APIKeyRotationInterval : Z;
  RateLimitRequestsPerMinute : Z;
  RateLimitBurst : Z;
  MaxBatchSize : Z;
  BatchTimeout : Z;
  WorkerPoolSize : Z;
  EnableMetrics : bool;
  MetricsPath : string;
  HealthCheckPath : string;
  EnableCORS : bool;
  AllowedOrigins : list string;
  RequestTimeout : Z;
  MaxRequestSizeMB : Z
}.

(** [time.Duration] counts nanoseconds in 64 bits. *)
Definition Second : Z := 1000000000.
Definition Minute : Z := 60 * Second.
Definition Hour : Z := 60 * Minute.

Definition duration (n unit : Z) : Z := Handlers.wrap64 (n * unit).

Section Parsers.
(** [strconv.Atoi], [None] on error. *)
Variable Atoi : string -> option Z.

Definition getEnvAsInt (env : Env) (key : string) (defaultValue : Z) : Z :=
  let value := Getenv env key in
  if negb (String.eqb value "")
  then match Atoi value with
       | Some intValue => intValue
       | None => defaultValue
       end
  else defaultValue.

(** [LoadConfig], on the environment as it is after [godotenv.Load]. *)
Definition LoadConfig (env : Env) : result Config :=
  let config :=
    mkConfig
      (getEnv env "PORT" "8080")
      (getEnv env "GIN_MODE" "release")
      (getEnv env "LOG_LEVEL" "info")
      (getEnv env "ENVIRONMENT" "production")
      (mkDatabaseConfig
         (getEnv env "DB_HOST" "localhost")
         (getEnvAsInt env "DB_PORT" 5432)
         (getEnv env "DB_NAME" "analytics_logs")
         (getEnv env "DB_USER" "postgres")
         (getEnv env "DB_PASSWORD" "")
         (getEnv env "DB_SSL_MODE" "disable")
         (getEnvAsInt env "DB_MAX_CONNECTIONS" 100)
         (getEnvAsInt env "DB_MAX_IDLE_CONNECTIONS" 10)
         (duration (getEnvAsInt env "DB_MAX_LIFETIME_MINUTES" 60) Minute))
      (getEnvAsSlice env "API_KEYS" ",")
      (getEnvAsBool env "ENABLE_API_KEY_ROTATION" false)
      (duration (getEnvAsInt env "API_KEY_ROTATION_INTERVAL_HOURS" 24) Hour)
      (getEnvAsInt env "RATE_LIMIT_REQUESTS_PER_MINUTE" 1000)
      (getEnvAsInt env "RATE_LIMIT_BURST" 100)
      (getEnvAsInt env "MAX_BATCH_SIZE" 1000)
      (duration (getEnvAsInt env "BATCH_TIMEOUT_SECONDS" 30) Second)
      (getEnvAsInt env "WORKER_POOL_SIZE" 10)
      (getEnvAsBool env "ENABLE_METRICS" true)
      (getEnv env "METRICS_PATH" "/metrics")
      (getEnv env "HEALTH_CHECK_PATH" "/health")
      (getEnvAsBool env "ENABLE_CORS" true)
      (getEnvAsSlice env "ALLOWED_ORIGINS" ",")
      (duration (getEnvAsInt env "REQUEST_TIMEOUT_SECONDS" 30) Second)
      (getEnvAsInt env "MAX_REQUEST_SIZE_MB" 10) in
  if (length (APIKeys config) =? 0)%nat
  then Err "API_KEYS must be provided"
  else if String.eqb (Password (Database config)) ""
  then Err "DB_PASSWORD must be provided"
  else Ok config.
End Parsers.

(** [GetDatabaseURL]. *)
Definition GetDatabaseURL (c : Config) : string :=
  "host=" +:+ Host (Database c)
  +:+ " port=" +:+ itoa (DBPort (Database c))
  +:+ " user=" +:+ User (Database c)
  +:+ " password=" +:+ Password (Database c)
  +:+ " dbname=" +:+ DBName (Database c)
  +:+ " sslmode=" +:+ SSLMode (Database c).

End Config.

(** ** main.go *)

Module Main.
Import Strings Models Database.

Section Startup.
Variable Atoi : string -> option Z.
Variable hashAPIKey : string -> string.
Variable formatDate : Time -> string.

(** The start of [main], up to the router: the configuration is loaded
    and the configured keys are put into a new [AuthService].  [db] is the
    store as [NewDB] and [RunMigrations] leave it; [logrus.Fatalf] ends
    the process, which is the error here. *)
Definition startup (now : Time) (env : Config.Env) (db : Store)
  : Store * result (Config.Config * Auth.AuthService) :=
  match Config.LoadConfig Atoi env with
  | Err e => (db, Err ("Failed to load configuration: " +:+ e))
  | Ok cfg =>
      match Auth.InitializeAPIKeys hashAPIKey formatDate now
                                   Auth.NewAuthService db
                                   (Config.APIKeys cfg) with
      | (_, db', Err e) => (db', Err ("Failed to initialize API keys: " +:+ e))
      | (authService, db', Ok _) => (db', Ok (cfg, authService))
      end
  end.
End Startup.

End Main.

(** ** The statements of the specification *)

Module Spec.
Import Strings Models Database.

Definition withSortBy (f : LogFilter) (s : string) : LogFilter :=
  mkLogFilter (FEventType f) (FEventName f) (FUserID f) (FSessionID f)
              (FAppVersion f) (FPriority f) (FProviderName f)
              (FStartTime f) (FEndTime f) (Limit f) (Offset f)
              s (SortOrder f).

(** A filter with nothing set but its sort parameters. *)
Definition sortOnly (sortBy sortOrder : string) : LogFilter :=
  mkLogFilter "" "" "" "" "" "" "" None None 50 0 sortBy sortOrder.

(** The sort allow-list as the specification words it: the column is
    allow-listed, an allow-listed value is used, and any other value
    gives [created_at] and does not appear in the text of the page
    query. *)
Definition sort_by_claim (f : LogFilter) : Prop :=
  In (sortByOf f) validSortFields
  /\ (In (SortBy f) validSortFields -> sortByOf f = SortBy f)
  /\ (~ In (SortBy f) validSortFields ->
      sortByOf f = "created_at"
      /\ Contains (text (pageQueryOf f)) (SortBy f) = false).

(** The sort order as the specification words it: [ASC] and [DESC] are
    recognised whatever the case of their letters. *)
Definition sort_order_claim (f : LogFilter) : Prop :=
  (EqualFold (SortOrder f) "asc" = true -> sortOrderOf f = "ASC")
  /\ (EqualFold (SortOrder f) "desc" = true -> sortOrderOf f = "DESC")
  /\ (EqualFold (SortOrder f) "asc" = false ->
      EqualFold (SortOrder f) "desc" = false -> sortOrderOf f = "DESC").

(** The predicate set in the specification's terms: a column
    expression, an operator and the bound value. *)
Record Predicate : Type := mkPredicate {
  p_column : string;
  p_operator : string;
  p_value : Arg
}.

(** A present scalar field is an equality predicate; an absent one
    contributes nothing. *)
Definition equality (column value : string) : list Predicate :=
  if String.eqb value "" then []
  else [mkPredicate column "=" (ArgString value)].

(** A present time bound is an inclusive bound on [created_at]. *)
Definition timeBound (operator : string) (t : option Time)
  : list Predicate :=
  match t with
  | None => []
  | Some v => [mkPredicate "created_at" operator (ArgTime v)]
  end.

Definition predicatesOf (f : LogFilter) : list Predicate :=
  equality "event_type" (FEventType f)
  ++ equality "event_name" (FEventName f)
  ++ equality "user_id" (FUserID f)
  ++ equality "session_id" (FSessionID f)
  ++ equality "app_version" (FAppVersion f)
  ++ equality "priority" (FPriority f)
  ++ equality "properties->'tags'->>'provider'" (FProviderName f)
  ++ timeBound ">=" (FStartTime f)
  ++ timeBound "<=" (FEndTime f).

(** The [i]-th predicate (from 0) written with the placeholder [$(i+1)]. *)
Definition renderPredicate (i : nat) (p : Predicate) : string :=
  p_column p +:+ " " +:+ p_operator p +:+ " $" +:+ itoa (Z.of_nat i + 1).

(** A builder state that stands for a list of predicates. *)
Definition represents (b : Builder) (ps : list Predicate) : Prop :=
  conditions b = imap renderPredicate ps
  /\ args b = map p_value ps
  /\ argIndex b = Z.of_nat (length ps) + 1.

(** The limit and offset values that the page query binds after the
    values of the predicates. *)
Definition pagingArgs (f : LogFilter) : list Arg :=
  if hasOffset f then [ArgInt (Limit f); ArgInt (Offset f)]
  else [ArgInt (Limit f)].

(** A field of a log, under its Go name, that breaks the rules of the
    data model: a required field is missing, or a value is outside its
    enumeration. *)
Definition offending (log : AnalyticsLog) (field : string) : Prop :=
  (field = "EventID" /\ EventID log = "")
  \/ (field = "Timestamp" /\ Timestamp log = 0)
  \/ (field = "EventType" /\ ~ In (EventType log) Handlers.eventTypes)
  \/ (field = "EventName" /\ EventName log = "")
  \/ (field = "Priority" /\ ~ In (Priority log) Handlers.priorities).

(** Whether the validator accepts the log. *)
Definition isValid (log : AnalyticsLog) : bool :=
  match Handlers.validateStruct log with
  | [] => true
  | _ => false
  end.

(** The entries that the log at index [i] adds to the error response. *)
Definition errorsOf (now : Time) (i : Z) (log : AnalyticsLog)
  : list ValidationError :=
  map (Handlers.tagWithIndex i)
      (Handlers.formatValidationErrors
         (Handlers.validateStruct (Handlers.setDefaultValues now log))).

(** The entries of a whole batch, log after log. *)
Definition batchErrors (now : Time) (logs : list AnalyticsLog)
  : list ValidationError :=
  concat (imap (fun j log => errorsOf now (Z.of_nat j) log) logs).

(** Two logs of the batch carry the same [event_id]. *)
Definition duplicateInside (logs : list AnalyticsLog) : Prop :=
  exists (i j : nat) (a b : AnalyticsLog),
    (i < j)%nat /\ logs !! i = Some a /\ logs !! j = Some b
    /\ EventID a = EventID b.

(** The store confirms the hash at this time: it holds a record with the
    hash that is active and not expired. *)
Definition confirmed (now : Time) (db : Store) (keyHash : string) : Prop :=
  exists k, In k (api_keys db) /\ KeyHash k = keyHash
            /\ IsActive k = true /\ Auth.expired now k = false.

(** The request was accepted on a lookup in the store. *)
Definition acceptedByStore (keyHash : string)
                           (o : Auth.Outcome * list Auth.Effect) : Prop :=
  o = (Auth.Next keyHash,
       [Auth.StoreLookup keyHash; Auth.SpawnUsageUpdate keyHash]).

(** The request was accepted from the cache, with no lookup in the store. *)
Definition servedFromCache (keyHash : string)
                           (o : Auth.Outcome * list Auth.Effect) : Prop :=
  o = (Auth.Next keyHash, [Auth.SpawnUsageUpdate keyHash]).

Section Bootstrap.
Variable hashAPIKey : string -> string.
Variable formatDate : Time -> string.

(** The store can take the hashes and the name that bootstrap writes, and
    no configured key has an inactive record. *)
Definition bootstrappable (now : Time) (db : Store) (keys : list string)
  : Prop :=
  conn_ok db = true
  /\ fitsVarchar 100 ("Auto-generated key " +:+ formatDate now) = true
  /\ (forall key, In key keys -> fitsVarchar 255 (hashAPIKey key) = true)
  /\ (forall key k, In key keys -> In k (api_keys db) ->
                    KeyHash k = hashAPIKey key -> IsActive k = true).

(** The lookup finds a record for each of the keys. *)
Definition allFound (db : Store) (keys : list string) : Prop :=
  forall key, In key keys ->
              exists k, GetAPIKey db (hashAPIKey key) = Ok (Some k).
End Bootstrap.

End Spec.

(** ** Further statements about the code *)

Module Extra.
Import Strings Models Database.

(** What of a filter reaches the text of its two statements: which
    fields are set, the sort column, the direction, and whether there is
    an offset. *)
Definition present (s : string) : bool := negb (String.eqb s "").

Definition shape (f : LogFilter) : list bool * string * string * bool :=
  ([present (FEventType f); present (FEventName f); present (FUserID f);
    present (FSessionID f); present (FAppVersion f); present (FPriority f);
    present (FProviderName f);
    bool_decide (is_Some (FStartTime f)); bool_decide (is_Some (FEndTime f))],
   sortByOf f, sortOrderOf f, hasOffset f).

(** The [VARCHAR] limits of a row of [analytics_logs]. *)
Definition fitsRow (log : AnalyticsLog) : bool :=
  fitsVarchar 255 (EventID log)
  && fitsVarchar 50 (EventType log)
  && fitsVarchar 100 (EventName log)
  && fitsVarcharOpt 255 (UserID log)
  && fitsVarcharOpt 255 (SessionID log)
  && fitsVarcharOpt 50 (AppVersion log)
  && fitsVarchar 20 (Priority log).

(** The constraints of the table of logs: [event_id] and [id] are
    unique, and no [id] is ahead of the sequence. *)
Definition logsConsistent (db : Store) : Prop :=
  NoDup (map EventID (analytics_logs db))
  /\ NoDup (map ID (analytics_logs db))
  /\ forall r, In r (analytics_logs db) -> ID r <= analytics_logs_id_seq db.

(** The same for the table of keys. *)
Definition keysConsistent (db : Store) : Prop :=
  NoDup (map KeyHash (api_keys db))
  /\ NoDup (map KeyID (api_keys db))
  /\ forall k, In k (api_keys db) -> KeyID k <= api_keys_id_seq db.

(** A usage update as it shows on one record. *)
Definition used (now : Time) (keyHash : string) (k : APIKey) : APIKey :=
  if String.eqb (KeyHash k) keyHash
  then mkAPIKey (KeyID k) (KeyHash k) (Name k) (IsActive k) (KeyCreatedAt k)
                (Some now) (ExpiresAt k) (UsageCount k + 1)
  else k.

(** The constraints on rows and sequence as a transaction sees them. *)
Definition rowsConsistent (rows : list AnalyticsLog) (seq : Z) : Prop :=
  NoDup (map EventID rows)
  /\ NoDup (map ID rows)
  /\ forall r, In r rows -> ID r <= seq.

(** The hashes that the store was asked for while a request was served. *)
Definition lookups (eff : list Auth.Effect) : list string :=
  flat_map (fun e => match e with
                     | Auth.StoreLookup h => [h]
                     | Auth.SpawnUsageUpdate _ => []
                     end) eff.

(** What bootstrap adds to the table: active records without expiry,
    created now, under hashes of configured keys. *)
Definition bootstrapRecord (hashAPIKey : string -> string)
                           (formatDate : Time -> string)
                           (now : Time) (keys : list string) (k : APIKey)
  : Prop :=
  IsActive k = true /\ KeyCreatedAt k = now /\ ExpiresAt k = None
  /\ Name k = "Auto-generated key " +:+ formatDate now
  /\ exists key, In key keys /\ KeyHash k = hashAPIKey key.

(** [strings.Join]. *)
Fixpoint Join (pieces : list string) (sep : string) : string :=
  match pieces with
  | [] => ""
  | [piece] => piece
  | piece :: rest => piece +:+ sep +:+ Join rest sep
  end.

End Extra.

(** * Properties *)

(** ** Strings *)

Section StringFacts.
Import Strings.

Lemma HasPrefix_app (p rest : string) : HasPrefix (p +:+ rest) p = true.
Proof.
  induction p as [|c p IH]; simpl; [reflexivity|].
  rewrite Ascii.eqb_refl. exact IH.
Qed.

Lemma substring_app_drop (p rest : string) :
  String.substring (String.length p) (String.length rest) (p +:+ rest) = rest.
Proof.
  induction p as [|c p IH]; simpl.
  - induction rest as [|d rest IHr]; simpl; [reflexivity|].
    f_equal. exact IHr.
  - exact IH.
Qed.

Lemma length_append (a b : string) :
  String.length (a +:+ b) = (String.length a + String.length b)%nat.
Proof. induction a as [|c a IH]; simpl; [reflexivity|]. now rewrite IH. Qed.

Lemma append_assoc (a b c : string) : (a +:+ b) +:+ c = a +:+ (b +:+ c).
Proof.
  induction a as [|x a IH]; [reflexivity|].
  change (String x ((a +:+ b) +:+ c) = String x (a +:+ (b +:+ c))).
  now rewrite IH.
Qed.

Lemma TrimPrefix_app (p rest : string) : TrimPrefix (p +:+ rest) p = rest.
Proof.
  unfold TrimPrefix. rewrite HasPrefix_app, length_append.
  replace (String.length p + String.length rest - String.length p)%nat
    with (String.length rest) by lia.
  apply substring_app_drop.
Qed.

Lemma occurs_append (c : ascii) (a b : string) :
  occurs c (a +:+ b) = occurs c a || occurs c b.
Proof.
  induction a as [|d a IH]; simpl; [reflexivity|].
  rewrite IH. now rewrite orb_assoc.
Qed.

Lemma HasPrefix_occurs (c : ascii) (sub s : string) :
  HasPrefix s sub = true -> occurs c sub = true -> occurs c s = true.
Proof.
  revert s. induction sub as [|d sub IH]; intros s Hp Ho; simpl in *.
  - discriminate.
  - destruct s as [|e s]; [discriminate|].
    destruct (Ascii.eqb_spec d e) as [->|]; [|discriminate].
    simpl. apply orb_true_iff in Ho as [Ho|Ho].
    + rewrite Ho. reflexivity.
    + rewrite (IH _ Hp Ho). apply orb_true_r.
Qed.

(** A substring brings all its bytes along. *)
Lemma Contains_occurs (c : ascii) (sub s : string) :
  Contains s sub = true -> occurs c sub = true -> occurs c s = true.
Proof.
  induction s as [|d s IH]; simpl; intros Hc Ho.
  - rewrite orb_false_r in Hc. destruct sub; simpl in *; discriminate.
  - apply orb_true_iff in Hc as [Hp|Hc].
    + apply (HasPrefix_occurs c sub (String d s)); assumption.
    + rewrite (IH Hc Ho). apply orb_true_r.
Qed.

Lemma plain_cons (c : ascii) (s : string) :
  isDigitOrDash c = true -> plain s -> plain (String c s).
Proof.
  intros Hc Hs d. simpl. intros [Hd|Hd]%orb_true_iff.
  - apply Ascii.eqb_eq in Hd. now subst.
  - now apply Hs.
Qed.

Lemma plain_pretty_N_go (x : N) (s : string) :
  plain s -> plain (pretty_N_go x s).
Proof.
  revert s. induction (N.lt_wf_0 x) as [x _ IH]; intros s Hs.
  assert (x = 0 \/ 0 < x)%N as [->|Hpos] by lia.
  - now rewrite pretty_N_go_0.
  - rewrite pretty_N_go_step by assumption.
    apply IH; [now apply N.div_lt|].
    apply plain_cons; [|assumption].
    unfold pretty_N_char. now repeat case_match.
Qed.

Lemma plain_empty : plain "".
Proof. intros c Hc. discriminate. Qed.

Lemma plain_pretty_N (x : N) : plain (pretty x).
Proof.
  unfold pretty, pretty_N. case_decide.
  - apply plain_cons; [reflexivity|apply plain_empty].
  - apply plain_pretty_N_go, plain_empty.
Qed.

(** [%d] prints digits and at most a sign. *)
Lemma plain_itoa (z : Z) : plain (itoa z).
Proof.
  unfold itoa, pretty, pretty_Z. destruct z as [|p|p].
  - apply plain_cons; [reflexivity|apply plain_empty].
  - apply plain_pretty_N.
  - apply plain_cons; [reflexivity|apply plain_pretty_N].
Qed.

Lemma occurs_itoa (c : ascii) (z : Z) :
  isDigitOrDash c = false -> occurs c (itoa z) = false.
Proof.
  intros Hc. destruct (occurs c (itoa z)) eqn:E; [|reflexivity].
  apply plain_itoa in E. congruence.
Qed.
End StringFacts.

(** ** The filter compiler *)

Section FilterCompiler.
Import Strings Models Database Spec.

Lemma isValidSortField_In (s : string) :
  isValidSortField s = true <-> In s validSortFields.
Proof.
  unfold isValidSortField. rewrite existsb_exists. split.
  - intros (x & Hin & Heq). apply String.eqb_eq in Heq. now subst.
  - intros Hin. exists s. split; [assumption|apply String.eqb_refl].
Qed.

Lemma sortByOf_valid (f : LogFilter) : In (sortByOf f) validSortFields.
Proof.
  unfold sortByOf. destruct (String.eqb (SortBy f) "").
  - apply isValidSortField_In. reflexivity.
  - destruct (isValidSortField (SortBy f)) eqn:E.
    + now apply isValidSortField_In.
    + apply isValidSortField_In. reflexivity.
Qed.

Lemma sortByOf_accepts (f : LogFilter) :
  In (SortBy f) validSortFields -> sortByOf f = SortBy f.
Proof.
  intros Hin. unfold sortByOf.
  destruct (String.eqb_spec (SortBy f) "") as [E|_].
  - rewrite E in Hin. vm_compute in Hin. intuition discriminate.
  - apply isValidSortField_In in Hin. now rewrite Hin.
Qed.

Lemma sortByOf_rejects (f : LogFilter) :
  ~ In (SortBy f) validSortFields -> sortByOf f = "created_at".
Proof.
  intros Hnin. unfold sortByOf.
  destruct (String.eqb (SortBy f) ""); [reflexivity|].
  destruct (isValidSortField (SortBy f)) eqn:E; [|reflexivity].
  apply isValidSortField_In in E. contradiction.
Qed.

Lemma sortByOf_withSortBy_created_at (f : LogFilter) :
  sortByOf (withSortBy f "created_at") = "created_at".
Proof. reflexivity. Qed.

(** A rejected value leaves both statements as they are for
    [created_at]. *)
Lemma queries_of_rejected (f : LogFilter) :
  ~ In (SortBy f) validSortFields ->
  countQueryOf f = countQueryOf (withSortBy f "created_at")
  /\ pageQueryOf f = pageQueryOf (withSortBy f "created_at").
Proof.
  intros Hnin. split; [reflexivity|].
  unfold pageQueryOf, limitClauseOf.
  rewrite sortByOf_withSortBy_created_at, (sortByOf_rejects f Hnin).
  reflexivity.
Qed.

(** *** No statement separator in the page query *)

Lemma no_semicolon_joinAnd (rest : list string) (acc : string) :
  occurs semicolon acc = false ->
  Forall (fun c => occurs semicolon c = false) rest ->
  occurs semicolon (joinAnd acc rest) = false.
Proof.
  revert acc. induction rest as [|c rest IH]; intros acc Hacc Hrest; simpl.
  - assumption.
  - inversion Hrest as [|? ? Hc Hrest']; subst.
    apply IH; [|assumption].
    rewrite !occurs_append, Hacc, Hc. reflexivity.
Qed.

Lemma no_semicolon_buildWhere (conds : list string) :
  Forall (fun c => occurs semicolon c = false) conds ->
  occurs semicolon (buildWhere conds) = false.
Proof.
  intros H. destruct conds as [|c0 rest]; [reflexivity|].
  inversion H as [|? ? Hc Hrest]; subst. simpl.
  apply no_semicolon_joinAnd; [|assumption].
  rewrite occurs_append, Hc. reflexivity.
Qed.

Lemma no_semicolon_addCondition (lhs : string) (a : option Arg)
                                (b : Builder) :
  occurs semicolon lhs = false ->
  Forall (fun c => occurs semicolon c = false) (conditions b) ->
  Forall (fun c => occurs semicolon c = false)
         (conditions (addCondition lhs a b)).
Proof.
  intros Hlhs Hb. destruct a as [v|]; simpl; [|assumption].
  apply Forall_app. split; [assumption|].
  constructor; [|constructor].
  rewrite !occurs_append, Hlhs, occurs_itoa; reflexivity.
Qed.

Lemma no_semicolon_conditions (f : LogFilter) :
  Forall (fun c => occurs semicolon c = false)
         (conditions (buildConditions f)).
Proof.
  unfold buildConditions.
  repeat (apply no_semicolon_addCondition; [reflexivity|]).
  constructor.
Qed.

Lemma no_semicolon_sortByOf (f : LogFilter) :
  occurs semicolon (sortByOf f) = false.
Proof.
  pose proof (sortByOf_valid f) as H. unfold validSortFields in H.
  simpl in H.
  repeat (destruct H as [<-|H]; [reflexivity|]). contradiction.
Qed.

Lemma no_semicolon_sortOrderOf (f : LogFilter) :
  occurs semicolon (sortOrderOf f) = false.
Proof. unfold sortOrderOf. now destruct (_ || _). Qed.

Lemma no_semicolon_pageQuery (f : LogFilter) :
  occurs semicolon (text (pageQueryOf f)) = false.
Proof.
  unfold pageQueryOf, pageQueryText, limitClauseOf; simpl text.
  destruct (hasOffset f);
    rewrite !occurs_append, no_semicolon_buildWhere,
            no_semicolon_sortByOf, no_semicolon_sortOrderOf,
            !occurs_itoa;
    try reflexivity; apply no_semicolon_conditions.
Qed.

(** The filter endpoint hands [sort_by] to the compiler as it came, so
    a rejected value is answered as [created_at] is. *)
Lemma handler_of_rejected
      (Atoi : string -> option Z) (ParseRFC3339 : string -> option Time)
      (queryCount : Query -> result Z)
      (queryRows : Query -> result (list (result AnalyticsLog)))
      (params : gmap string string) (s : string) :
  ~ In s validSortFields ->
  Handlers.GetFilteredLogsHandler Atoi ParseRFC3339 queryCount queryRows
    (<["sort_by" := s]> params)
  = Handlers.GetFilteredLogsHandler Atoi ParseRFC3339 queryCount queryRows
      (<["sort_by" := "created_at"]> params).
Proof.
  intros Hnin.
  unfold Handlers.GetFilteredLogsHandler, Handlers.parsePage,
    Handlers.parsePageSize, Handlers.QueryParam.
  rewrite !lookup_insert_eq.
  rewrite !lookup_insert_ne by discriminate.
  destruct (Handlers.parseTime ParseRFC3339 _); [|reflexivity].
  destruct (Handlers.parseTime ParseRFC3339 _); [|reflexivity].
  cbn [FEventType FPriority].
  destruct (_ && _); [reflexivity|].
  destruct (_ && _); [reflexivity|].
  unfold GetFilteredLogs.
  match goal with
  | |- context [countQueryOf ?f] =>
      destruct (queries_of_rejected f Hnin) as [Hc Hp];
      rewrite Hc, Hp
  end.
  reflexivity.
Qed.
End FilterCompiler.

(** C1 as worded fails: a value outside the allow-list can occur in the
    text of the page query all the same, because the text has fixed parts
    of its own.  [sort_by=properties] is rejected and answered with
    [created_at], and [properties] is one of the selected columns. *)
Lemma sort_by_claim_counterexample :
  ~ Spec.sort_by_claim (Spec.sortOnly "properties" "").
Proof.
  intros (_ & _ & H).
  assert (Hnin : ~ In "properties" Database.validSortFields).
  { unfold Database.validSortFields. simpl. intuition discriminate. }
  destruct (H Hnin) as [_ Hc]. vm_compute in Hc. discriminate.
Qed.

(** C1, amended: the sort column of the page query is always a member of
    the allow-list; an allow-listed [sort_by] is used as it is; any other
    value gives [created_at], and then the count query, the page query,
    the result of [GetFilteredLogs] and the answer of the endpoint are
    those of [sort_by=created_at], so the raw value is not put into the
    text and nothing is rejected on its account.  The column stands after
    [ORDER BY] in the text, and no page query contains a semicolon, so a
    value with a statement separator, such as the fragment of the
    specification, is never part of it. *)
Theorem sort_column_allow_listed (f : Database.LogFilter) :
  In (Database.sortByOf f) Database.validSortFields
  /\ (In (Database.SortBy f) Database.validSortFields ->
      Database.sortByOf f = Database.SortBy f)
  /\ (~ In (Database.SortBy f) Database.validSortFields ->
      Database.sortByOf f = "created_at"
      /\ Database.countQueryOf f
         = Database.countQueryOf (Spec.withSortBy f "created_at")
      /\ Database.pageQueryOf f
         = Database.pageQueryOf (Spec.withSortBy f "created_at")
      /\ (forall queryCount queryRows,
            Database.GetFilteredLogs queryCount queryRows f
            = Database.GetFilteredLogs queryCount queryRows
                (Spec.withSortBy f "created_at"))
      /\ (forall Atoi ParseRFC3339 queryCount queryRows params,
            Handlers.GetFilteredLogsHandler Atoi ParseRFC3339
              queryCount queryRows (<["sort_by" := Database.SortBy f]> params)
            = Handlers.GetFilteredLogsHandler Atoi ParseRFC3339
                queryCount queryRows (<["sort_by" := "created_at"]> params)))
  /\ Database.text (Database.pageQueryOf f)
     = Database.pageQueryText
         (Database.buildWhere
            (Database.conditions (Database.buildConditions f)))
         (let orderBy :=
            "ORDER BY " +:+ Database.sortByOf f +:+ " "
            +:+ Database.sortOrderOf f +:+ " LIMIT $"
            +:+ Strings.itoa (Database.argIndex (Database.buildConditions f))
          in
          if Database.hasOffset f
          then orderBy +:+ " OFFSET $"
               +:+ Strings.itoa
                     (Database.argIndex (Database.buildConditions f) + 1)
          else orderBy)
  /\ Strings.occurs Strings.semicolon (Database.text (Database.pageQueryOf f))
     = false
  /\ (forall s, Strings.occurs Strings.semicolon s = true ->
        Strings.Contains (Database.text (Database.pageQueryOf f)) s = false)
  /\ Strings.Contains (Database.text (Database.pageQueryOf f))
                      "robert'); drop table logs;--" = false.
Proof.
  assert (Hsub : forall s, Strings.occurs Strings.semicolon s = true ->
            Strings.Contains (Database.text (Database.pageQueryOf f)) s
            = false).
  { intros s Hs.
    destruct (Strings.Contains _ s) eqn:E; [|reflexivity].
    pose proof (Contains_occurs _ _ _ E Hs) as H.
    rewrite no_semicolon_pageQuery in H. discriminate. }
  split; [apply sortByOf_valid|].
  split; [apply sortByOf_accepts|].
  split.
  { intros Hnin. split; [now apply sortByOf_rejects|].
    destruct (queries_of_rejected f Hnin) as [Hc Hp].
    split; [exact Hc|]. split; [exact Hp|]. split.
    - intros qc qr. unfold Database.GetFilteredLogs. now rewrite Hc, Hp.
    - intros. now apply handler_of_rejected. }
  split.
  { reflexivity. }
  split; [apply no_semicolon_pageQuery|].
  split; [exact Hsub|].
  apply Hsub. reflexivity.
Qed.

Lemma sort_column_allow_listed_witness :
  let f := Spec.sortOnly "robert'); drop table logs;--" "" in
  Database.sortByOf f = "created_at"
  /\ Database.pageQueryOf f
     = Database.pageQueryOf (Spec.withSortBy f "created_at")
  /\ Strings.Contains (Database.text (Database.pageQueryOf f))
                      (Database.SortBy f) = false.
Proof.
  intros f.
  assert (Hnin : ~ In (Database.SortBy f) Database.validSortFields).
  { unfold Database.validSortFields. simpl. intuition discriminate. }
  destruct (sort_column_allow_listed f) as (_ & _ & Hrej & _ & _ & Hsub & _).
  destruct (Hrej Hnin) as (Hcol & _ & Hpage & _).
  split; [exact Hcol|]. split; [exact Hpage|].
  apply Hsub. reflexivity.
Defined.

(** C5 as worded fails: the comparison is not case-insensitive.
    [sort_order=Asc] equals [asc] when case is ignored, and the page query
    is ordered [DESC]. *)
Lemma sort_order_claim_counterexample :
  ~ Spec.sort_order_claim (Spec.sortOnly "" "Asc").
Proof.
  intros (H & _). specialize (H eq_refl). vm_compute in H. discriminate.
Qed.

(** C5, amended: the order of the page query is [ASC] exactly when
    [sort_order] is one of the two spellings [ASC] and [asc], and [DESC]
    for every other input; that covers every spelling of [desc], the
    empty string, and the mixed-case spellings of [asc]. *)
Theorem sort_order_two_spellings (f : Database.LogFilter) :
  (Database.sortOrderOf f = "ASC"
   <-> Database.SortOrder f = "ASC" \/ Database.SortOrder f = "asc")
  /\ (Database.sortOrderOf f = "DESC"
      <-> Database.SortOrder f <> "ASC" /\ Database.SortOrder f <> "asc")
  /\ (Strings.EqualFold (Database.SortOrder f) "desc" = true ->
      Database.sortOrderOf f = "DESC")
  /\ (Database.SortOrder f = "" -> Database.sortOrderOf f = "DESC").
Proof.
  unfold Database.sortOrderOf.
  destruct (String.eqb_spec (Database.SortOrder f) "ASC") as [E1|N1];
    destruct (String.eqb_spec (Database.SortOrder f) "asc") as [E2|N2];
    simpl; repeat split; intros; try tauto; try discriminate;
    try (rewrite E1 in *; discriminate);
    try (rewrite E2 in *; discriminate);
    try (exfalso; intuition congruence).
Qed.

Lemma sort_order_two_spellings_witness :
  Strings.EqualFold "DeSc" "desc" = true
  /\ Database.sortOrderOf (Spec.sortOnly "" "DeSc") = "DESC".
Proof.
  split; [reflexivity|].
  exact (proj1 (proj2 (proj2
           (sort_order_two_spellings (Spec.sortOnly "" "DeSc")))) eq_refl).
Defined.

(** ** Count query and page query *)

Section SamePredicates.
Import Strings Models Database Spec.

Lemma represents_empty : represents emptyBuilder [].
Proof. repeat split. Qed.

Lemma represents_add (column operator : string) (v : Arg)
                     (b : Builder) (ps : list Predicate) :
  represents b ps ->
  represents (addCondition (column +:+ " " +:+ operator +:+ " ") (Some v) b)
             (ps ++ [mkPredicate column operator v]).
Proof.
  intros (Hc & Ha & Hi). unfold represents; simpl.
  rewrite Hc, Ha, Hi, imap_app, map_app, length_app. simpl.
  repeat split.
  - f_equal. f_equal. unfold renderPredicate; simpl.
    rewrite Nat.add_0_r.
    rewrite !append_assoc. reflexivity.
  - lia.
Qed.

Lemma represents_equality (column value : string)
                          (b : Builder) (ps : list Predicate) :
  represents b ps ->
  represents (addCondition (column +:+ " = ") (nonEmpty value) b)
             (ps ++ equality column value).
Proof.
  intros H. unfold nonEmpty, equality.
  destruct (String.eqb value "").
  - rewrite app_nil_r. exact H.
  - apply (represents_add column "=" _ b ps H).
Qed.

Lemma represents_timeBound (operator : string) (t : option Time)
                           (b : Builder) (ps : list Predicate) :
  represents b ps ->
  represents (addCondition ("created_at " +:+ operator +:+ " ")
                           (ArgTime <$> t) b)
             (ps ++ timeBound operator t).
Proof.
  intros H. destruct t as [v|]; simpl.
  - apply (represents_add "created_at" operator _ b ps H).
  - rewrite app_nil_r. exact H.
Qed.

(** The conditions and bound values that [GetFilteredLogs] collects are
    the predicate set of the filter, in its order. *)
Lemma buildConditions_represents (f : LogFilter) :
  represents (buildConditions f) (predicatesOf f).
Proof.
  unfold buildConditions, predicatesOf.
  pose proof represents_empty as H0.
  apply (represents_equality "event_type" (FEventType f)) in H0.
  apply (represents_equality "event_name" (FEventName f)) in H0.
  apply (represents_equality "user_id" (FUserID f)) in H0.
  apply (represents_equality "session_id" (FSessionID f)) in H0.
  apply (represents_equality "app_version" (FAppVersion f)) in H0.
  apply (represents_equality "priority" (FPriority f)) in H0.
  apply (represents_equality "properties->'tags'->>'provider'"
                             (FProviderName f)) in H0.
  apply (represents_timeBound ">=" (FStartTime f)) in H0.
  apply (represents_timeBound "<=" (FEndTime f)) in H0.
  rewrite <- !app_assoc in H0. exact H0.
Qed.

Lemma pageArgs_pagingArgs (f : LogFilter) (whereArgs : list Arg) :
  pageArgs f whereArgs = whereArgs ++ pagingArgs f.
Proof.
  unfold pageArgs, pagingArgs. destruct (hasOffset f); [|reflexivity].
  now rewrite <- app_assoc.
Qed.
End SamePredicates.

(** C2: the count query and the page query of [GetFilteredLogs] are built
    from one predicate set.  Both texts carry the same [WHERE] clause, the
    predicates of the filter in their order, each with its placeholder;
    the count query binds the values of the predicates, the page query
    binds the same values at the same positions and after them only the
    limit and the offset; apart from the [WHERE] clause the texts consist
    of the projection and, for the page query, the [ORDER BY]/[LIMIT]
    clause.  These are the two statements that [GetFilteredLogs] runs, and
    the total it returns is the answer to the count query. *)
Theorem count_and_page_share_predicates (f : Database.LogFilter) :
  let ps := Spec.predicatesOf f in
  let whereClause := Database.buildWhere (imap Spec.renderPredicate ps) in
  Database.text (Database.countQueryOf f)
  = "SELECT COUNT(*) FROM analytics_logs " +:+ whereClause
  /\ Database.text (Database.pageQueryOf f)
     = Database.selectList +:+ whereClause +:+ " " +:+ Strings.LF
       +:+ Strings.TAB +:+ Strings.TAB
       +:+ Database.limitClauseOf f (Z.of_nat (length ps) + 1)
  /\ Database.bound (Database.countQueryOf f) = map Spec.p_value ps
  /\ Database.bound (Database.pageQueryOf f)
     = map Spec.p_value ps ++ Spec.pagingArgs f
  /\ take (length ps) (Database.bound (Database.pageQueryOf f))
     = Database.bound (Database.countQueryOf f)
  /\ (forall (i : nat) (p : Spec.Predicate),
        ps !! i = Some p ->
        Database.bound (Database.countQueryOf f) !! i = Some (Spec.p_value p)
        /\ Database.bound (Database.pageQueryOf f) !! i
           = Some (Spec.p_value p))
  /\ (forall queryCount queryRows logs totalCount,
        Database.GetFilteredLogs queryCount queryRows f
        = Database.Ok (logs, totalCount) ->
        queryCount (Database.countQueryOf f) = Database.Ok totalCount
        /\ exists rows,
             queryRows (Database.pageQueryOf f) = Database.Ok rows
             /\ Database.scanRows "failed to scan filtered log: " rows []
                = Database.Ok logs).
Proof.
  intros ps whereClause.
  destruct (buildConditions_represents f) as (Hc & Ha & Hi).
  fold ps in Hc, Ha, Hi.
  assert (Hcount : Database.bound (Database.countQueryOf f)
                   = map Spec.p_value ps) by exact Ha.
  assert (Hpage : Database.bound (Database.pageQueryOf f)
                  = map Spec.p_value ps ++ Spec.pagingArgs f).
  { unfold Database.pageQueryOf; simpl.
    now rewrite pageArgs_pagingArgs, Ha. }
  split.
  { unfold Database.countQueryOf, Database.countQueryText; simpl.
    now rewrite Hc. }
  split.
  { unfold Database.pageQueryOf, Database.pageQueryText; simpl.
    now rewrite Hc, Hi. }
  split; [exact Hcount|].
  split; [exact Hpage|].
  split.
  { rewrite Hpage, Hcount.
    rewrite take_app_length'; [reflexivity|]. now rewrite length_map. }
  split.
  { intros i p Hp. rewrite Hpage, Hcount.
    assert (Hm : map Spec.p_value ps !! i = Some (Spec.p_value p)).
    { rewrite list_lookup_fmap, Hp. reflexivity. }
    split; [exact Hm|].
    rewrite lookup_app_l; [exact Hm|].
    rewrite length_map. eapply lookup_lt_Some. exact Hp. }
  intros qc qr logs total H. unfold Database.GetFilteredLogs in H.
  destruct (qc (Database.countQueryOf f)) as [n|e]; [|discriminate].
  destruct (qr (Database.pageQueryOf f)) as [rows|e]; [|discriminate].
  destruct (Database.scanRows _ rows []) as [ls|e] eqn:Es; [|discriminate].
  injection H as -> ->. split; [reflexivity|].
  exists rows. split; [reflexivity|exact Es].
Qed.

Lemma count_and_page_share_predicates_witness :
  let f := Database.mkLogFilter "error" "" "u1" "" "" "" "" None (Some 1700)
                                20 40 "timestamp" "asc" in
  Database.bound (Database.countQueryOf f) !! 1%nat
  = Some (Database.ArgString "u1")
  /\ Database.bound (Database.pageQueryOf f) !! 1%nat
     = Some (Database.ArgString "u1").
Proof.
  intros f.
  destruct (count_and_page_share_predicates f) as (_ & _ & _ & _ & _ & H & _).
  exact (H 1%nat (Spec.mkPredicate "user_id" "=" (Database.ArgString "u1"))
           eq_refl).
Defined.

(** ** Credential extraction *)

Section Credentials.
Import Strings Models Database Auth.

Lemma HasPrefix_split (p s : string) :
  HasPrefix s p = true -> p +:+ TrimPrefix s p = s.
Proof.
  intros H.
  assert (Hex : exists rest, s = p +:+ rest).
  { revert s H. induction p as [|c p IH]; intros s H.
    - exists s. reflexivity.
    - destruct s as [|d s]; simpl in H; [discriminate|].
      destruct (Ascii.eqb_spec c d) as [->|]; [|discriminate].
      destruct (IH s H) as [rest ->]. exists rest. reflexivity. }
  destruct Hex as [rest ->]. now rewrite TrimPrefix_app.
Qed.

Lemma HeaderGet_insert_ne (r : Header) (k k' : string) (vs : list string) :
  k <> k' -> HeaderGet (<[k := vs]> r) k' = HeaderGet r k'.
Proof. intros H. unfold HeaderGet. now rewrite lookup_insert_ne. Qed.

Lemma HeaderGet_delete_ne (r : Header) (k k' : string) :
  k <> k' -> HeaderGet (delete k r) k' = HeaderGet r k'.
Proof. intros H. unfold HeaderGet. now rewrite lookup_delete_ne. Qed.

Lemma extractAPIKey_authorization (r : Header) :
  HeaderGet r "Authorization" <> "" ->
  extractAPIKey r
  = if HasPrefix (HeaderGet r "Authorization") "Bearer "
    then TrimPrefix (HeaderGet r "Authorization") "Bearer "
    else HeaderGet r "Authorization".
Proof.
  intros H. unfold extractAPIKey.
  destruct (String.eqb_spec (HeaderGet r "Authorization") ""); [contradiction|].
  reflexivity.
Qed.
End Credentials.

(** C10: the [Authorization] header has absolute precedence.  When it is
    not empty, the key is the rest of its value after [Bearer ] if the
    value starts so, and the whole value otherwise, and the [X-API-Key]
    header has no influence at all: setting it to anything or removing it
    leaves the extracted key as it is.  [X-API-Key] is what is returned
    when [Authorization] is empty. *)
Theorem authorization_takes_precedence (r : Auth.Header) :
  (Auth.HeaderGet r "Authorization" <> "" ->
   (Strings.HasPrefix (Auth.HeaderGet r "Authorization") "Bearer " = true ->
    "Bearer " +:+ Auth.extractAPIKey r = Auth.HeaderGet r "Authorization")
   /\ (Strings.HasPrefix (Auth.HeaderGet r "Authorization") "Bearer " = false ->
       Auth.extractAPIKey r = Auth.HeaderGet r "Authorization")
   /\ (forall vs : list string,
         Auth.extractAPIKey (<["X-Api-Key" := vs]> r) = Auth.extractAPIKey r)
   /\ Auth.extractAPIKey (delete "X-Api-Key" r) = Auth.extractAPIKey r)
  /\ (Auth.HeaderGet r "Authorization" = "" ->
      Auth.extractAPIKey r = Auth.HeaderGet r "X-Api-Key").
Proof.
  split.
  - intros Hne. rewrite (extractAPIKey_authorization r Hne).
    repeat split.
    + intros Hp. rewrite Hp. now apply HasPrefix_split.
    + intros Hp. now rewrite Hp.
    + intros vs.
      assert (Hget : Auth.HeaderGet (<["X-Api-Key" := vs]> r) "Authorization"
                     = Auth.HeaderGet r "Authorization")
        by now apply HeaderGet_insert_ne.
      rewrite extractAPIKey_authorization; rewrite Hget; [reflexivity|exact Hne].
    + assert (Hget : Auth.HeaderGet (delete "X-Api-Key" r) "Authorization"
                     = Auth.HeaderGet r "Authorization")
        by now apply HeaderGet_delete_ne.
      rewrite extractAPIKey_authorization; rewrite Hget; [reflexivity|exact Hne].
  - intros He. unfold Auth.extractAPIKey. now rewrite He.
Qed.

Lemma authorization_takes_precedence_witness :
  let r : Auth.Header :=
    {[ "Authorization" := ["Bearer s3cret"]; "X-Api-Key" := ["other"] ]} in
  Auth.extractAPIKey r = "s3cret"
  /\ Auth.extractAPIKey (delete "X-Api-Key" r) = "s3cret".
Proof.
  intros r.
  assert (Hne : Auth.HeaderGet r "Authorization" <> "") by (vm_compute; discriminate).
  destruct (authorization_takes_precedence r) as [H _].
  destruct (H Hne) as (Hb & _ & _ & Hd).
  assert (Hk : Auth.extractAPIKey r = "s3cret").
  { specialize (Hb eq_refl).
    apply (String.app_inj "Bearer "). rewrite Hb. reflexivity. }
  split; [exact Hk|]. now rewrite Hd.
Defined.

(** ** The key lookup of the store *)

Section KeyLookup.
Import Strings Models Database Auth.

Lemma find_skips_inactive (keyHash : string) (before after : list APIKey)
                          (k : APIKey) :
  IsActive k = false ->
  List.find (fun x => String.eqb (KeyHash x) keyHash && IsActive x)
            (before ++ k :: after)
  = List.find (fun x => String.eqb (KeyHash x) keyHash && IsActive x)
              (before ++ after).
Proof.
  intros Hk. induction before as [|x before IH]; simpl.
  - now rewrite Hk, andb_false_r.
  - destruct (_ && _); [reflexivity|exact IH].
Qed.

Lemma GetAPIKey_skips_inactive (db : Store) (keyHash : string)
                               (before after : list APIKey) (k : APIKey) :
  api_keys db = before ++ k :: after ->
  IsActive k = false ->
  GetAPIKey db keyHash
  = GetAPIKey (withKeys db (before ++ after) (api_keys_id_seq db)) keyHash.
Proof.
  intros Hdb Hk. unfold GetAPIKey. simpl. rewrite Hdb.
  now rewrite (find_skips_inactive keyHash before after k Hk).
Qed.

Lemma GetAPIKey_found (db : Store) (keyHash : string) (k : APIKey) :
  GetAPIKey db keyHash = Ok (Some k) ->
  In k (api_keys db) /\ KeyHash k = keyHash /\ IsActive k = true.
Proof.
  unfold GetAPIKey. destruct (negb (conn_ok db)); [discriminate|].
  intros [= H]. apply find_some in H as [Hin Hp].
  apply andb_true_iff in Hp as [Hh Ha]. apply String.eqb_eq in Hh.
  auto.
Qed.

Lemma GetAPIKey_all_inactive (db : Store) (keyHash : string) :
  conn_ok db = true ->
  (forall k, In k (api_keys db) -> KeyHash k = keyHash -> IsActive k = false) ->
  GetAPIKey db keyHash = Ok None.
Proof.
  intros Hc Hall. unfold GetAPIKey. rewrite Hc. simpl. f_equal.
  destruct (List.find _ _) as [k|] eqn:E; [|reflexivity].
  apply find_some in E as [Hin Hp].
  apply andb_true_iff in Hp as [Hh Ha]. apply String.eqb_eq in Hh.
  rewrite (Hall k Hin Hh) in Ha. discriminate.
Qed.

(** The middleware reads the store through [GetAPIKey] only. *)
Lemma AuthMiddleware_store (hashAPIKey : string -> string) (now : Time)
                           (svc : AuthService) (db db' : Store) (r : Header) :
  (forall keyHash, GetAPIKey db keyHash = GetAPIKey db' keyHash) ->
  AuthMiddleware hashAPIKey now svc db r
  = AuthMiddleware hashAPIKey now svc db' r.
Proof.
  intros H. unfold AuthMiddleware.
  destruct (String.eqb _ ""); [reflexivity|].
  destruct (isValidCachedKey _ _ _) as [svc1 hit].
  destruct hit; [reflexivity|]. now rewrite H.
Qed.
End KeyLookup.

(** C9: [GetAPIKey] never returns an inactive record.  A record it
    returns is active and has the hash that was asked for; a record that
    is inactive can be taken out of the table without changing the answer
    for any hash, nor what the middleware does for any request; when all
    the records with a hash are inactive the answer is that of a missing
    record, no record and no error.  So in the middleware the test
    [dbKey == nil || !dbKey.IsActive] decides as [dbKey == nil] alone. *)
Theorem lookup_hides_inactive (db : Database.Store) (keyHash : string) :
  (forall k, Database.GetAPIKey db keyHash = Database.Ok (Some k) ->
             Models.IsActive k = true /\ Models.KeyHash k = keyHash)
  /\ (forall before k after,
        Database.api_keys db = before ++ k :: after ->
        Models.IsActive k = false ->
        let db' := Database.withKeys db (before ++ after)
                                     (Database.api_keys_id_seq db) in
        Database.GetAPIKey db keyHash = Database.GetAPIKey db' keyHash
        /\ forall hashAPIKey now svc r,
             Auth.AuthMiddleware hashAPIKey now svc db r
             = Auth.AuthMiddleware hashAPIKey now svc db' r)
  /\ (Database.conn_ok db = true ->
      (forall k, In k (Database.api_keys db) ->
                 Models.KeyHash k = keyHash -> Models.IsActive k = false) ->
      Database.GetAPIKey db keyHash = Database.Ok None)
  /\ (forall dbKey, Database.GetAPIKey db keyHash = Database.Ok dbKey ->
        match dbKey with
        | None => true
        | Some k => negb (Models.IsActive k)
        end
        = match dbKey with None => true | Some _ => false end).
Proof.
  split.
  { intros k H. apply GetAPIKey_found in H. tauto. }
  split.
  { intros before k after Hdb Hk db'. split.
    - now apply (GetAPIKey_skips_inactive db keyHash before after k).
    - intros. apply AuthMiddleware_store. intros h.
      now apply (GetAPIKey_skips_inactive db h before after k). }
  split; [apply GetAPIKey_all_inactive|].
  intros [k|] H; [|reflexivity].
  apply GetAPIKey_found in H as (_ & _ & ->). reflexivity.
Qed.

Lemma lookup_hides_inactive_witness :
  let revoked :=
    Models.mkAPIKey 1 "5e884898" "mobile" false 10 None None 0 in
  let db := Database.mkStore true true [] [revoked] 0 1 in
  Database.GetAPIKey db "5e884898" = Database.Ok None
  /\ Database.GetAPIKey db "5e884898"
     = Database.GetAPIKey (Database.mkStore true true [] [] 0 1) "5e884898".
Proof.
  intros revoked db.
  destruct (lookup_hides_inactive db "5e884898") as (_ & Hdrop & Hnone & _).
  split.
  - apply Hnone; [reflexivity|].
    intros k [<-|[]] _. reflexivity.
  - exact (proj1 (Hdrop [] revoked [] eq_refl eq_refl)).
Defined.

(** ** Batch ingestion *)

Section Batch.
Import Strings Models Database Handlers Spec.

Lemma oneof_In (allowed : list string) (v : string) :
  oneof allowed v = true <-> In v allowed.
Proof.
  unfold oneof. rewrite existsb_exists. split.
  - intros (x & Hin & Heq). apply String.eqb_eq in Heq. now subst.
  - intros Hin. exists v. split; [assumption|apply String.eqb_refl].
Qed.

Lemma oneof_not_In (allowed : list string) (v : string) :
  oneof allowed v = false <-> ~ In v allowed.
Proof.
  rewrite <- oneof_In. destruct (oneof allowed v); split; intros H;
    congruence.
Qed.

Lemma In_checkRequired (fe : FieldError) (field : string) (isZero : bool) :
  In fe (checkRequired field isZero)
  <-> isZero = true /\ fe = mkFieldError field "required" "".
Proof.
  unfold checkRequired. destruct isZero; simpl; intuition congruence.
Qed.

Lemma eventTypes_not_empty : ~ In "" eventTypes.
Proof. unfold eventTypes. simpl. intuition discriminate. Qed.

(** The validator reports a field exactly when it offends. *)
Lemma validateStruct_offending (log : AnalyticsLog) (field : string) :
  offending log field
  <-> exists fe, In fe (validateStruct log) /\ fe_field fe = field.
Proof.
  unfold offending, validateStruct, IsZero. split.
  - intros [[-> H]|[[-> H]|[[-> H]|[[-> H]|[-> H]]]]].
    + exists (mkFieldError "EventID" "required" ""). split; [|reflexivity].
      rewrite !in_app_iff, In_checkRequired. left. split; [|reflexivity].
      now apply String.eqb_eq.
    + exists (mkFieldError "Timestamp" "required" ""). split; [|reflexivity].
      rewrite !in_app_iff, !In_checkRequired. right. left.
      split; [|reflexivity]. now apply Z.eqb_eq.
    + apply oneof_not_In in H. rewrite H.
      destruct (String.eqb (EventType log) "").
      * exists (mkFieldError "EventType" "required" "").
        split; [|reflexivity].
        rewrite !in_app_iff. right. right. left. left. reflexivity.
      * exists (mkFieldError "EventType" "oneof" eventTypesParam).
        split; [|reflexivity].
        rewrite !in_app_iff. right. right. left. left. reflexivity.
    + exists (mkFieldError "EventName" "required" ""). split; [|reflexivity].
      rewrite !in_app_iff, !In_checkRequired. right. right. right. left.
      split; [|reflexivity]. now apply String.eqb_eq.
    + apply oneof_not_In in H. rewrite H.
      exists (mkFieldError "Priority" "oneof" "normal high").
      split; [|reflexivity].
      rewrite !in_app_iff. right. right. right. right. left. reflexivity.
  - intros (fe & Hin & <-).
    rewrite !in_app_iff, !In_checkRequired in Hin.
    destruct Hin as [[H ->]|[[H ->]|[H|[[H ->]|H]]]]; simpl.
    + left. split; [reflexivity|]. now apply String.eqb_eq.
    + right. left. split; [reflexivity|]. now apply Z.eqb_eq.
    + right. right. left.
      destruct (String.eqb_spec (EventType log) "") as [E|E].
      * destruct H as [<-|[]]. split; [reflexivity|].
        rewrite E. exact eventTypes_not_empty.
      * destruct (oneof eventTypes (EventType log)) eqn:Eo; [contradiction|].
        destruct H as [<-|[]]. split; [reflexivity|].
        exact (proj1 (oneof_not_In eventTypes _) Eo).
    + right. right. right. left. split; [reflexivity|].
      now apply String.eqb_eq.
    + right. right. right. right.
      destruct (oneof priorities (Priority log)) eqn:Eo; [contradiction|].
      destruct H as [<-|[]]. split; [reflexivity|].
      exact (proj1 (oneof_not_In priorities _) Eo).
Qed.

Lemma isValid_no_offence (log : AnalyticsLog) :
  isValid log = true <-> forall field, ~ offending log field.
Proof.
  unfold isValid. split.
  - intros H field Hoff. apply validateStruct_offending in Hoff.
    destruct Hoff as (fe & Hin & _).
    destruct (validateStruct log); [contradiction|discriminate].
  - intros H. destruct (validateStruct log) as [|fe l] eqn:E; [reflexivity|].
    exfalso. apply (H (fe_field fe)). apply validateStruct_offending.
    exists fe. rewrite E. split; [now left|reflexivity].
Qed.

Lemma errorsOf_valid (now : Time) (i : Z) (log : AnalyticsLog) :
  isValid (setDefaultValues now log) = true -> errorsOf now i log = [].
Proof.
  unfold isValid, errorsOf.
  destruct (validateStruct _); [reflexivity|discriminate].
Qed.

Lemma errorsOf_invalid (now : Time) (i : Z) (log : AnalyticsLog) :
  isValid (setDefaultValues now log) = false -> errorsOf now i log <> [].
Proof.
  unfold isValid, errorsOf.
  destruct (validateStruct _); [discriminate|]. simpl. discriminate.
Qed.

(** What the validation loop leaves in its two accumulators. *)
Lemma validateBatch_result (now : Time) (logs : list AnalyticsLog) :
  forall (i : Z) (validationErrors : list ValidationError)
         (validLogs : list AnalyticsLog),
    validateBatch now i logs validationErrors validLogs
    = (validationErrors
       ++ concat (imap (fun j log => errorsOf now (i + Z.of_nat j) log) logs),
       validLogs
       ++ List.filter isValid (map (setDefaultValues now) logs)).
Proof.
  induction logs as [|log logs IH]; intros i ve vl.
  - simpl. now rewrite !app_nil_r.
  - cbn [validateBatch map List.filter imap concat].
    assert (Hshift :
      imap ((fun j l => errorsOf now (i + Z.of_nat j) l) ∘ S) logs
      = imap (fun j l => errorsOf now (i + 1 + Z.of_nat j) l) logs).
    { apply imap_ext. intros j l _. simpl. f_equal. lia. }
    rewrite Hshift, Z.add_0_r.
    unfold isValid at 1, errorsOf at 1.
    destruct (validateStruct (setDefaultValues now log)) as [|fe errs].
    + rewrite IH. simpl. now rewrite <- app_assoc.
    + rewrite IH. now rewrite <- app_assoc.
Qed.

Lemma errors_nil (now : Time) (logs : list AnalyticsLog) :
  forall idx : nat -> Z,
    concat (imap (fun j log => errorsOf now (idx j) log) logs) = []
    <-> Forall (fun log => isValid (setDefaultValues now log) = true) logs.
Proof.
  induction logs as [|log logs IH]; intros idx.
  - split; [constructor|reflexivity].
  - cbn [imap concat]. split.
    + intros H. apply app_eq_nil in H as [H1 H2]. constructor.
      * destruct (isValid (setDefaultValues now log)) eqn:E; [reflexivity|].
        exfalso. apply (errorsOf_invalid now (idx 0%nat) log E). exact H1.
      * apply (IH (idx ∘ S)). exact H2.
    + intros H. inversion H as [|? ? Hv Hrest]; subst.
      rewrite (errorsOf_valid now _ log Hv). simpl.
      apply (IH (idx ∘ S)). exact Hrest.
Qed.

Lemma batchErrors_nil (now : Time) (logs : list AnalyticsLog) :
  batchErrors now logs = []
  <-> Forall (fun log => isValid (setDefaultValues now log) = true) logs.
Proof. apply (errors_nil now logs Z.of_nat). Qed.

Lemma filter_all_valid (now : Time) (logs : list AnalyticsLog) :
  Forall (fun log => isValid (setDefaultValues now log) = true) logs ->
  List.filter isValid (map (setDefaultValues now) logs)
  = map (setDefaultValues now) logs.
Proof.
  induction 1 as [|log logs Hv _ IH]; [reflexivity|].
  simpl. now rewrite Hv, IH.
Qed.

(** Every offending field of every log has its entry, under its index. *)
Lemma batchErrors_complete (now : Time) (logs : list AnalyticsLog)
                           (i : nat) (log : AnalyticsLog) (field : string) :
  logs !! i = Some log ->
  offending (setDefaultValues now log) field ->
  exists message,
    In (mkValidationError ("logs[" +:+ itoa (Z.of_nat i) +:+ "]." +:+ field)
                          message)
       (batchErrors now logs).
Proof.
  intros Hi Hoff. apply validateStruct_offending in Hoff.
  destruct Hoff as (fe & Hin & <-).
  exists (getValidationMessage fe).
  unfold batchErrors. apply in_concat.
  exists (errorsOf now (Z.of_nat i) log). split.
  - apply list_elem_of_In, list_elem_of_lookup. exists i.
    rewrite list_lookup_imap, Hi. reflexivity.
  - unfold errorsOf, formatValidationErrors. rewrite map_map.
    apply in_map_iff. exists fe. split; [reflexivity|exact Hin].
Qed.
End Batch.

(** ** The batch transaction *)

Section Transaction.
Import Strings Models Database Handlers Spec.

Lemma hasEventID_app (rows rows' : list AnalyticsLog) (eventID : string) :
  hasEventID (rows ++ rows') eventID
  = hasEventID rows eventID || hasEventID rows' eventID.
Proof. unfold hasEventID. apply existsb_app. Qed.

Lemma txExec_ok (now : Time) (tx tx' : Tx) (log : AnalyticsLog) (u : unit) :
  txExec now tx log = (tx', Ok u) ->
  hasEventID (tx_rows tx) (EventID log) = false
  /\ tx_rows tx' = tx_rows tx ++ [insertedRow (tx_seq tx + 1) now log]
  /\ tx_seq tx' = tx_seq tx + 1.
Proof.
  unfold txExec, checkLogRow.
  destruct (negb _); [discriminate|].
  destruct (hasEventID (tx_rows tx) (EventID log)); [discriminate|].
  intros [= <- _]. auto.
Qed.

Lemma txExec_err (now : Time) (tx tx' : Tx) (log : AnalyticsLog) (e : string) :
  txExec now tx log = (tx', Err e) -> tx_rows tx' = tx_rows tx.
Proof.
  unfold txExec. destruct (checkLogRow _ _); intros [= <- _]; reflexivity.
Qed.

(** A batch that went through had pairwise distinct event ids, none of
    them in the table before, and all its rows are in the transaction. *)
Lemma execAll_ok (now : Time) (logs : list AnalyticsLog) :
  forall (tx tx' : Tx) (u : unit),
    execAll now tx logs = (tx', Ok u) ->
    (forall log, In log logs ->
                 hasEventID (tx_rows tx) (EventID log) = false)
    /\ NoDup (map EventID logs)
    /\ tx_rows tx'
       = tx_rows tx
         ++ imap (fun j log => insertedRow (tx_seq tx + 1 + Z.of_nat j) now log)
                 logs.
Proof.
  induction logs as [|log logs IH]; intros tx tx' u H; simpl in H.
  - injection H as <-. split; [intros ? []|]. split; [constructor|].
    simpl. now rewrite app_nil_r.
  - destruct (txExec now tx log) as [tx1 [u1|e]] eqn:E; [|discriminate].
    apply txExec_ok in E as (Hnew & Hrows & Hseq).
    apply IH in H as (Hfresh & Hnodup & Hrows').
    assert (Hrest : forall l, In l logs ->
              hasEventID (tx_rows tx) (EventID l) = false
              /\ EventID log <> EventID l).
    { intros l Hl. specialize (Hfresh l Hl).
      rewrite Hrows, hasEventID_app in Hfresh.
      apply orb_false_iff in Hfresh as [H1 H2]. split; [exact H1|].
      simpl in H2. rewrite orb_false_r in H2.
      now apply String.eqb_neq in H2. }
    split.
    { intros l [<-|Hl]; [exact Hnew|]. now apply Hrest. }
    split.
    { simpl. constructor; [|exact Hnodup].
      intros Hin. apply list_elem_of_fmap in Hin as (l & Heq & Hl).
      apply list_elem_of_In in Hl.
      destruct (Hrest l Hl) as [_ Hne]. congruence. }
    rewrite Hrows', Hrows, Hseq. cbn [imap]. rewrite <- app_assoc. simpl.
    f_equal. rewrite Z.add_0_r. f_equal.
    apply imap_ext. intros j l _. simpl. f_equal. lia.
Qed.

Lemma execAll_err (now : Time) (logs : list AnalyticsLog) :
  forall (tx tx' : Tx) (e : string),
    execAll now tx logs = (tx', Err e) ->
    exists done, tx_rows tx' = tx_rows tx ++ done.
Proof.
  induction logs as [|log logs IH]; intros tx tx' e H; simpl in H.
  - discriminate.
  - destruct (txExec now tx log) as [tx1 [u1|e1]] eqn:E.
    + apply txExec_ok in E as (_ & Hrows & _).
      apply IH in H as [done Hd]. exists ([insertedRow (tx_seq tx + 1) now log] ++ done).
      now rewrite Hd, Hrows, <- app_assoc.
    + injection H as <- _. apply txExec_err in E. exists [].
      now rewrite app_nil_r.
Qed.

(** The rollback: a failed batch leaves both tables as they were. *)
Lemma InsertLogsBatch_err (now : Time) (db db' : Store)
                          (logs : list AnalyticsLog) (e : string) :
  InsertLogsBatch now db logs = (db', Err e) ->
  analytics_logs db' = analytics_logs db /\ api_keys db' = api_keys db.
Proof.
  unfold InsertLogsBatch. destruct logs as [|log logs]; [discriminate|].
  destruct (negb (conn_ok db)); [intros [= <- _]; auto|].
  destruct (execAll _ _ _) as [tx' [u|e']].
  - destruct (commit_ok db); [discriminate|]. intros [= <- _]. auto.
  - intros [= <- _]. auto.
Qed.

(** The commit: a batch that succeeded is in the table as a whole. *)
Lemma InsertLogsBatch_ok (now : Time) (db db' : Store)
                         (logs : list AnalyticsLog) (u : unit) :
  InsertLogsBatch now db logs = (db', Ok u) ->
  analytics_logs db'
  = analytics_logs db
    ++ imap (fun j log =>
               insertedRow (analytics_logs_id_seq db + 1 + Z.of_nat j) now log)
            logs.
Proof.
  unfold InsertLogsBatch. destruct logs as [|log logs].
  { intros [= <- _]. simpl. now rewrite app_nil_r. }
  destruct (negb (conn_ok db)); [discriminate|].
  destruct (execAll _ _ _) as [tx' [u'|e']] eqn:E; [|discriminate].
  destruct (commit_ok db); [|discriminate]. intros [= <- _].
  apply execAll_ok in E as (_ & _ & Hrows). exact Hrows.
Qed.

Lemma duplicateInside_not_NoDup (logs : list AnalyticsLog) :
  duplicateInside logs -> ~ NoDup (map EventID logs).
Proof.
  intros (i & j & a & b & Hlt & Hi & Hj & Heq) Hnd.
  assert (i = j); [|lia].
  apply (NoDup_lookup (map EventID logs) i j (EventID a) Hnd).
  - now rewrite list_lookup_fmap, Hi.
  - rewrite list_lookup_fmap, Hj. simpl. now rewrite Heq.
Qed.

(** Two rows with one [event_id] in a batch make the insertion fail. *)
Lemma InsertLogsBatch_duplicate (now : Time) (db : Store)
                                (logs : list AnalyticsLog) :
  duplicateInside logs ->
  exists db' e, InsertLogsBatch now db logs = (db', Err e).
Proof.
  intros Hdup.
  destruct (InsertLogsBatch now db logs) as [db' [u|e]] eqn:E;
    [|now exists db', e].
  exfalso. apply (duplicateInside_not_NoDup logs Hdup).
  unfold InsertLogsBatch in E. destruct logs as [|log logs]; [constructor|].
  destruct (negb (conn_ok db)); [discriminate|].
  destruct (execAll _ _ _) as [tx' [u'|e']] eqn:Ex; [|discriminate].
  apply execAll_ok in Ex. tauto.
Qed.

Lemma duplicateInside_defaults (now : Time) (logs : list AnalyticsLog) :
  duplicateInside logs ->
  duplicateInside (map (setDefaultValues now) logs).
Proof.
  intros (i & j & a & b & Hlt & Hi & Hj & Heq).
  exists i, j, (setDefaultValues now a), (setDefaultValues now b).
  rewrite !list_lookup_fmap, Hi, Hj. auto.
Qed.

(** The handler, once the size of the batch has been accepted. *)
Lemma IngestBatch_sized (now : Time) (db : Store) (req : BatchRequest) :
  (0 < length (Logs req) <= 1000)%nat ->
  IngestBatch now db (Some req)
  = match batchErrors now (Logs req) with
    | [] =>
        let validLogs := map (setDefaultValues now) (Logs req) in
        match InsertLogsBatch now db validLogs with
        | (db', Err _) =>
            (db', ErrorJSON StatusInternalServerError
                    (mkErrorResponse "database_error"
                                     "Failed to store logs" []))
        | (db', Ok _) =>
            (db', SuccessJSON StatusCreated
                    ("Batch of " +:+ itoa (len validLogs)
                     +:+ " logs ingested successfully")
                    (BatchData (len validLogs) (len (Logs req))))
        end
    | errs =>
        (db, ErrorJSON StatusBadRequest
               (mkErrorResponse "validation_error"
                  ("Validation failed for " +:+ itoa (len errs) +:+ " logs")
                  errs))
    end.
Proof.
  intros Hsize. unfold IngestBatch, len, maxBatchSize.
  destruct (Z.eqb_spec (Z.of_nat (length (Logs req))) 0) as [E|_]; [lia|].
  destruct (Z.ltb_spec 1000 (Z.of_nat (length (Logs req)))) as [E|_]; [lia|].
  rewrite validateBatch_result. simpl app.
  assert (Hidx : imap (fun j log => errorsOf now (0 + Z.of_nat j) log)
                      (Logs req)
                 = imap (fun j log => errorsOf now (Z.of_nat j) log)
                        (Logs req)).
  { apply imap_ext. intros. reflexivity. }
  rewrite Hidx. fold (batchErrors now (Logs req)).
  destruct (batchErrors now (Logs req)) as [|ve errs] eqn:Eb.
  - apply batchErrors_nil in Eb. rewrite (filter_all_valid now _ Eb).
    reflexivity.
  - destruct (Z.ltb_spec 0 (Z.of_nat (length (ve :: errs)))) as [_|E];
      [reflexivity|simpl in E; lia].
Qed.

(** Whatever the request, an error answer leaves the table of logs as it
    was, and a success answer comes with one new row for each log of the
    batch. *)
Lemma IngestBatch_whole_or_none (now : Time) (db db' : Store)
                                (body : option BatchRequest)
                                (resp : Response) :
  IngestBatch now db body = (db', resp) ->
  match resp with
  | ErrorJSON _ _ => analytics_logs db' = analytics_logs db
  | SuccessJSON _ _ _ =>
      exists req,
        body = Some req
        /\ analytics_logs db'
           = analytics_logs db
             ++ imap (fun j log =>
                        insertedRow (analytics_logs_id_seq db + 1 + Z.of_nat j)
                                    now log)
                     (map (setDefaultValues now) (Logs req))
  end.
Proof.
  intros H. destruct body as [req|]; [|injection H as <- <-; reflexivity].
  destruct (Nat.eq_dec (length (Logs req)) 0%nat) as [E0|E0].
  { unfold IngestBatch, len in H. rewrite E0 in H. simpl in H.
    injection H as <- <-. reflexivity. }
  destruct (le_lt_dec (length (Logs req)) 1000%nat) as [Ele|Egt].
  - rewrite IngestBatch_sized in H by lia.
    destruct (batchErrors now (Logs req)).
    + cbv zeta in H.
      destruct (InsertLogsBatch now db _) as [db1 [u|e]] eqn:Ei;
        injection H as <- <-.
      * exists req. split; [reflexivity|]. now apply InsertLogsBatch_ok in Ei.
      * now apply InsertLogsBatch_err in Ei.
    + injection H as <- <-. reflexivity.
  - unfold IngestBatch, len, maxBatchSize in H.
    destruct (Z.eqb_spec (Z.of_nat (length (Logs req))) 0) as [E|_]; [lia|].
    destruct (Z.ltb_spec 1000 (Z.of_nat (length (Logs req)))) as [_|E];
      [|lia].
    injection H as <- <-. reflexivity.
Qed.
End Transaction.

(** C6: an empty batch is answered with [empty_batch] and a batch of more
    than 1000 logs with [batch_too_large]; both answers are given with the
    store exactly as it was, sequences included, so no insert was
    attempted and no row of the request is persisted. *)
Theorem batch_size_gate (now : Models.Time) (db : Database.Store)
                        (req : Models.BatchRequest) :
  (Models.Logs req = [] ->
   Handlers.IngestBatch now db (Some req)
   = (db, Handlers.ErrorJSON 400
            (Models.mkErrorResponse "empty_batch" "Batch cannot be empty" [])))
  /\ ((1000 < length (Models.Logs req))%nat ->
      Handlers.IngestBatch now db (Some req)
      = (db, Handlers.ErrorJSON 400
               (Models.mkErrorResponse "batch_too_large"
                  "Batch size cannot exceed 1000 logs" []))).
Proof.
  split.
  - intros H. unfold Handlers.IngestBatch. rewrite H. reflexivity.
  - intros H. unfold Handlers.IngestBatch, Handlers.len, Handlers.maxBatchSize.
    destruct (Z.eqb_spec (Z.of_nat (length (Models.Logs req))) 0) as [E|_];
      [lia|].
    destruct (Z.ltb_spec 1000 (Z.of_nat (length (Models.Logs req))))
      as [_|E]; [reflexivity|lia].
Qed.

Lemma batch_size_gate_witness :
  let log :=
    Models.mkAnalyticsLog 0 "e1" 1700 "behavioral" "tap" None None None None
                          None None "" 0 None in
  let db := Database.mkStore true true [] [] 0 0 in
  Handlers.IngestBatch 1800 db (Some (Models.mkBatchRequest []))
  = (db, Handlers.ErrorJSON 400
           (Models.mkErrorResponse "empty_batch" "Batch cannot be empty" []))
  /\ Handlers.IngestBatch 1800 db
       (Some (Models.mkBatchRequest (repeat log 1001)))
     = (db, Handlers.ErrorJSON 400
              (Models.mkErrorResponse "batch_too_large"
                 "Batch size cannot exceed 1000 logs" [])).
Proof.
  intros log db. split.
  - apply (batch_size_gate 1800 db (Models.mkBatchRequest [])). reflexivity.
  - apply (batch_size_gate 1800 db (Models.mkBatchRequest (repeat log 1001))).
    apply Nat.ltb_lt. vm_compute. reflexivity.
Defined.

(** C7: batch ingestion is all-or-nothing.  Whatever the request, an
    error answer leaves the table of logs as it was and a success answer
    comes with one new row for each log of the batch.  For a batch that
    reaches validation (1 to 1000 logs): when a log fails validation the
    store is left exactly as it was and the answer is [validation_error]
    with the entries of all the logs, where every offending field of every
    log has an entry named [logs[i].Field]; when all the logs pass, the
    valid logs are handed to [InsertLogsBatch], and if that fails, which
    it does whenever two logs of the batch carry the same [event_id], the
    answer is [database_error] and the table of logs is what it was
    before. *)
Theorem batch_all_or_nothing (now : Models.Time) (db : Database.Store)
                             (req : Models.BatchRequest) :
  let logs := Models.Logs req in
  let valid log := Spec.isValid (Handlers.setDefaultValues now log) in
  (forall body db' resp,
     Handlers.IngestBatch now db body = (db', resp) ->
     match resp with
     | Handlers.ErrorJSON _ _ =>
         Database.analytics_logs db' = Database.analytics_logs db
     | Handlers.SuccessJSON _ _ _ =>
         exists req',
           body = Some req'
           /\ Database.analytics_logs db'
              = Database.analytics_logs db
                ++ imap (fun j log =>
                           Database.insertedRow
                             (Database.analytics_logs_id_seq db + 1
                              + Z.of_nat j) now log)
                        (map (Handlers.setDefaultValues now)
                             (Models.Logs req'))
     end)
  /\ ((0 < length logs <= 1000)%nat ->
  ((exists log, In log logs /\ valid log = false) ->
   Handlers.IngestBatch now db (Some req)
   = (db, Handlers.ErrorJSON 400
            (Models.mkErrorResponse "validation_error"
               ("Validation failed for "
                +:+ Strings.itoa (Handlers.len (Spec.batchErrors now logs))
                +:+ " logs")
               (Spec.batchErrors now logs)))
   /\ forall (i : nat) log field,
        logs !! i = Some log ->
        Spec.offending (Handlers.setDefaultValues now log) field ->
        exists message,
          In (Models.mkValidationError
                ("logs[" +:+ Strings.itoa (Z.of_nat i) +:+ "]." +:+ field)
                message)
             (Spec.batchErrors now logs))
  /\ ((forall log, In log logs -> valid log = true) ->
      let validLogs := map (Handlers.setDefaultValues now) logs in
      (forall db' e,
         Database.InsertLogsBatch now db validLogs = (db', Database.Err e) ->
         Handlers.IngestBatch now db (Some req)
         = (db', Handlers.ErrorJSON 500
                   (Models.mkErrorResponse "database_error"
                                           "Failed to store logs" []))
         /\ Database.analytics_logs db' = Database.analytics_logs db)
      /\ (Spec.duplicateInside logs ->
          exists db',
            Handlers.IngestBatch now db (Some req)
            = (db', Handlers.ErrorJSON 500
                      (Models.mkErrorResponse "database_error"
                                              "Failed to store logs" []))
            /\ Database.analytics_logs db' = Database.analytics_logs db)
      /\ (forall db' u,
            Database.InsertLogsBatch now db validLogs = (db', Database.Ok u) ->
            Handlers.IngestBatch now db (Some req)
            = (db', Handlers.SuccessJSON 201
                      ("Batch of " +:+ Strings.itoa (Handlers.len validLogs)
                       +:+ " logs ingested successfully")
                      (Handlers.BatchData (Handlers.len validLogs)
                                          (Handlers.len logs)))
            /\ Database.analytics_logs db'
               = Database.analytics_logs db
                 ++ imap (fun j log =>
                            Database.insertedRow
                              (Database.analytics_logs_id_seq db + 1
                               + Z.of_nat j) now log)
                         validLogs))).
Proof.
  intros logs valid. split.
  { intros body db' resp H.
    exact (IngestBatch_whole_or_none now db db' body resp H). }
  intros Hsize.
  pose proof (IngestBatch_sized now db req Hsize) as Hingest.
  fold logs in Hingest. split.
  - intros (bad & Hin & Hbad). split.
    + rewrite Hingest.
      destruct (Spec.batchErrors now logs) as [|ve errs] eqn:Eb;
        [|reflexivity].
      apply batchErrors_nil in Eb. rewrite Forall_forall in Eb.
      specialize (Eb bad (proj2 (list_elem_of_In _ _) Hin)).
      unfold valid in Hbad. congruence.
    + intros i log field Hi Hoff.
      now apply (batchErrors_complete now logs i log field).
  - intros Hall validLogs.
    assert (Eb : Spec.batchErrors now logs = []).
    { apply batchErrors_nil, Forall_forall. intros x Hx.
      apply Hall. now apply list_elem_of_In. }
    rewrite Eb in Hingest. cbv zeta in Hingest. fold validLogs in Hingest.
    assert (Herr : forall db' e,
              Database.InsertLogsBatch now db validLogs
              = (db', Database.Err e) ->
              Handlers.IngestBatch now db (Some req)
              = (db', Handlers.ErrorJSON 500
                        (Models.mkErrorResponse "database_error"
                                                "Failed to store logs" []))
              /\ Database.analytics_logs db' = Database.analytics_logs db).
    { intros db' e H. rewrite Hingest, H. split; [reflexivity|].
      now apply InsertLogsBatch_err in H. }
    split; [exact Herr|]. split.
    + intros Hdup.
      destruct (InsertLogsBatch_duplicate now db validLogs
                  (duplicateInside_defaults now logs Hdup)) as (db' & e & H).
      exists db'. now apply (Herr db' e).
    + intros db' u H. rewrite Hingest, H. split; [reflexivity|].
      now apply InsertLogsBatch_ok in H.
Qed.

Lemma batch_all_or_nothing_witness :
  let good :=
    Models.mkAnalyticsLog 0 "e1" 1700 "behavioral" "tap" None None None None
                          None None "" 0 None in
  let bad :=
    Models.mkAnalyticsLog 0 "" 1700 "nope" "tap" None None None None
                          None None "urgent" 0 None in
  let db := Database.mkStore true true [] [] 0 0 in
  Handlers.IngestBatch 1800 db (Some (Models.mkBatchRequest [good; bad]))
  = (db, Handlers.ErrorJSON 400
           (Models.mkErrorResponse "validation_error"
              "Validation failed for 3 logs"
              [Models.mkValidationError "logs[1].EventID"
                 "This field is required";
               Models.mkValidationError "logs[1].EventType"
                 "Must be one of: behavioral telemetry observability error performance";
               Models.mkValidationError "logs[1].Priority"
                 "Must be one of: normal high"]))
  /\ exists db',
       Handlers.IngestBatch 1800 db (Some (Models.mkBatchRequest [good; good]))
       = (db', Handlers.ErrorJSON 500
                 (Models.mkErrorResponse "database_error"
                                         "Failed to store logs" []))
       /\ Database.analytics_logs db' = Database.analytics_logs db.
Proof.
  intros good bad db. split.
  - assert (Hsize : (0 < length [good; bad] <= 1000)%nat) by (simpl; lia).
    destruct (batch_all_or_nothing 1800 db (Models.mkBatchRequest [good; bad]))
      as [_ Hsized].
    destruct (Hsized Hsize) as [Hinvalid _].
    destruct Hinvalid as [H _].
    { exists bad. split; [right; left; reflexivity|reflexivity]. }
    rewrite H. reflexivity.
  - assert (Hsize : (0 < length [good; good] <= 1000)%nat) by (simpl; lia).
    destruct (batch_all_or_nothing 1800 db (Models.mkBatchRequest [good; good]))
      as [_ Hsized].
    destruct (Hsized Hsize) as [_ Hvalid].
    destruct Hvalid as (_ & Hdup & _).
    { intros log [<-|[<-|[]]]; reflexivity. }
    apply Hdup. exists 0%nat, 1%nat, good, good.
    repeat split; lia.
Defined.

(** ** The key cache *)

Section KeyCache.
Import Strings Models Database Auth Spec.
Variable hashAPIKey : string -> string.

Lemma cached_setCached (svc : AuthService) (h x : string) :
  cached (setCached svc h) x = true -> x = h \/ cached svc x = true.
Proof.
  unfold cached, setCached; simpl. destruct (decide (h = x)) as [->|Hne].
  - now left.
  - rewrite lookup_insert_ne by assumption. now right.
Qed.

Lemma cached_setCached_same (svc : AuthService) (h : string) :
  cached (setCached svc h) h = true.
Proof. unfold cached, setCached; simpl. now rewrite lookup_insert_eq. Qed.

Lemma cached_setCached_mono (svc : AuthService) (h x : string) :
  cached svc x = true -> cached (setCached svc h) x = true.
Proof.
  unfold cached, setCached; simpl. destruct (decide (h = x)) as [->|Hne].
  - now rewrite lookup_insert_eq.
  - now rewrite lookup_insert_ne.
Qed.

Lemma isValidCachedKey_spec (now : Time) (svc : AuthService) (h : string) :
  apiKeys (fst (isValidCachedKey now svc h)) = apiKeys svc
  /\ snd (isValidCachedKey now svc h) = cached svc h.
Proof.
  unfold isValidCachedKey. destruct (fiveMinutes <? now - lastSync svc);
    split; reflexivity.
Qed.

(** The ways through the middleware, by what they leave behind. *)
Lemma AuthMiddleware_cases (now : Time) (svc svc' : AuthService) (db : Store)
                           (r : Header) (out : Outcome) (eff : list Effect) :
  AuthMiddleware hashAPIKey now svc db r = (svc', out, eff) ->
  let h := hashAPIKey (extractAPIKey r) in
  (apiKeys svc' = apiKeys svc
   /\ ((exists status body, out = Abort status body)
       \/ (servedFromCache h (out, eff) /\ cached svc h = true))
   /\ (out = unauthorized "API key has expired" -> cached svc h = false))
  \/ (apiKeys svc' = <[h := true]> (apiKeys svc)
      /\ acceptedByStore h (out, eff)
      /\ cached svc h = false
      /\ confirmed now db h).
Proof.
  intros H h. unfold AuthMiddleware in H.
  destruct (String.eqb (extractAPIKey r) "").
  { injection H as <- <- <-. left. split; [reflexivity|]. split.
    - left. unfold unauthorized. eauto.
    - unfold unauthorized. discriminate. }
  fold h in H.
  pose proof (isValidCachedKey_spec now svc h) as [Hkeys Hhit].
  destruct (isValidCachedKey now svc h) as [svc1 hit]. simpl in Hkeys, Hhit.
  subst hit. destruct (cached svc h) eqn:Hc.
  { injection H as <- <- <-. left. split; [assumption|]. split.
    - right. split; reflexivity.
    - unfold unauthorized. discriminate. }
  destruct (GetAPIKey db h) as [[k|]|e] eqn:Eg.
  - apply GetAPIKey_found in Eg as (Hin & Hh & Ha). rewrite Ha in H.
    simpl in H. destruct (expired now k) eqn:Ee.
    + injection H as <- <- <-. left. split; [assumption|]. split.
      * left. unfold unauthorized. eauto.
      * reflexivity.
    + injection H as <- <- <-. right. simpl. rewrite Hkeys.
      split; [reflexivity|]. split; [reflexivity|]. split; [reflexivity|].
      exists k. auto.
  - injection H as <- <- <-. left. split; [assumption|]. split.
    + left. unfold unauthorized. eauto.
    + unfold unauthorized. discriminate.
  - injection H as <- <- <-. left. split; [assumption|]. split.
    + left. eauto.
    + unfold unauthorized. discriminate.
Qed.

Lemma AuthMiddleware_gain (now : Time) (svc svc' : AuthService) (db : Store)
                          (r : Header) (out : Outcome) (eff : list Effect)
                          (x : string) :
  AuthMiddleware hashAPIKey now svc db r = (svc', out, eff) ->
  cached svc' x = true ->
  cached svc x = true
  \/ (x = hashAPIKey (extractAPIKey r)
      /\ acceptedByStore x (out, eff) /\ confirmed now db x).
Proof.
  intros H Hx. apply AuthMiddleware_cases in H.
  destruct H as [(Hk & _)|(Hk & Hacc & _ & Hconf)].
  - left. unfold cached in *. now rewrite <- Hk.
  - unfold cached in Hx. rewrite Hk in Hx.
    destruct (decide (hashAPIKey (extractAPIKey r) = x)) as [<-|Hne].
    + right. auto.
    + rewrite lookup_insert_ne in Hx by assumption. now left.
Qed.

Lemma AuthMiddleware_abort (now : Time) (svc svc' : AuthService) (db : Store)
                           (r : Header) (status : Z) (body : ErrorResponse)
                           (eff : list Effect) :
  AuthMiddleware hashAPIKey now svc db r = (svc', Abort status body, eff) ->
  apiKeys svc' = apiKeys svc.
Proof.
  intros H. apply AuthMiddleware_cases in H.
  destruct H as [(Hk & _)|(_ & Hacc & _)]; [exact Hk|].
  unfold acceptedByStore in Hacc. discriminate.
Qed.

(** A hash that enters the cache while requests are served entered it
    with a request that the store confirmed. *)
Lemma serve_gain (reqs : list (Request)) :
  forall (svc svc' : AuthService) (outs : list (Outcome * list Effect))
         (x : string),
    serve hashAPIKey svc reqs = (outs, svc') ->
    cached svc x = false ->
    cached svc' x = true ->
    exists (i : nat) (r : Request) (o : Outcome * list Effect),
      reqs !! i = Some r /\ outs !! i = Some o
      /\ hashAPIKey (extractAPIKey (req_header r)) = x
      /\ acceptedByStore x o
      /\ confirmed (req_now r) (req_db r) x.
Proof.
  induction reqs as [|r reqs IH]; intros svc svc' outs x H Hno Hyes;
    simpl in H.
  - injection H as <- <-. congruence.
  - destruct (AuthMiddleware hashAPIKey (req_now r) svc (req_db r)
                             (req_header r)) as [[svc1 out] eff] eqn:E.
    destruct (serve hashAPIKey svc1 reqs) as [outs1 svc2] eqn:Es.
    injection H as <- <-.
    destruct (cached svc1 x) eqn:Hc1.
    + destruct (AuthMiddleware_gain _ _ _ _ _ _ _ x E Hc1)
        as [Hold|(Hx & Hacc & Hconf)]; [congruence|].
      exists 0%nat, r, (out, eff). auto.
    + destruct (IH svc1 svc2 outs1 x Es Hc1 Hyes)
        as (i & r' & o & Hr & Ho & Hrest).
      exists (S i), r', o. auto.
Qed.
End KeyCache.

Section Bootstrap.
Import Strings Models Database Auth Spec.
Variable hashAPIKey : string -> string.
Variable formatDate : Time -> string.

(** Bootstrap marks hashes of configured keys only. *)
Lemma initializeKeys_gain (now : Time) (keys : list string) :
  forall (svc svc' : AuthService) (db db' : Store) (res : result unit)
         (x : string),
    initializeKeys hashAPIKey formatDate now svc db keys = (svc', db', res) ->
    cached svc' x = true ->
    cached svc x = true \/ exists key, In key keys /\ x = hashAPIKey key.
Proof.
  induction keys as [|key keys IH]; intros svc svc' db db' res x H Hx;
    simpl in H.
  - injection H as <- _ _. now left.
  - assert (Hstep : forall db1,
              initializeKeys hashAPIKey formatDate now
                (setCached svc (hashAPIKey key)) db1 keys = (svc', db', res) ->
              cached svc x = true
              \/ exists key', In key' (key :: keys) /\ x = hashAPIKey key').
    { intros db1 H1. destruct (IH _ _ _ _ _ x H1 Hx) as [Hc|(k' & Hin & ->)].
      - apply cached_setCached in Hc as [->|Hc]; [|now left].
        right. exists key. split; [now left|reflexivity].
      - right. exists k'. split; [now right|reflexivity]. }
    destruct (GetAPIKey db (hashAPIKey key)) as [[k|]|e].
    + now apply (Hstep db).
    + destruct (InsertAPIKey now db _) as [db1 [k1|e1]].
      * now apply (Hstep db1).
      * injection H as <- _ _. now left.
    + injection H as <- _ _. now left.
Qed.

Lemma InitializeAPIKeys_gain (now : Time) (keys : list string)
                             (svc svc' : AuthService) (db db' : Store)
                             (res : result unit) (x : string) :
  InitializeAPIKeys hashAPIKey formatDate now svc db keys = (svc', db', res) ->
  cached svc' x = true ->
  cached svc x = true \/ exists key, In key keys /\ x = hashAPIKey key.
Proof.
  unfold InitializeAPIKeys.
  destruct (initializeKeys hashAPIKey formatDate now svc db keys)
    as [[svc1 db1] [u|e]] eqn:E; intros [= <- _ _] Hx;
    apply (initializeKeys_gain now keys svc svc1 db db1 _ x E); exact Hx.
Qed.

(** An inactive record under the hash of a configured key stops the
    bootstrap at that key: the lookup misses it, the insert collides with
    it, and the key is not marked valid. *)
Lemma initializeKeys_inactive (now : Time) (svc : AuthService) (db : Store)
                              (key : string) (keys : list string) :
  conn_ok db = true ->
  (exists k, In k (api_keys db) /\ KeyHash k = hashAPIKey key) ->
  (forall k, In k (api_keys db) -> KeyHash k = hashAPIKey key ->
             IsActive k = false) ->
  exists db' e,
    initializeKeys hashAPIKey formatDate now svc db (key :: keys)
    = (svc, db', Err e)
    /\ api_keys db' = api_keys db.
Proof.
  intros Hc (k & Hin & Hk) Hall. simpl.
  rewrite (GetAPIKey_all_inactive db (hashAPIKey key) Hc Hall).
  unfold InsertAPIKey. rewrite Hc. simpl.
  destruct (negb _).
  - eexists _, _. split; reflexivity.
  - assert (Hhas : hasKeyHash (api_keys db) (hashAPIKey key) = true).
    { unfold hasKeyHash. apply existsb_exists. exists k.
      split; [exact Hin|]. now apply String.eqb_eq. }
    rewrite Hhas. eexists _, _. split; reflexivity.
Qed.
End Bootstrap.

(** C3: the middleware adds a hash to the map of valid keys only on the
    path where the store has just confirmed it (a record with that hash,
    active, not expired), and bootstrap adds hashes of configured keys
    only.  A request that is aborted, for an unknown, inactive or expired
    key or for any other reason, leaves the map as it was; the clock
    [lastSync] is not part of this statement, a stale one is restarted by
    any request.  And when a key has been rejected as expired and is later
    served from the cache with no lookup in the store, a request in
    between was accepted on a lookup in the store that confirmed the
    hash. *)
Theorem cache_holds_confirmed_keys (hashAPIKey : string -> string) :
  (forall now svc db r svc' out eff,
     Auth.AuthMiddleware hashAPIKey now svc db r = (svc', out, eff) ->
     (forall x, Auth.cached svc' x = true ->
        Auth.cached svc x = true
        \/ (x = hashAPIKey (Auth.extractAPIKey r)
            /\ Spec.acceptedByStore x (out, eff)
            /\ Spec.confirmed now db x))
     /\ (forall status body, out = Auth.Abort status body ->
           Auth.apiKeys svc' = Auth.apiKeys svc))
  /\ (forall formatDate now svc db keys svc' db' res,
        Auth.InitializeAPIKeys hashAPIKey formatDate now svc db keys
        = (svc', db', res) ->
        forall x, Auth.cached svc' x = true ->
          Auth.cached svc x = true
          \/ exists key, In key keys /\ x = hashAPIKey key)
  /\ (forall svc r1 svc1 eff1 mid outs svc2 r2 svc3 o2,
        Auth.AuthMiddleware hashAPIKey (Auth.req_now r1) svc (Auth.req_db r1)
                            (Auth.req_header r1)
        = (svc1, Auth.unauthorized "API key has expired", eff1) ->
        Auth.serve hashAPIKey svc1 mid = (outs, svc2) ->
        Auth.AuthMiddleware hashAPIKey (Auth.req_now r2) svc2 (Auth.req_db r2)
                            (Auth.req_header r2)
        = (svc3, fst o2, snd o2) ->
        let h := hashAPIKey (Auth.extractAPIKey (Auth.req_header r1)) in
        Spec.servedFromCache h o2 ->
        exists (i : nat) r o,
          mid !! i = Some r /\ outs !! i = Some o
          /\ hashAPIKey (Auth.extractAPIKey (Auth.req_header r)) = h
          /\ Spec.acceptedByStore h o
          /\ Spec.confirmed (Auth.req_now r) (Auth.req_db r) h).
Proof.
  split; [|split].
  - intros now svc db r svc' out eff H. split.
    + intros x Hx. now apply (AuthMiddleware_gain hashAPIKey now svc svc' db r).
    + intros status body ->.
      now apply (AuthMiddleware_abort hashAPIKey now svc svc' db r status body eff).
  - intros formatDate now svc db keys svc' db' res H x Hx.
    now apply (InitializeAPIKeys_gain hashAPIKey formatDate now keys
                                      svc svc' db db' res x).
  - intros svc r1 svc1 eff1 mid outs svc2 r2 svc3 [out2 eff2] H1 Hmid H2 h Hserved.
    simpl in H2.
    assert (Hmiss : Auth.cached svc1 h = false).
    { apply AuthMiddleware_cases in H1.
      destruct H1 as [(Hk & _ & Hexp)|(_ & Hacc & _)].
      - specialize (Hexp eq_refl). fold h in Hexp.
        unfold Auth.cached in *. now rewrite Hk.
      - unfold Spec.acceptedByStore, Auth.unauthorized in Hacc. discriminate. }
    assert (Hhit : Auth.cached svc2 h = true).
    { unfold Spec.servedFromCache in Hserved. injection Hserved as -> ->.
      apply AuthMiddleware_cases in H2.
      destruct H2 as [(_ & [(st & body & Habort)|[Hs Hc]] & _)|(_ & Hacc & _)].
      - discriminate.
      - unfold Spec.servedFromCache in Hs. injection Hs as Hh.
        now rewrite <- Hh in Hc.
      - unfold Spec.acceptedByStore in Hacc. discriminate. }
    exact (serve_gain hashAPIKey mid svc1 svc2 outs h Hmid Hmiss Hhit).
Qed.

Lemma cache_holds_confirmed_keys_witness :
  let hashAPIKey := fun key : string => "sha256:" +:+ key in
  let record expires :=
    Models.mkAPIKey 1 "sha256:k1" "mobile" true 10 None expires 0 in
  let store expires := Database.mkStore true true [] [record expires] 0 1 in
  let header : Auth.Header := {[ "X-Api-Key" := ["k1"] ]} in
  let r1 := Auth.mkRequest 100 (store (Some 50)) header in
  let renewed := Auth.mkRequest 200 (store None) header in
  let r2 := Auth.mkRequest 300 (store (Some 50)) header in
  exists (i : nat) r o,
    [renewed] !! i = Some r
    /\ fst (Auth.serve hashAPIKey Auth.NewAuthService [renewed]) !! i = Some o
    /\ hashAPIKey (Auth.extractAPIKey (Auth.req_header r)) = "sha256:k1"
    /\ Spec.acceptedByStore "sha256:k1" o
    /\ Spec.confirmed (Auth.req_now r) (Auth.req_db r) "sha256:k1".
Proof.
  intros hashAPIKey record store header r1 renewed r2.
  destruct (cache_holds_confirmed_keys hashAPIKey) as (_ & _ & Htrace).
  destruct (Auth.serve hashAPIKey Auth.NewAuthService [renewed])
    as [outs svc2] eqn:Es.
  refine (Htrace Auth.NewAuthService r1 Auth.NewAuthService
                 [Auth.StoreLookup "sha256:k1"] [renewed] outs svc2 r2
                 svc2
                 (Auth.Next "sha256:k1", [Auth.SpawnUsageUpdate "sha256:k1"])
                 _ _ _ _).
  - vm_compute. reflexivity.
  - rewrite <- Es. vm_compute. reflexivity.
  - vm_compute in Es. injection Es as <- <-. vm_compute. reflexivity.
  - reflexivity.
Defined.

(** C4 fails on a store that holds an inactive record under the hash of a
    configured key: [GetAPIKey] does not see the record, the insert runs
    into the unique [key_hash], and [InitializeAPIKeys] returns the error,
    with the key not marked valid and the clock not set. *)
Theorem bootstrap_fails_on_inactive_record
        (hashAPIKey : string -> string) (formatDate : Models.Time -> string)
        (now : Models.Time) (svc : Auth.AuthService) (db : Database.Store)
        (key : string) (keys : list string) :
  Database.conn_ok db = true ->
  (exists k, In k (Database.api_keys db)
             /\ Models.KeyHash k = hashAPIKey key) ->
  (forall k, In k (Database.api_keys db) ->
             Models.KeyHash k = hashAPIKey key ->
             Models.IsActive k = false) ->
  exists db' e,
    Auth.InitializeAPIKeys hashAPIKey formatDate now svc db (key :: keys)
    = (svc, db', Database.Err e)
    /\ Database.api_keys db' = Database.api_keys db.
Proof.
  intros Hc Hex Hall.
  destruct (initializeKeys_inactive hashAPIKey formatDate now svc db key keys
                                    Hc Hex Hall) as (db' & e & H & Hkeys).
  exists db', e. unfold Auth.InitializeAPIKeys. rewrite H. auto.
Qed.

Lemma bootstrap_fails_on_inactive_record_witness :
  let hashAPIKey := fun key : string => "sha256:" +:+ key in
  let formatDate := fun _ : Models.Time => "2025-01-01" in
  let revoked :=
    Models.mkAPIKey 1 "sha256:k1" "Auto-generated key 2024-12-31" false 10
                    None None 0 in
  let db := Database.mkStore true true [] [revoked] 0 1 in
  exists db' e,
    Auth.InitializeAPIKeys hashAPIKey formatDate 100 Auth.NewAuthService db
                           ["k1"]
    = (Auth.NewAuthService, db', Database.Err e)
    /\ Database.api_keys db' = Database.api_keys db.
Proof.
  intros hashAPIKey formatDate revoked db.
  apply (bootstrap_fails_on_inactive_record hashAPIKey formatDate 100
           Auth.NewAuthService db "k1" []).
  - reflexivity.
  - exists revoked. split; [now left|reflexivity].
  - intros k [<-|[]] _. reflexivity.
Defined.

(** ** Bootstrap on a store without inactive configured keys *)

Section BootstrapIdempotent.
Import Strings Models Database Auth Spec.
Variable hashAPIKey : string -> string.
Variable formatDate : Time -> string.

Lemma cached_lookup (svc : AuthService) (h : string) :
  cached svc h = true <-> apiKeys svc !! h = Some true.
Proof.
  unfold cached. destruct (apiKeys svc !! h) as [[|]|]; simpl;
    split; congruence.
Qed.

Lemma setCached_cached (svc : AuthService) (h : string) :
  cached svc h = true -> setCached svc h = svc.
Proof.
  intros H. apply cached_lookup in H. destruct svc as [m t].
  unfold setCached; simpl in *. f_equal. now apply insert_id.
Qed.

Lemma GetAPIKey_missing (db : Store) (h : string) :
  GetAPIKey db h = Ok None ->
  (forall k, In k (api_keys db) -> KeyHash k = h -> IsActive k = true) ->
  hasKeyHash (api_keys db) h = false.
Proof.
  unfold GetAPIKey. destruct (negb (conn_ok db)); [discriminate|].
  intros [= Hfind] Hact.
  destruct (hasKeyHash (api_keys db) h) eqn:E; [|reflexivity].
  apply existsb_exists in E as (k & Hin & Hk). apply String.eqb_eq in Hk.
  pose proof (find_none _ _ Hfind k Hin) as Hn. simpl in Hn.
  rewrite (Hact k Hin Hk), Hk, String.eqb_refl in Hn. discriminate.
Qed.

Lemma find_append_none {A : Type} (p : A -> bool) (l l' : list A) :
  List.find p l = None -> List.find p (l ++ l') = List.find p l'.
Proof.
  induction l as [|x l IH]; simpl; [reflexivity|].
  destruct (p x); [discriminate|exact IH].
Qed.

Lemma GetAPIKey_append (db : Store) (rows : list APIKey) (seq : Z)
                       (h : string) (k : APIKey) :
  GetAPIKey db h = Ok (Some k) ->
  GetAPIKey (withKeys db (api_keys db ++ rows) seq) h = Ok (Some k).
Proof.
  unfold GetAPIKey; simpl. destruct (negb (conn_ok db)); [discriminate|].
  intros [= Hfind]. f_equal.
  induction (api_keys db) as [|x l IH]; simpl in *; [discriminate|].
  destruct (_ && _); [assumption|now apply IH].
Qed.

Lemma initializeKeys_first_run (now : Time) (keys : list string) :
  forall (svc : AuthService) (db : Store) (seen : list string),
    bootstrappable hashAPIKey formatDate now db (seen ++ keys) ->
    allFound hashAPIKey db seen ->
    (forall key, In key seen -> cached svc (hashAPIKey key) = true) ->
    exists svc' db',
      initializeKeys hashAPIKey formatDate now svc db keys = (svc', db', Ok tt)
      /\ bootstrappable hashAPIKey formatDate now db' (seen ++ keys)
      /\ allFound hashAPIKey db' (seen ++ keys)
      /\ (forall key, In key (seen ++ keys) ->
                      cached svc' (hashAPIKey key) = true)
      /\ (exists added, api_keys db' = api_keys db ++ added
                        /\ (length added <= length keys)%nat).
Proof.
  induction keys as [|key keys IH]; intros svc db seen Hb Hfound Hcached.
  - exists svc, db. rewrite app_nil_r in *. simpl.
    repeat split; try assumption; try apply Hb.
    exists []. now rewrite app_nil_r.
  - assert (Hassoc : seen ++ key :: keys = (seen ++ [key]) ++ keys)
      by now rewrite <- app_assoc.
    destruct Hb as (Hc & Hname & Hfit & Hact).
    assert (Hkey : In key (seen ++ key :: keys))
      by (apply in_or_app; right; now left).
    simpl.
    destruct (GetAPIKey db (hashAPIKey key)) as [[k|]|e] eqn:Eg.
    + destruct (IH (setCached svc (hashAPIKey key)) db (seen ++ [key]))
        as (svc' & db' & Hrun & Hb' & Hf' & Hc' & (added & Hrows & Hlen)).
      * rewrite <- Hassoc. repeat split; assumption.
      * intros x [Hx|[<-|[]]]%in_app_or; [now apply Hfound|eauto].
      * intros x [Hx|[<-|[]]]%in_app_or.
        -- now apply cached_setCached_mono, Hcached.
        -- apply cached_setCached_same.
      * rewrite <- Hassoc in Hb', Hf', Hc'.
        exists svc', db'. repeat split; try assumption; try apply Hb'.
        exists added. split; [assumption|simpl; lia].
    + pose proof (GetAPIKey_missing db _ Eg
                    (fun k Hin Hk => Hact key k Hkey Hin Hk)) as Hmiss.
      unfold InsertAPIKey.
      cbn [KeyHash Name IsActive ExpiresAt LastUsedAt UsageCount].
      rewrite Hc, (Hfit key Hkey), Hname, Hmiss. simpl.
      set (row := mkAPIKey (api_keys_id_seq db + 1) (hashAPIKey key)
                           ("Auto-generated key " +:+ formatDate now)
                           true now None None 0).
      set (db1 := withKeys db (api_keys db ++ [row])
                           (api_keys_id_seq db + 1)).
      destruct (IH (setCached svc (hashAPIKey key)) db1 (seen ++ [key]))
        as (svc' & db' & Hrun & Hb' & Hf' & Hc' & (added & Hrows & Hlen)).
      * rewrite <- Hassoc. repeat split; try assumption.
        intros x k Hx [Hk|[<-|[]]]%in_app_or Hh; [|reflexivity].
        now apply (Hact x k).
      * intros x [Hx|[<-|[]]]%in_app_or.
        -- destruct (Hfound x Hx) as [k Hk]. exists k.
           now apply GetAPIKey_append.
        -- exists row. unfold GetAPIKey, db1; simpl. rewrite Hc; simpl.
           f_equal.
           assert (Hnone : List.find
                     (fun x => String.eqb (KeyHash x) (hashAPIKey key)
                               && IsActive x) (api_keys db) = None).
           { unfold GetAPIKey in Eg. rewrite Hc in Eg. simpl in Eg.
             now injection Eg. }
           rewrite (find_append_none _ _ _ Hnone). simpl.
           now rewrite String.eqb_refl.
      * intros x [Hx|[<-|[]]]%in_app_or.
        -- now apply cached_setCached_mono, Hcached.
        -- apply cached_setCached_same.
      * rewrite <- Hassoc in Hb', Hf', Hc'.
        exists svc', db'. repeat split; try assumption; try apply Hb'.
        exists ([row] ++ added). split.
        -- rewrite Hrows. unfold db1; simpl. now rewrite <- app_assoc.
        -- simpl. lia.
    + unfold GetAPIKey in Eg. rewrite Hc in Eg. discriminate.
Qed.

Lemma initializeKeys_second_run (now : Time) (keys : list string) :
  forall (svc : AuthService) (db : Store),
    allFound hashAPIKey db keys ->
    (forall key, In key keys -> cached svc (hashAPIKey key) = true) ->
    initializeKeys hashAPIKey formatDate now svc db keys = (svc, db, Ok tt).
Proof.
  induction keys as [|key keys IH]; intros svc db Hfound Hcached;
    [reflexivity|].
  simpl. destruct (Hfound key (or_introl eq_refl)) as [k ->].
  rewrite (setCached_cached svc _ (Hcached key (or_introl eq_refl))).
  apply IH.
  - intros x Hx. apply Hfound. now right.
  - intros x Hx. apply Hcached. now right.
Qed.

(** Where no configured key has an inactive record, bootstrap is
    idempotent: the first run succeeds, marks every configured hash valid
    and adds at most one record for each key, and a second run with the
    same keys succeeds and leaves store and map as they are. *)
Lemma bootstrap_idempotent_without_inactive
      (now now' : Time) (svc : AuthService) (db : Store)
      (keys : list string) :
  bootstrappable hashAPIKey formatDate now db keys ->
  exists svc' db',
    InitializeAPIKeys hashAPIKey formatDate now svc db keys
    = (svc', db', Ok tt)
    /\ (forall key, In key keys -> cached svc' (hashAPIKey key) = true)
    /\ (exists added, api_keys db' = api_keys db ++ added
                      /\ (length added <= length keys)%nat)
    /\ InitializeAPIKeys hashAPIKey formatDate now' svc' db' keys
       = (mkAuthService (apiKeys svc') now', db', Ok tt).
Proof.
  intros Hb.
  destruct (initializeKeys_first_run now keys svc db [] Hb)
    as (svc1 & db1 & Hrun & _ & Hfound & Hcached & Hadded).
  { intros ? []. }
  { intros ? []. }
  simpl in Hfound, Hcached.
  exists (mkAuthService (apiKeys svc1) now), db1.
  unfold InitializeAPIKeys. rewrite Hrun.
  split; [reflexivity|]. split; [exact Hcached|]. split; [exact Hadded|].
  assert (Hc2 : forall key, In key keys ->
            cached (mkAuthService (apiKeys svc1) now) (hashAPIKey key) = true)
    by exact Hcached.
  rewrite (initializeKeys_second_run now' keys _ db1 Hfound Hc2).
  reflexivity.
Qed.
End BootstrapIdempotent.

(** ** Worked examples *)

Example count_query_example :
  Database.countQueryOf
    (Database.mkLogFilter "error" "" "u1" "" "" "" "" None (Some 1700)
                          20 40 "timestamp" "asc")
  = Database.mkQuery
      "SELECT COUNT(*) FROM analytics_logs WHERE event_type = $1 AND user_id = $2 AND created_at <= $3"
      [Database.ArgString "error"; Database.ArgString "u1";
       Database.ArgTime 1700].
Proof. reflexivity. Qed.

Example page_query_example :
  Database.pageQueryOf
    (Database.mkLogFilter "error" "" "u1" "" "" "" "" None (Some 1700)
                          20 40 "timestamp" "asc")
  = Database.mkQuery
      (Database.selectList
       +:+ "WHERE event_type = $1 AND user_id = $2 AND created_at <= $3 "
       +:+ Strings.LF +:+ Strings.TAB +:+ Strings.TAB
       +:+ "ORDER BY timestamp ASC LIMIT $4 OFFSET $5")
      [Database.ArgString "error"; Database.ArgString "u1";
       Database.ArgTime 1700; Database.ArgInt 20; Database.ArgInt 40].
Proof. reflexivity. Qed.

Example injection_example :
  Database.limitClauseOf
    (Spec.sortOnly "robert'); drop table logs;--" "desc") 1
  = "ORDER BY created_at DESC LIMIT $1".
Proof. reflexivity. Qed.

Example batch_commit_example :
  let log id :=
    Models.mkAnalyticsLog 0 id 0 "telemetry" "boot" None None None None
                          None None "" 0 None in
  let stored n id :=
    Models.mkAnalyticsLog n id 1800 "telemetry" "boot" (Some ∅) None None
                          None (Some ∅) None "normal" 1800 None in
  Handlers.IngestBatch 1800 (Database.mkStore true true [] [] 0 0)
                       (Some (Models.mkBatchRequest [log "a"; log "b"]))
  = (Database.mkStore true true [stored 1 "a"; stored 2 "b"] [] 2 0,
     Handlers.SuccessJSON 201 "Batch of 2 logs ingested successfully"
                          (Handlers.BatchData 2 2)).
Proof. reflexivity. Qed.

Example batch_rollback_example :
  let log id :=
    Models.mkAnalyticsLog 0 id 1700 "telemetry" "boot" None None None None
                          None None "high" 0 None in
  Handlers.IngestBatch 1800 (Database.mkStore true true [] [] 0 0)
                       (Some (Models.mkBatchRequest
                                [log "a"; log "b"; log "a"]))
  = (Database.mkStore true true [] [] 3 0,
     Handlers.ErrorJSON 500
       (Models.mkErrorResponse "database_error" "Failed to store logs" [])).
Proof. reflexivity. Qed.

Example bootstrap_example :
  let hashAPIKey := fun key : string => "sha256:" +:+ key in
  let formatDate := fun _ : Models.Time => "2025-01-01" in
  exists svc db,
    Auth.InitializeAPIKeys hashAPIKey formatDate 100 Auth.NewAuthService
                           (Database.mkStore true true [] [] 0 0)
                           ["k1"; "k2"; "k1"]
    = (svc, db, Database.Ok tt)
    /\ length (Database.api_keys db) = 2%nat
    /\ Auth.InitializeAPIKeys hashAPIKey formatDate 200 svc db
                              ["k1"; "k2"; "k1"]
       = (Auth.mkAuthService (Auth.apiKeys svc) 200, db, Database.Ok tt).
Proof.
  intros hashAPIKey formatDate.
  destruct (bootstrap_idempotent_without_inactive hashAPIKey formatDate
              100 200 Auth.NewAuthService
              (Database.mkStore true true [] [] 0 0) ["k1"; "k2"; "k1"])
    as (svc & db & Hrun & _ & _ & Hagain).
  { repeat split; try reflexivity.
    - intros key [<-|[<-|[<-|[]]]]; reflexivity.
    - intros key k _ []. }
  exists svc, db. split; [exact Hrun|]. split; [|exact Hagain].
  vm_compute in Hrun. injection Hrun as _ <-. reflexivity.
Qed.

(** * Further properties of the code *)

(** ** Filter values and the text of the statements *)

Section FilterText.
Import Strings Models Database Extra.

Lemma addCondition_text (lhs : string) (a a' : option Arg) (b b' : Builder) :
  bool_decide (is_Some a) = bool_decide (is_Some a') ->
  conditions b = conditions b' /\ argIndex b = argIndex b' ->
  conditions (addCondition lhs a b) = conditions (addCondition lhs a' b')
  /\ argIndex (addCondition lhs a b) = argIndex (addCondition lhs a' b').
Proof.
  intros Ha [Hc Hi]. destruct a, a'; simpl in *; try discriminate;
    rewrite ?Hc, ?Hi; auto.
Qed.

Lemma nonEmpty_present (s : string) :
  bool_decide (is_Some (nonEmpty s)) = present s.
Proof. unfold nonEmpty, present. now destruct (String.eqb s ""). Qed.

Lemma fmap_present {A B : Type} (g : A -> B) (t : option A) :
  bool_decide (is_Some (g <$> t)) = bool_decide (is_Some t).
Proof. now destruct t. Qed.

Lemma buildConditions_text (f g : LogFilter) :
  fst (fst (fst (shape f))) = fst (fst (fst (shape g))) ->
  conditions (buildConditions f) = conditions (buildConditions g)
  /\ argIndex (buildConditions f) = argIndex (buildConditions g).
Proof.
  unfold shape; simpl. intros [= H1 H2 H3 H4 H5 H6 H7 H8 H9].
  unfold buildConditions.
  repeat (apply addCondition_text;
          [rewrite ?nonEmpty_present, ?fmap_present; assumption|]).
  split; reflexivity.
Qed.
End FilterText.

(** X1: the values of a filter never reach the text of its statements.
    Two filters that set the same fields, sort alike and both have or both
    lack an offset give the same count text and the same page text,
    whatever the values of their fields are. *)
Theorem filter_values_stay_out_of_text (f g : Database.LogFilter) :
  Extra.shape f = Extra.shape g ->
  Database.text (Database.countQueryOf f)
  = Database.text (Database.countQueryOf g)
  /\ Database.text (Database.pageQueryOf f)
     = Database.text (Database.pageQueryOf g).
Proof.
  intros H.
  destruct (buildConditions_text f g) as [Hc Hi].
  { exact (f_equal (fun x => fst (fst (fst x))) H). }
  assert (Hsort : Database.sortByOf f = Database.sortByOf g)
    by exact (f_equal (fun x => snd (fst (fst x))) H).
  assert (Horder : Database.sortOrderOf f = Database.sortOrderOf g)
    by exact (f_equal (fun x => snd (fst x)) H).
  assert (Hoffset : Database.hasOffset f = Database.hasOffset g)
    by exact (f_equal snd H).
  unfold Database.countQueryOf, Database.pageQueryOf, Database.limitClauseOf.
  simpl. rewrite Hc, Hi, Hsort, Horder, Hoffset. split; reflexivity.
Qed.

Lemma filter_values_stay_out_of_text_witness :
  let f := Database.mkLogFilter "error" "" "u1" "" "" "" "" None None
                                50 0 "" "" in
  let g := Database.mkLogFilter "telemetry" "" "x' OR '1'='1" "" "" "" ""
                                None None 7 0 "no such column" "Asc" in
  Database.text (Database.pageQueryOf f)
  = Database.text (Database.pageQueryOf g).
Proof.
  intros f g. apply (filter_values_stay_out_of_text f g). reflexivity.
Defined.

(** ** Results of the filter queries *)

Section FilterResults.
Import Strings Models Database Handlers.

Lemma scanRows_ok (prefix : string) (rows : list (result AnalyticsLog)) :
  forall (acc logs : list AnalyticsLog),
    scanRows prefix rows acc = Ok logs
    <-> exists scanned, rows = map Ok scanned /\ logs = acc ++ scanned.
Proof.
  induction rows as [|[log|e] rows IH]; intros acc logs; simpl.
  - split.
    + intros [= <-]. exists []. now rewrite app_nil_r.
    + intros (scanned & Hr & ->). destruct scanned; [|discriminate].
      now rewrite app_nil_r.
  - rewrite IH. split.
    + intros (scanned & -> & ->). exists (log :: scanned).
      now rewrite <- app_assoc.
    + intros (scanned & Hr & ->). destruct scanned as [|l scanned];
        [discriminate|].
      injection Hr as <- ->. exists scanned. now rewrite <- app_assoc.
  - split; [discriminate|].
    intros (scanned & Hr & _). destruct scanned; discriminate.
Qed.



Lemma parsePageSize_bounds (Atoi : string -> option Z)
                           (params : gmap string string) :
  1 <= parsePageSize Atoi params <= 1000.
Proof.
  unfold parsePageSize. destruct (String.eqb _ ""); [lia|].
  destruct (Atoi _) as [n|]; [|lia].
  destruct (Z.ltb_spec 0 n); destruct (Z.leb_spec n 1000); simpl; lia.
Qed.

Lemma parsePage_bounds (Atoi : string -> option Z)
                       (params : gmap string string) :
  1 <= parsePage Atoi params.
Proof.
  unfold parsePage. destruct (String.eqb _ ""); [lia|].
  destruct (Atoi _) as [n|]; [|lia].
  destruct (Z.ltb_spec 0 n); lia.
Qed.

(** The page count of the endpoint is the ceiling of total by size. *)
Lemma totalPages_ceiling (total size : Z) :
  0 <= total -> 0 < size ->
  let pages := if Z.rem total size =? 0 then Z.quot total size
               else Z.quot total size + 1 in
  (pages - 1) * size < total <= pages * size.
Proof.
  intros Ht Hs pages. subst pages.
  rewrite Z.rem_mod_nonneg, Z.quot_div_nonneg by lia.
  pose proof (Z.div_mod total size ltac:(lia)) as Hdm.
  pose proof (Z.mod_pos_bound total size Hs) as Hm.
  destruct (Z.eqb_spec (total mod size) 0); nia.
Qed.

(** What a success answer of the filter endpoint says about its run. *)
Lemma GetFilteredLogsHandler_success
      (Atoi : string -> option Z) (ParseRFC3339 : string -> option Time)
      (queryCount : Query -> result Z)
      (queryRows : Query -> result (list (result AnalyticsLog)))
      (params : gmap string string) (status : Z) (message : string)
      (r : FilteredLogsResponse) :
  GetFilteredLogsHandler Atoi ParseRFC3339 queryCount queryRows params
  = SuccessJSON status message (FilteredData r) ->
  status = 200
  /\ Page r = parsePage Atoi params
  /\ PageSize r = parsePageSize Atoi params
  /\ TotalPages r
     = (if Z.rem (TotalCount r) (PageSize r) =? 0
        then Z.quot (TotalCount r) (PageSize r)
        else Z.quot (TotalCount r) (PageSize r) + 1)
  /\ exists f,
       Limit f = PageSize r
       /\ Offset f = wrap64 ((Page r - 1) * PageSize r)
       /\ GetFilteredLogs queryCount queryRows f = Ok (RLogs r, TotalCount r).
Proof.
  unfold GetFilteredLogsHandler.
  destruct (parseTime ParseRFC3339 _) as [startTime|]; [|discriminate].
  destruct (parseTime ParseRFC3339 _) as [endTime|]; [|discriminate].
  cbn [FEventType FPriority].
  destruct (_ && _); [discriminate|].
  destruct (_ && _); [discriminate|].
  match goal with
  | |- context [GetFilteredLogs _ _ ?f] =>
      destruct (GetFilteredLogs queryCount queryRows f)
        as [[logs total]|e] eqn:E; [|discriminate]
  end.
  intros [= <- _ <-]. simpl. repeat split.
  eexists. split; [|split; [|exact E]]; reflexivity.
Qed.
End FilterResults.



(** X3: a success answer of the filter endpoint has status 200, a page
    of at least 1 and a page size from 1 to 1000 whatever the parameters
    were; the limit of the queries it ran is that page size; and for a
    count that is not negative its number of pages is the ceiling of count
    by page size. *)
Theorem filter_response_paging
        (Atoi : string -> option Z)
        (ParseRFC3339 : string -> option Models.Time)
        (queryCount : Database.Query -> Database.result Z)
        (queryRows : Database.Query ->
                     Database.result (list (Database.result Models.AnalyticsLog)))
        (params : gmap string string) (status : Z) (message : string)
        (r : Handlers.FilteredLogsResponse) :
  Handlers.GetFilteredLogsHandler Atoi ParseRFC3339 queryCount queryRows params
  = Handlers.SuccessJSON status message (Handlers.FilteredData r) ->
  status = 200
  /\ 1 <= Handlers.Page r
  /\ 1 <= Handlers.PageSize r <= 1000
  /\ (exists f,
        Database.Limit f = Handlers.PageSize r
        /\ Database.GetFilteredLogs queryCount queryRows f
           = Database.Ok (Handlers.RLogs r, Handlers.TotalCount r))
  /\ (0 <= Handlers.TotalCount r ->
      (Handlers.TotalPages r - 1) * Handlers.PageSize r
      < Handlers.TotalCount r
      <= Handlers.TotalPages r * Handlers.PageSize r).
Proof.
  intros H.
  apply GetFilteredLogsHandler_success in H
    as (Hs & Hp & Hz & Ht & f & Hl & _ & Hf).
  pose proof (parsePage_bounds Atoi params).
  pose proof (parsePageSize_bounds Atoi params).
  split; [exact Hs|]. split; [lia|]. split; [lia|]. split.
  - exists f. auto.
  - intros Hn. rewrite Ht.
    apply (totalPages_ceiling (Handlers.TotalCount r) (Handlers.PageSize r));
      lia.
Qed.

Lemma filter_response_paging_witness :
  let Atoi := fun s : string =>
    if String.eqb s "3" then Some 3
    else if String.eqb s "5000" then Some 5000 else None in
  let ParseRFC3339 := fun _ : string => @None Models.Time in
  let queryCount := fun _ : Database.Query => Database.Ok 101 in
  let queryRows := fun _ : Database.Query =>
    @Database.Ok (list (Database.result Models.AnalyticsLog)) [] in
  let params : gmap string string :=
    {[ "page" := "3"; "page_size" := "5000" ]} in
  exists message r,
    Handlers.GetFilteredLogsHandler Atoi ParseRFC3339 queryCount queryRows
                                    params
    = Handlers.SuccessJSON 200 message (Handlers.FilteredData r)
    /\ Handlers.PageSize r = 50 /\ Handlers.TotalPages r = 3
    /\ 1 <= Handlers.PageSize r <= 1000.
Proof.
  intros Atoi ParseRFC3339 queryCount queryRows params.
  eexists _, _. split; [vm_compute; reflexivity|].
  split; [reflexivity|]. split; [reflexivity|].
  match goal with
  | |- _ <= Handlers.PageSize ?r <= _ =>
      exact (proj1 (proj2 (proj2
               (filter_response_paging Atoi ParseRFC3339 queryCount queryRows
                  params 200 "Retrieved 0 filtered logs (page 3 of 3)" r
                  eq_refl))))
  end.
Defined.

(** ** What the filter endpoints ask of the store *)

Section EndpointQueries.
Import Strings Models Database Handlers.

Lemma parseLimit_bounds (parseInt : string -> option Z)
                        (params : gmap string string) :
  1 <= parseLimit parseInt params <= 1000.
Proof.
  unfold parseLimit. destruct (String.eqb _ ""); [lia|].
  destruct (parseInt _) as [n|]; [|lia].
  destruct (Z.ltb_spec 0 n); destruct (Z.leb_spec n 1000); simpl; lia.
Qed.
End EndpointQueries.

(** X4: the filter endpoint rejects a malformed [start_time], then a
    malformed [end_time], then an [event_type] outside the enumeration,
    then a [priority] other than [normal] and [high], each with its own
    error code; the answer is given for every behaviour of the store, so
    no query has a part in it. *)
Theorem filter_rejections_skip_store
        (Atoi : string -> option Z)
        (ParseRFC3339 : string -> option Models.Time)
        (queryCount : Database.Query -> Database.result Z)
        (queryRows : Database.Query ->
                     Database.result (list (Database.result Models.AnalyticsLog)))
        (params : gmap string string) :
  let param := Handlers.QueryParam params in
  let handle :=
    Handlers.GetFilteredLogsHandler Atoi ParseRFC3339 queryCount queryRows
                                    params in
  let timeOk s := s = "" \/ exists t, ParseRFC3339 s = Some t in
  (~ timeOk (param "start_time") ->
   handle = Handlers.badRequest "invalid_start_time"
     "start_time must be in RFC3339 format (e.g., 2023-01-01T00:00:00Z)")
  /\ (timeOk (param "start_time") -> ~ timeOk (param "end_time") ->
      handle = Handlers.badRequest "invalid_end_time"
        "end_time must be in RFC3339 format (e.g., 2023-01-01T00:00:00Z)")
  /\ (timeOk (param "start_time") -> timeOk (param "end_time") ->
      param "event_type" <> "" ->
      ~ In (param "event_type") Handlers.eventTypes ->
      handle = Handlers.badRequest "invalid_event_type"
        "event_type must be one of: behavioral, telemetry, observability, error, performance")
  /\ (timeOk (param "start_time") -> timeOk (param "end_time") ->
      (param "event_type" = "" \/ In (param "event_type") Handlers.eventTypes) ->
      ~ In (param "priority") [""; "normal"; "high"] ->
      handle = Handlers.badRequest "invalid_priority"
        "priority must be either 'normal' or 'high'").
Proof.
  intros param handle timeOk.
  assert (Hbad : forall s, ~ timeOk s ->
            exists e, Handlers.parseTime ParseRFC3339 s = Database.Err e).
  { intros s Hs. unfold Handlers.parseTime.
    destruct (String.eqb_spec s ""); [exfalso; apply Hs; now left|].
    destruct (ParseRFC3339 s) as [t|] eqn:E; [|eauto].
    exfalso. apply Hs. right. eauto. }
  assert (Hgood : forall s, timeOk s ->
            exists t, Handlers.parseTime ParseRFC3339 s = Database.Ok t).
  { intros s [->|[t Ht]]; unfold Handlers.parseTime.
    - exists None. reflexivity.
    - destruct (String.eqb s ""); [eauto|]. rewrite Ht. eauto. }
  subst handle. unfold Handlers.GetFilteredLogsHandler. fold param.
  split; [|split; [|split]].
  - intros H. destruct (Hbad _ H) as [e ->]. reflexivity.
  - intros H1 H2. destruct (Hgood _ H1) as [t ->].
    destruct (Hbad _ H2) as [e ->]. reflexivity.
  - intros H1 H2 Hne Hnin. destruct (Hgood _ H1) as [t1 ->].
    destruct (Hgood _ H2) as [t2 ->]. cbn [Database.FEventType].
    apply String.eqb_neq in Hne. rewrite Hne.
    apply oneof_not_In in Hnin. rewrite Hnin. reflexivity.
  - intros H1 H2 Het Hnin. destruct (Hgood _ H1) as [t1 ->].
    destruct (Hgood _ H2) as [t2 ->].
    cbn [Database.FEventType Database.FPriority].
    assert (Hfirst : negb (String.eqb (param "event_type") "")
                     && negb (Handlers.oneof Handlers.eventTypes
                                             (param "event_type")) = false).
    { destruct Het as [->|Hin]; [reflexivity|].
      apply oneof_In in Hin. rewrite Hin. apply andb_false_r. }
    rewrite Hfirst.
    assert (Hsecond : negb (String.eqb (param "priority") "")
                      && negb (String.eqb (param "priority") "normal")
                      && negb (String.eqb (param "priority") "high") = true).
    { simpl in Hnin.
      destruct (String.eqb_spec (param "priority") "");
        destruct (String.eqb_spec (param "priority") "normal");
        destruct (String.eqb_spec (param "priority") "high");
        try reflexivity; exfalso; apply Hnin; auto. }
    rewrite Hsecond. reflexivity.
Qed.

Lemma filter_rejections_skip_store_witness :
  let Atoi := fun _ : string => @None Z in
  let ParseRFC3339 := fun s : string =>
    if String.eqb s "2023-01-01T00:00:00Z" then Some 63808128000000000000
    else None in
  let queryCount := fun _ : Database.Query => Database.Ok 0 in
  let queryRows := fun _ : Database.Query =>
    @Database.Ok (list (Database.result Models.AnalyticsLog)) [] in
  Handlers.GetFilteredLogsHandler Atoi ParseRFC3339 queryCount queryRows
    {[ "start_time" := "2023-01-01T00:00:00Z"; "event_type" := "not_a_real_type";
       "priority" := "urgent" ]}
  = Handlers.badRequest "invalid_event_type"
      "event_type must be one of: behavioral, telemetry, observability, error, performance".
Proof.
  intros Atoi ParseRFC3339 queryCount queryRows.
  match goal with
  | |- Handlers.GetFilteredLogsHandler _ _ _ _ ?params = _ =>
      destruct (filter_rejections_skip_store Atoi ParseRFC3339 queryCount
                  queryRows params) as (_ & _ & H & _)
  end.
  apply H.
  - right. exists 63808128000000000000. reflexivity.
  - left. reflexivity.
  - vm_compute. discriminate.
  - vm_compute. intuition discriminate.
Defined.

(** X5: the filter endpoint never asks the store for a page of more than
    1000 rows, nor of fewer than one: its answer depends on the row query
    of the store only through statements whose limit is from 1 to 1000. *)
Theorem filter_endpoint_bounded_limit
        (Atoi : string -> option Z)
        (ParseRFC3339 : string -> option Models.Time)
        (queryCount : Database.Query -> Database.result Z)
        (queryRows queryRows' :
           Database.Query ->
           Database.result (list (Database.result Models.AnalyticsLog)))
        (params : gmap string string) :
  (forall f, 1 <= Database.Limit f <= 1000 ->
             queryRows (Database.pageQueryOf f)
             = queryRows' (Database.pageQueryOf f)) ->
  Handlers.GetFilteredLogsHandler Atoi ParseRFC3339 queryCount queryRows params
  = Handlers.GetFilteredLogsHandler Atoi ParseRFC3339 queryCount queryRows'
                                    params.
Proof.
  intros H. unfold Handlers.GetFilteredLogsHandler.
  destruct (Handlers.parseTime ParseRFC3339 _); [|reflexivity].
  destruct (Handlers.parseTime ParseRFC3339 _); [|reflexivity].
  destruct (_ && _); [reflexivity|].
  destruct (_ && _); [reflexivity|].
  unfold Database.GetFilteredLogs. rewrite H; [reflexivity|].
  apply parsePageSize_bounds.
Qed.

Lemma filter_endpoint_bounded_limit_witness :
  let Atoi := fun s : string =>
    if String.eqb s "100000" then Some 100000 else None in
  let ParseRFC3339 := fun _ : string => @None Models.Time in
  let queryCount := fun _ : Database.Query => Database.Ok 0 in
  let inRange := fun a : Database.Arg =>
    match a with
    | Database.ArgInt n => (1 <=? n) && (n <=? 1000)
    | _ => false
    end in
  let queryRows := fun _ : Database.Query =>
    @Database.Ok (list (Database.result Models.AnalyticsLog)) [] in
  let queryRows' := fun q : Database.Query =>
    if existsb inRange (Database.bound q)
    then @Database.Ok (list (Database.result Models.AnalyticsLog)) []
    else Database.Err "pq: out of memory" in
  Handlers.GetFilteredLogsHandler Atoi ParseRFC3339 queryCount queryRows
                                  {[ "page_size" := "100000" ]}
  = Handlers.GetFilteredLogsHandler Atoi ParseRFC3339 queryCount queryRows'
                                    {[ "page_size" := "100000" ]}.
Proof.
  intros Atoi ParseRFC3339 queryCount inRange queryRows queryRows'.
  apply filter_endpoint_bounded_limit.
  intros f Hf. unfold queryRows, queryRows', Database.pageQueryOf. simpl.
  assert (E : existsb inRange (Database.pageArgs f
                 (Database.args (Database.buildConditions f))) = true).
  { unfold Database.pageArgs.
    destruct (Database.hasOffset f); rewrite !existsb_app; simpl;
      destruct (Z.leb_spec 1 (Database.Limit f));
      destruct (Z.leb_spec (Database.Limit f) 1000); simpl;
      rewrite ?orb_true_r; try reflexivity; lia. }
  now rewrite E.
Defined.

(** X6: the recent-logs endpoint asks the store for 1 to 1000 rows
    whatever its [limit] parameter is, 50 when the parameter is absent,
    not a number or out of that range; its answer depends on the store
    only through the fixed statement with such a limit, and a failure of
    the store or of a scan is answered with [database_error]. *)
Theorem recent_endpoint_bounded_limit
        (parseInt : string -> option Z)
        (queryRows queryRows' :
           Database.Query ->
           Database.result (list (Database.result Models.AnalyticsLog)))
        (params : gmap string string) :
  1 <= Handlers.parseLimit parseInt params <= 1000
  /\ ((params !! "limit" = None \/ params !! "limit" = Some ""
       \/ (exists s, params !! "limit" = Some s /\ parseInt s = None)
       \/ (exists s n, params !! "limit" = Some s /\ parseInt s = Some n
                       /\ ~ 1 <= n <= 1000)) ->
      Handlers.parseLimit parseInt params = 50)
  /\ ((forall n, 1 <= n <= 1000 ->
                 queryRows (Database.recentQueryOf n)
                 = queryRows' (Database.recentQueryOf n)) ->
      Handlers.GetRecentLogsHandler parseInt queryRows params
      = Handlers.GetRecentLogsHandler parseInt queryRows' params)
  /\ (forall logs,
        Handlers.GetRecentLogsHandler parseInt queryRows params
        = Handlers.ReplySuccess 200
            ("Retrieved " +:+ Strings.itoa (Handlers.len logs)
             +:+ " recent logs") logs
        <-> queryRows (Database.recentQueryOf
                         (Handlers.parseLimit parseInt params))
            = Database.Ok (map Database.Ok logs)).
Proof.
  pose proof (parseLimit_bounds parseInt params) as Hb.
  split; [exact Hb|]. split; [|split].
  - unfold Handlers.parseLimit.
    intros [->|[->|[(s & -> & Hs)|(s & n & -> & Hs & Hn)]]]; simpl;
      try reflexivity.
    + destruct (String.eqb s ""); [reflexivity|]. now rewrite Hs.
    + destruct (String.eqb s ""); [reflexivity|]. rewrite Hs.
      destruct (Z.ltb_spec 0 n); destruct (Z.leb_spec n 1000); simpl;
        try reflexivity; lia.
  - intros H. unfold Handlers.GetRecentLogsHandler, Database.GetRecentLogs.
    now rewrite (H _ Hb).
  - intros logs. unfold Handlers.GetRecentLogsHandler, Database.GetRecentLogs.
    split.
    + destruct (queryRows _) as [rows|e]; [|discriminate].
      destruct (Database.scanRows _ rows []) as [ls|e] eqn:E; [|discriminate].
      intros [= _ <-]. apply scanRows_ok in E as (scanned & -> & ->).
      reflexivity.
    + intros ->.
      assert (E : Database.scanRows "failed to scan log: "
                    (map Database.Ok logs) [] = Database.Ok logs).
      { apply scanRows_ok. exists logs. split; reflexivity. }
      now rewrite E.
Qed.

Lemma recent_endpoint_bounded_limit_witness :
  let parseInt := fun s : string =>
    if String.eqb s "-5" then Some (-5) else None in
  let queryRows := fun _ : Database.Query =>
    @Database.Ok (list (Database.result Models.AnalyticsLog)) [] in
  Handlers.parseLimit parseInt {[ "limit" := "-5" ]} = 50.
Proof.
  intros parseInt queryRows.
  destruct (recent_endpoint_bounded_limit parseInt queryRows queryRows
              {[ "limit" := "-5" ]}) as (_ & H & _).
  apply H. right. right. right. exists "-5", (-5).
  split; [reflexivity|]. split; [reflexivity|]. lia.
Defined.

(** ** Single-event ingestion *)

Section SingleIngest.
Import Strings Models Database Handlers Spec Extra.

Lemma setDefaultValues_idempotent (now : Time) (log : AnalyticsLog) :
  setDefaultValues now (setDefaultValues now log) = setDefaultValues now log.
Proof.
  unfold setDefaultValues, IsZero; simpl.
  destruct log as [id eid ts et en pr uid sid av di sn pri ca pa]; simpl.
  f_equal.
  - destruct (Z.eqb_spec ts 0) as [->|Hts].
    + destruct (Z.eqb_spec now 0); reflexivity.
    + apply Z.eqb_neq in Hts. now rewrite Hts.
  - now destruct pr.
  - now destruct di.
  - destruct (String.eqb_spec pri "") as [->|Hp]; [reflexivity|].
    apply String.eqb_neq in Hp. now rewrite Hp.
Qed.

Lemma checkLogRow_spec (rows : list AnalyticsLog) (log : AnalyticsLog) :
  checkLogRow rows log
  = if negb (fitsRow log)
    then Err "pq: value too long for type character varying"
    else if hasEventID rows (EventID log)
    then Err "pq: duplicate key value violates unique constraint"
    else Ok tt.
Proof. reflexivity. Qed.


Lemma hasEventID_In (rows : list AnalyticsLog) (eventID : string) :
  hasEventID rows eventID = true <-> In eventID (map EventID rows).
Proof.
  unfold hasEventID. rewrite existsb_exists, in_map_iff. split.
  - intros (r & Hin & Hr). apply String.eqb_eq in Hr. eauto.
  - intros (r & Hr & Hin). exists r. split; [exact Hin|].
    now apply String.eqb_eq.
Qed.
End SingleIngest.

Lemma validateStruct_defaults (now : Models.Time)
                               (log : Models.AnalyticsLog) :
  Handlers.validateStruct (Handlers.setDefaultValues now log) = []
  <-> Models.EventID log <> ""
      /\ In (Models.EventType log) Handlers.eventTypes
      /\ Models.EventName log <> ""
      /\ (Models.Priority log = ""
          \/ In (Models.Priority log) Handlers.priorities)
      /\ (Models.Timestamp log <> 0 \/ now <> 0).
Proof.
  assert (Hvalid : Handlers.validateStruct (Handlers.setDefaultValues now log)
                   = []
                   <-> Spec.isValid (Handlers.setDefaultValues now log) = true).
  { unfold Spec.isValid. destruct (Handlers.validateStruct _);
      split; congruence. }
  rewrite Hvalid, isValid_no_offence. unfold Spec.offending.
  destruct log as [id eid ts et en pr uid sid av di sn pri ca pa].
  unfold Handlers.setDefaultValues, Models.IsZero; simpl.
  split.
  - intros H. repeat split.
    + intros ->. apply (H "EventID"). left. auto.
    + destruct (Handlers.oneof Handlers.eventTypes et) eqn:E.
      * now apply oneof_In in E.
      * apply oneof_not_In in E. exfalso. apply (H "EventType").
        right. right. left. auto.
    + intros ->. apply (H "EventName"). do 3 right. left. auto.
    + destruct (String.eqb_spec pri "") as [->|Hp]; [now left|]. right.
      destruct (Handlers.oneof Handlers.priorities pri) eqn:E.
      * now apply oneof_In in E.
      * apply oneof_not_In in E. exfalso. apply (H "Priority").
        do 4 right. auto.
    + destruct (Z.eqb_spec ts 0) as [->|Hts]; [|now left]. right.
      intros ->. apply (H "Timestamp"). right. left. auto.
  - intros (He & Het & Hen & Hp & Ht) field
           [[_ H]|[[_ H]|[[_ H]|[[_ H]|[_ H]]]]]; try contradiction.
    + destruct (Z.eqb_spec ts 0) as [->|Hts]; [|contradiction].
      destruct Ht as [Ht|Ht]; contradiction.
    + destruct (String.eqb_spec pri "") as [->|Hne].
      * apply H. simpl. auto.
      * destruct Hp as [Hp|Hp]; contradiction.
Qed.


(** X7: which logs the ingest endpoints accept.  After the defaults are
    set, the validator passes a log exactly when [event_id] and
    [event_name] are not empty, [event_type] is in the enumeration,
    [priority] is absent or in its enumeration, and the time stamp is
    set or the clock is not at its zero; a log without time stamp and
    priority is therefore accepted.  Setting the defaults twice is
    setting them once. *)
Theorem accepted_after_defaults (now : Models.Time)
                                (log : Models.AnalyticsLog) :
  (Handlers.validateStruct (Handlers.setDefaultValues now log) = []
   <-> Models.EventID log <> ""
       /\ In (Models.EventType log) Handlers.eventTypes
       /\ Models.EventName log <> ""
       /\ (Models.Priority log = ""
           \/ In (Models.Priority log) Handlers.priorities)
       /\ (Models.Timestamp log <> 0 \/ now <> 0))
  /\ Handlers.setDefaultValues now (Handlers.setDefaultValues now log)
     = Handlers.setDefaultValues now log.
Proof.
  split; [apply validateStruct_defaults|apply setDefaultValues_idempotent].
Qed.

Lemma accepted_after_defaults_witness :
  let log := Models.mkAnalyticsLog 0 "e1" 0 "behavioral" "x" None None None
                                   None None None "" 0 None in
  Handlers.validateStruct (Handlers.setDefaultValues 1800 log) = [].
Proof.
  intros log.
  apply (proj1 (accepted_after_defaults 1800 log)).
  repeat split; try discriminate.
  - simpl. auto.
  - now left.
  - right. discriminate.
Defined.

Section SingleIngestOutcomes.
Import Strings Models Database Handlers Spec Extra.

Lemma InsertLog_cases (now : Time) (db : Store) (log : AnalyticsLog) :
  InsertLog now db log
  = if negb (conn_ok db)
    then (db, Err "failed to insert log: driver: bad connection")
    else if negb (fitsRow log)
    then (withSeq db (analytics_logs_id_seq db + 1),
          Err "failed to insert log: pq: value too long for type character varying")
    else if hasEventID (analytics_logs db) (EventID log)
    then (withSeq db (analytics_logs_id_seq db + 1),
          Err "failed to insert log: pq: duplicate key value violates unique constraint")
    else (withLogs db
            (analytics_logs db
             ++ [insertedRow (analytics_logs_id_seq db + 1) now log])
            (analytics_logs_id_seq db + 1),
          Ok (withID log (analytics_logs_id_seq db + 1) now)).
Proof.
  unfold InsertLog. rewrite checkLogRow_spec.
  destruct (negb (conn_ok db)); [reflexivity|].
  destruct (negb (fitsRow log)); [reflexivity|].
  destruct (hasEventID _ _); reflexivity.
Qed.


End SingleIngestOutcomes.





(** ** When a batch goes through *)

Section BatchSuccess.
Import Strings Models Database Handlers Spec Extra.




Lemma execAll_seq (now : Time) (logs : list AnalyticsLog) :
  forall tx, tx_seq tx <= tx_seq (fst (execAll now tx logs)).
Proof.
  induction logs as [|log logs IH]; intros tx; simpl; [lia|].
  destruct (txExec now tx log) as [tx1 [u|e]] eqn:E.
  - specialize (IH tx1). apply txExec_ok in E as (_ & _ & Hs). lia.
  - unfold txExec in E. destruct (checkLogRow _ _); injection E as <- _;
      simpl; lia.
Qed.
End BatchSuccess.



(** ** The constraints of the table of logs *)

Section LogsConsistent.
Import Strings Models Database Handlers Spec Extra.

Lemma rowsConsistent_seq (rows : list AnalyticsLog) (seq seq' : Z) :
  seq <= seq' -> rowsConsistent rows seq -> rowsConsistent rows seq'.
Proof.
  intros Hle (H1 & H2 & H3). repeat split; try assumption.
  intros r Hr. specialize (H3 r Hr). lia.
Qed.

Lemma rowsConsistent_insert (rows : list AnalyticsLog) (seq : Z)
                            (now : Time) (log : AnalyticsLog) :
  rowsConsistent rows seq ->
  hasEventID rows (EventID log) = false ->
  rowsConsistent (rows ++ [insertedRow (seq + 1) now log]) (seq + 1).
Proof.
  intros (H1 & H2 & H3) Hnew. unfold rowsConsistent.
  rewrite !map_app. simpl. repeat split.
  - apply NoDup_app. split; [exact H1|]. split; [|apply NoDup_singleton].
    intros x Hx Hx'. apply list_elem_of_singleton in Hx'. subst x.
    apply list_elem_of_In, hasEventID_In in Hx. congruence.
  - apply NoDup_app. split; [exact H2|]. split; [|apply NoDup_singleton].
    intros x Hx Hx'. apply list_elem_of_singleton in Hx'. subst x.
    apply list_elem_of_In, in_map_iff in Hx as (r & Hr & Hin).
    specialize (H3 r Hin). lia.
  - intros r [Hr|[<-|[]]]%in_app_or; [|simpl; lia].
    specialize (H3 r Hr). lia.
Qed.

Lemma txExec_consistent (now : Time) (tx : Tx) (log : AnalyticsLog) :
  rowsConsistent (tx_rows tx) (tx_seq tx) ->
  rowsConsistent (tx_rows (fst (txExec now tx log)))
                 (tx_seq (fst (txExec now tx log))).
Proof.
  intros H. unfold txExec. rewrite checkLogRow_spec. cbv zeta.
  destruct (negb (fitsRow log)); cbn [fst tx_rows tx_seq].
  { apply (rowsConsistent_seq _ (tx_seq tx)); [lia|exact H]. }
  destruct (hasEventID (tx_rows tx) (EventID log)) eqn:E;
    cbn [fst tx_rows tx_seq].
  - apply (rowsConsistent_seq _ (tx_seq tx)); [lia|exact H].
  - now apply rowsConsistent_insert.
Qed.

Lemma execAll_consistent (now : Time) (logs : list AnalyticsLog) :
  forall tx,
    rowsConsistent (tx_rows tx) (tx_seq tx) ->
    rowsConsistent (tx_rows (fst (execAll now tx logs)))
                   (tx_seq (fst (execAll now tx logs))).
Proof.
  induction logs as [|log logs IH]; intros tx H; simpl; [exact H|].
  pose proof (txExec_consistent now tx log H) as H1.
  destruct (txExec now tx log) as [tx1 [u|e]]; simpl in *.
  - now apply IH.
  - exact H1.
Qed.

Lemma InsertLogsBatch_consistent (now : Time) (db : Store)
                                 (logs : list AnalyticsLog) :
  logsConsistent db -> logsConsistent (fst (InsertLogsBatch now db logs)).
Proof.
  intros H. unfold InsertLogsBatch. destruct logs as [|l logs]; [exact H|].
  destruct (negb (conn_ok db)); [exact H|].
  set (tx := mkTx (analytics_logs db) (analytics_logs_id_seq db)).
  pose proof (execAll_consistent now (l :: logs) tx H) as Hc.
  pose proof (execAll_seq now (l :: logs) tx) as Hs.
  destruct (execAll now tx (l :: logs)) as [tx' [u|e]]; simpl in *.
  - destruct (commit_ok db); simpl; [exact Hc|].
    apply (rowsConsistent_seq _ (analytics_logs_id_seq db)); assumption.
  - apply (rowsConsistent_seq _ (analytics_logs_id_seq db)); assumption.
Qed.

Lemma InsertLog_consistent (now : Time) (db : Store) (log : AnalyticsLog) :
  logsConsistent db -> logsConsistent (fst (InsertLog now db log)).
Proof.
  intros H. rewrite InsertLog_cases.
  destruct (negb (conn_ok db)); [exact H|].
  destruct (negb (fitsRow log)).
  { apply (rowsConsistent_seq _ (analytics_logs_id_seq db));
      [simpl; lia|exact H]. }
  destruct (hasEventID _ _) eqn:E.
  - apply (rowsConsistent_seq _ (analytics_logs_id_seq db));
      [simpl; lia|exact H].
  - now apply rowsConsistent_insert.
Qed.
End LogsConsistent.

(** X11: the writes to the table of logs keep its constraints.  If the
    event ids and the ids of the table are unique and no id is ahead of
    the sequence, the same holds after [InsertLog], after
    [InsertLogsBatch], and after any request to the single-event or the
    batch endpoint, whether it succeeded or not. *)
Theorem log_writes_keep_constraints (now : Models.Time)
                                    (db : Database.Store) :
  Extra.logsConsistent db ->
  (forall log, Extra.logsConsistent (fst (Database.InsertLog now db log)))
  /\ (forall logs,
        Extra.logsConsistent (fst (Database.InsertLogsBatch now db logs)))
  /\ (forall body,
        Extra.logsConsistent (fst (Handlers.IngestSingle now db body)))
  /\ (forall body,
        Extra.logsConsistent (fst (Handlers.IngestBatch now db body))).
Proof.
  intros H. split; [|split; [|split]].
  - intros log. now apply InsertLog_consistent.
  - intros logs. now apply InsertLogsBatch_consistent.
  - intros [log|]; [|exact H]. unfold Handlers.IngestSingle.
    destruct (Handlers.validateStruct _); [|exact H].
    pose proof (InsertLog_consistent now db
                  (Handlers.setDefaultValues now log) H) as Hc.
    destruct (Database.InsertLog now db _) as [db' [l|e]]; [exact Hc|].
    destruct (Strings.Contains e "duplicate key"); exact Hc.
  - intros [req|]; [|exact H]. unfold Handlers.IngestBatch.
    destruct (_ =? 0); [exact H|]. destruct (_ <? _); [exact H|].
    destruct (Handlers.validateBatch _ _ _ _ _) as [errs validLogs].
    destruct (0 <? _); [exact H|].
    pose proof (InsertLogsBatch_consistent now db validLogs H) as Hc.
    destruct (Database.InsertLogsBatch now db validLogs) as [db' [u|e]];
      exact Hc.
Qed.

Lemma log_writes_keep_constraints_witness :
  let log id :=
    Models.mkAnalyticsLog 0 id 1700 "telemetry" "boot" None None None None
                          None None "high" 0 None in
  Extra.logsConsistent
    (fst (Handlers.IngestBatch 1800 (Database.mkStore true true [] [] 0 0)
            (Some (Models.mkBatchRequest [log "a"; log "b"; log "a"])))).
Proof.
  intros log.
  apply (log_writes_keep_constraints 1800
           (Database.mkStore true true [] [] 0 0)).
  repeat split; try constructor. intros r [].
Defined.

(** ** Entries of the batch error answer *)

Section ErrorEntries.
Import Strings Models Database Handlers Spec Extra.

Lemma bracket_not_plain : isDigitOrDash "]"%char = false.
Proof. reflexivity. Qed.

(** A text of digits and dashes ends where the first bracket stands. *)
Lemma plain_prefix_unique (a : string) :
  forall b x y,
    plain a -> plain b ->
    a +:+ String "]"%char x = b +:+ String "]"%char y ->
    a = b /\ x = y.
Proof.
  induction a as [|c a IH]; intros b x y Ha Hb H.
  - destruct b as [|d b]; simpl in H.
    + injection H as ->. auto.
    + injection H as <- _. exfalso.
      assert (Hd : isDigitOrDash "]"%char = true).
      { apply Hb. simpl. now rewrite ?Ascii.eqb_refl. }
      discriminate.
  - destruct b as [|d b]; simpl in H.
    + injection H as -> _. exfalso.
      assert (Hd : isDigitOrDash "]"%char = true).
      { apply Ha. simpl. now rewrite ?Ascii.eqb_refl. }
      discriminate.
    + injection H as <- H.
      destruct (IH b x y) as [-> ->]; auto.
      * intros e He. apply Ha. simpl. rewrite He. apply orb_true_r.
      * intros e He. apply Hb. simpl. rewrite He. apply orb_true_r.
Qed.

Lemma indexed_name_inj (i j : Z) (fa fb : string) :
  "logs[" +:+ itoa i +:+ "]." +:+ fa = "logs[" +:+ itoa j +:+ "]." +:+ fb ->
  i = j /\ fa = fb.
Proof.
  intros H. apply (String.app_inj "logs[") in H.
  apply plain_prefix_unique in H as [Hi Hf]; try apply plain_itoa.
  split.
  - unfold itoa in Hi. now apply (inj pretty) in Hi.
  - now injection Hf.
Qed.

Lemma conn_ok_InsertLogsBatch (now : Time) (db : Store)
                              (logs : list AnalyticsLog) :
  conn_ok (fst (InsertLogsBatch now db logs)) = conn_ok db.
Proof.
  unfold InsertLogsBatch. destruct logs; [reflexivity|].
  destruct (negb (conn_ok db)); [reflexivity|].
  destruct (execAll _ _ _) as [tx' [u|e]]; [|reflexivity].
  destruct (commit_ok db); reflexivity.
Qed.
End ErrorEntries.

(** X12: an entry of the batch error answer names its log and its field
    without ambiguity: two entry names [logs[i].F] and [logs[j].G] are
    equal only if [i = j] and [F = G]. *)
Theorem error_entry_names_its_log (i j : Z) (a b : Models.ValidationError) :
  Models.Field (Handlers.tagWithIndex i a)
  = Models.Field (Handlers.tagWithIndex j b) ->
  i = j /\ Models.Field a = Models.Field b.
Proof. unfold Handlers.tagWithIndex; simpl. apply indexed_name_inj. Qed.

Lemma error_entry_names_its_log_witness :
  12 = 12
  /\ Models.Field (Models.mkValidationError "EventID" "This field is required")
     = Models.Field (Models.mkValidationError "EventID" "other").
Proof.
  apply (error_entry_names_its_log 12 12
           (Models.mkValidationError "EventID" "This field is required")
           (Models.mkValidationError "EventID" "other")).
  reflexivity.
Defined.

(** X13: the counts of the batch endpoint.  In a success answer
    [logs_processed] and [total_received] are both the number of logs of
    the request, from 1 to 1000, and a count query after it reports that
    many rows more than one before it; after an error answer the count
    query reports what it reported before. *)
Theorem batch_counts (now : Models.Time) (db db' : Database.Store)
                     (body : option Models.BatchRequest)
                     (resp : Handlers.Response) :
  Handlers.IngestBatch now db body = (db', resp) ->
  match resp with
  | Handlers.ErrorJSON _ _ => Database.GetLogCount db' = Database.GetLogCount db
  | Handlers.SuccessJSON status _ data =>
      exists req n,
        body = Some req /\ n = Z.of_nat (length (Models.Logs req))
        /\ status = 201
        /\ data = Handlers.BatchData n n
        /\ 1 <= n <= 1000
        /\ Database.GetLogCount db
           = Database.Ok (Z.of_nat (length (Database.analytics_logs db)))
        /\ Database.GetLogCount db'
           = Database.Ok (Z.of_nat (length (Database.analytics_logs db)) + n)
  end.
Proof.
  intros H.
  assert (Hconn : Database.conn_ok db' = Database.conn_ok db).
  { destruct body as [req|]; [|injection H as <- _; reflexivity].
    unfold Handlers.IngestBatch in H.
    destruct (_ =? 0); [injection H as <- _; reflexivity|].
    destruct (_ <? _); [injection H as <- _; reflexivity|].
    destruct (Handlers.validateBatch _ _ _ _ _) as [errs validLogs].
    destruct (0 <? _); [injection H as <- _; reflexivity|].
    pose proof (conn_ok_InsertLogsBatch now db validLogs) as Hc.
    destruct (Database.InsertLogsBatch now db validLogs) as [db1 [u|e]];
      injection H as <- _; exact Hc. }
  pose proof (IngestBatch_whole_or_none now db db' body resp H) as Hrows.
  destruct resp as [status e|status message data].
  - unfold Database.GetLogCount. now rewrite Hconn, Hrows.
  - destruct Hrows as (req & -> & Hrows).
    destruct (Nat.eq_dec (length (Models.Logs req)) 0%nat) as [E0|E0].
    { unfold Handlers.IngestBatch, Handlers.len in H. rewrite E0 in H.
      discriminate. }
    destruct (le_lt_dec (length (Models.Logs req)) 1000%nat) as [Ele|Egt].
    + rewrite IngestBatch_sized in H by lia.
      destruct (Spec.batchErrors now (Models.Logs req)); [|discriminate].
      cbv zeta in H.
      destruct (Database.InsertLogsBatch now db _) as [db1 [u|e]] eqn:Ei;
        [|discriminate].
      injection H as <- <- _ <-.
      assert (Hc : Database.conn_ok db = true).
      { unfold Database.InsertLogsBatch in Ei.
        destruct (map _ (Models.Logs req)) eqn:Em.
        - apply map_eq_nil in Em. rewrite Em in E0. contradiction.
        - destruct (Database.conn_ok db); [reflexivity|discriminate]. }
      exists req, (Z.of_nat (length (Models.Logs req))).
      unfold Database.GetLogCount, Handlers.len.
      rewrite Hconn, Hc, Hrows, length_app, length_imap, !length_map. simpl.
      repeat split; try lia. f_equal. lia.
    + unfold Handlers.IngestBatch, Handlers.len, Handlers.maxBatchSize in H.
      destruct (Z.eqb_spec (Z.of_nat (length (Models.Logs req))) 0); [lia|].
      destruct (Z.ltb_spec 1000 (Z.of_nat (length (Models.Logs req))));
        [discriminate|lia].
Qed.

Lemma batch_counts_witness :
  let log id :=
    Models.mkAnalyticsLog 0 id 1700 "telemetry" "boot" None None None None
                          None None "high" 0 None in
  let db := Database.mkStore true true [] [] 0 0 in
  Database.GetLogCount
    (fst (Handlers.IngestBatch 1800 db
            (Some (Models.mkBatchRequest [log "a"; log "b"; log "a"]))))
  = Database.GetLogCount db.
Proof.
  intros log db.
  set (body := Some (Models.mkBatchRequest [log "a"; log "b"; log "a"])).
  apply (batch_counts 1800 db (fst (Handlers.IngestBatch 1800 db body)) body
           (Handlers.ErrorJSON 500
              (Models.mkErrorResponse "database_error"
                                      "Failed to store logs" []))).
  reflexivity.
Defined.

(** ** The table of keys *)

Section KeyTable.
Import Strings Models Database Auth Spec Extra.

Lemma InsertAPIKey_ok (now : Time) (db db' : Store) (apiKey stored : APIKey) :
  InsertAPIKey now db apiKey = (db', Ok stored) ->
  conn_ok db = true
  /\ hasKeyHash (api_keys db) (KeyHash apiKey) = false
  /\ api_keys db'
     = api_keys db
       ++ [mkAPIKey (api_keys_id_seq db + 1) (KeyHash apiKey) (Name apiKey)
                    (IsActive apiKey) now None (ExpiresAt apiKey) 0]
  /\ api_keys_id_seq db' = api_keys_id_seq db + 1
  /\ conn_ok db' = true
  /\ stored = mkAPIKey (api_keys_id_seq db + 1) (KeyHash apiKey)
                       (Name apiKey) (IsActive apiKey) now
                       (LastUsedAt apiKey) (ExpiresAt apiKey)
                       (UsageCount apiKey).
Proof.
  unfold InsertAPIKey. destruct (conn_ok db) eqn:Ec; [|discriminate]. simpl.
  destruct (negb _); [discriminate|].
  destruct (hasKeyHash _ _); [discriminate|].
  intros [= <- <-]. simpl. repeat split; assumption || reflexivity.
Qed.

Lemma hasKeyHash_false (rows : list APIKey) (h : string) :
  hasKeyHash rows h = false <-> ~ In h (map KeyHash rows).
Proof.
  unfold hasKeyHash. rewrite <- not_true_iff_false, existsb_exists, in_map_iff.
  split; intros H (k & H1 & H2); apply H.
  - exists k. split; [exact H2|]. now apply String.eqb_eq.
  - exists k. apply String.eqb_eq in H2. auto.
Qed.

Lemma find_key_absent (rows : list APIKey) (h : string) :
  hasKeyHash rows h = false ->
  List.find (fun k => String.eqb (KeyHash k) h && IsActive k) rows = None.
Proof.
  intros H. induction rows as [|k rows IH]; [reflexivity|].
  simpl in *. apply orb_false_iff in H as [H1 H2]. rewrite H1. simpl.
  now apply IH.
Qed.

Lemma find_other_hash (rows : list APIKey) (k : APIKey) (h : string) :
  KeyHash k <> h ->
  List.find (fun x => String.eqb (KeyHash x) h && IsActive x) (rows ++ [k])
  = List.find (fun x => String.eqb (KeyHash x) h && IsActive x) rows.
Proof.
  intros Hne. induction rows as [|x rows IH]; simpl.
  - apply String.eqb_neq in Hne. now rewrite Hne.
  - destruct (_ && _); [reflexivity|exact IH].
Qed.

(** The lookup after a usage update finds the record it found before,
    with the update on it. *)
Lemma find_used (now : Time) (h h' : string) (rows : list APIKey) :
  List.find (fun k => String.eqb (KeyHash k) h' && IsActive k)
            (map (used now h) rows)
  = used now h
      <$> List.find (fun k => String.eqb (KeyHash k) h' && IsActive k) rows.
Proof.
  induction rows as [|k rows IH]; [reflexivity|]. simpl.
  assert (Hsame : String.eqb (KeyHash (used now h k)) h'
                  && IsActive (used now h k)
                  = String.eqb (KeyHash k) h' && IsActive k).
  { unfold used. now destruct (String.eqb (KeyHash k) h). }
  rewrite Hsame.
  destruct (String.eqb (KeyHash k) h' && IsActive k); [reflexivity|exact IH].
Qed.

Lemma UpdateAPIKeyUsage_rows (now : Time) (db : Store) (h : string) :
  conn_ok db = true ->
  UpdateAPIKeyUsage now db h
  = (withKeys db (map (used now h) (api_keys db)) (api_keys_id_seq db), Ok tt).
Proof. intros Hc. unfold UpdateAPIKeyUsage. rewrite Hc. reflexivity. Qed.

Lemma GetAPIKey_used (now : Time) (db : Store) (h h' : string) :
  GetAPIKey (fst (UpdateAPIKeyUsage now db h)) h'
  = match GetAPIKey db h' with
    | Ok found => Ok (used now h <$> found)
    | Err e => Err e
    end.
Proof.
  unfold UpdateAPIKeyUsage, GetAPIKey.
  destruct (conn_ok db) eqn:Ec; simpl; rewrite Ec; simpl; [|reflexivity].
  f_equal. apply find_used.
Qed.

Lemma used_fields (now : Time) (h : string) (k : APIKey) :
  IsActive (used now h k) = IsActive k
  /\ expired now (used now h k) = expired now k
  /\ forall t, expired t (used now h k) = expired t k.
Proof. unfold used, expired. destruct (String.eqb (KeyHash k) h); auto. Qed.

(** The middleware looks at nothing of the record but [is_active] and
    [expires_at]. *)
Lemma AuthMiddleware_used (hashAPIKey : string -> string) (t now : Time)
                          (svc : AuthService) (db : Store) (h : string)
                          (r : Header) :
  AuthMiddleware hashAPIKey t svc (fst (UpdateAPIKeyUsage now db h)) r
  = AuthMiddleware hashAPIKey t svc db r.
Proof.
  unfold AuthMiddleware. destruct (String.eqb _ ""); [reflexivity|].
  destruct (isValidCachedKey _ _ _) as [svc1 hit].
  destruct hit; [reflexivity|]. rewrite GetAPIKey_used.
  destruct (GetAPIKey db _) as [[k|]|e]; simpl; [|reflexivity..].
  destruct (used_fields now h k) as (-> & _ & ->). reflexivity.
Qed.
End KeyTable.

(** X14: a key that [InsertAPIKey] stored is found by [GetAPIKey] when
    it is active, with the next id of the sequence, the time of the
    insert, no use recorded and a count of zero, and is not found when it
    was stored inactive; lookups of other hashes are as before; and a
    second insert under the same hash fails. *)
Theorem inserted_key_is_found (now : Models.Time) (db db' : Database.Store)
                              (apiKey stored : Models.APIKey) :
  Database.InsertAPIKey now db apiKey = (db', Database.Ok stored) ->
  let row := Models.mkAPIKey (Database.api_keys_id_seq db + 1)
               (Models.KeyHash apiKey) (Models.Name apiKey)
               (Models.IsActive apiKey) now None (Models.ExpiresAt apiKey) 0 in
  Database.GetAPIKey db' (Models.KeyHash apiKey)
  = Database.Ok (if Models.IsActive apiKey then Some row else None)
  /\ Models.KeyID stored = Database.api_keys_id_seq db + 1
  /\ Models.KeyCreatedAt stored = now
  /\ (forall h, h <> Models.KeyHash apiKey ->
        Database.GetAPIKey db' h = Database.GetAPIKey db h)
  /\ (forall now' again,
        Models.KeyHash again = Models.KeyHash apiKey ->
        exists db'' e,
          Database.InsertAPIKey now' db' again = (db'', Database.Err e)
          /\ Database.api_keys db'' = Database.api_keys db').
Proof.
  intros H row.
  apply InsertAPIKey_ok in H as (Hc & Hnew & Hrows & Hseq & Hc' & ->).
  fold row in Hrows. split; [|split; [|split; [|split]]]; try reflexivity.
  - unfold Database.GetAPIKey. rewrite Hc', Hrows. simpl. f_equal.
    rewrite (find_append_none _ _ _ (find_key_absent _ _ Hnew)). simpl.
    rewrite String.eqb_refl. simpl. now destruct (Models.IsActive apiKey).
  - intros h Hne. unfold Database.GetAPIKey. rewrite Hc, Hc', Hrows. simpl.
    f_equal. apply find_other_hash. simpl. congruence.
  - intros now' again Hagain. unfold Database.InsertAPIKey.
    rewrite Hc'. simpl. destruct (negb _).
    + eexists _, _. split; reflexivity.
    + assert (Hhas : Database.hasKeyHash (Database.api_keys db')
                                         (Models.KeyHash again) = true).
      { rewrite Hrows, Hagain. unfold Database.hasKeyHash.
        rewrite existsb_app. simpl. rewrite String.eqb_refl.
        now rewrite orb_true_r. }
      rewrite Hhas. eexists _, _. split; reflexivity.
Qed.

Lemma inserted_key_is_found_witness :
  let db := Database.mkStore true true [] [] 0 0 in
  let apiKey := Models.mkAPIKey 0 "9f86d081" "ci" true 0 None (Some 5000) 0 in
  Database.GetAPIKey (fst (Database.InsertAPIKey 100 db apiKey)) "9f86d081"
  = Database.Ok (Some (Models.mkAPIKey 1 "9f86d081" "ci" true 100 None
                                       (Some 5000) 0)).
Proof.
  intros db apiKey.
  exact (proj1 (inserted_key_is_found 100 db
                  (fst (Database.InsertAPIKey 100 db apiKey)) apiKey
                  (Models.mkAPIKey 1 "9f86d081" "ci" true 100 None
                                   (Some 5000) 0) eq_refl)).
Defined.

(** X15: a usage update never changes an authentication decision.  On a
    working connection it adds one to [usage_count] and sets
    [last_used_at] on the records with the hash and on no other; every
    lookup finds the record it found before; the middleware decides every
    request as it would have without the update; and for a hash that no
    record has the table stays as it is, without an error. *)
Theorem usage_update_keeps_decisions (now : Models.Time)
                                     (db : Database.Store) (h : string) :
  let db' := fst (Database.UpdateAPIKeyUsage now db h) in
  (forall hashAPIKey t svc r,
     Auth.AuthMiddleware hashAPIKey t svc db' r
     = Auth.AuthMiddleware hashAPIKey t svc db r)
  /\ (forall h', Database.GetAPIKey db' h'
                 = match Database.GetAPIKey db h' with
                   | Database.Ok found =>
                       Database.Ok (Extra.used now h <$> found)
                   | Database.Err e => Database.Err e
                   end)
  /\ (Database.conn_ok db = true ->
      Database.api_keys db' = map (Extra.used now h) (Database.api_keys db)
      /\ (forall k, Models.KeyHash k = h ->
            Models.UsageCount (Extra.used now h k) = Models.UsageCount k + 1
            /\ Models.LastUsedAt (Extra.used now h k) = Some now)
      /\ (forall k, Models.KeyHash k <> h -> Extra.used now h k = k)
      /\ (~ In h (map Models.KeyHash (Database.api_keys db)) ->
          Database.UpdateAPIKeyUsage now db h = (db, Database.Ok tt)))
  /\ (Database.conn_ok db = false -> db' = db).
Proof.
  intros db'. split; [|split; [|split]].
  - intros. apply AuthMiddleware_used.
  - intros h'. apply GetAPIKey_used.
  - intros Hc. subst db'. rewrite (UpdateAPIKeyUsage_rows now db h Hc).
    split; [reflexivity|]. split; [|split].
    + intros k Hk. unfold Extra.used. apply String.eqb_eq in Hk.
      rewrite Hk. auto.
    + intros k Hk. unfold Extra.used. apply String.eqb_neq in Hk.
      now rewrite Hk.
    + intros Hnin. f_equal.
      assert (Hmap : map (Extra.used now h) (Database.api_keys db)
                     = Database.api_keys db).
      { induction (Database.api_keys db) as [|k rows IH]; [reflexivity|].
        simpl in *. rewrite IH by tauto. f_equal.
        unfold Extra.used.
        destruct (String.eqb_spec (Models.KeyHash k) h); [|reflexivity].
        exfalso. apply Hnin. now left. }
      unfold Database.withKeys. rewrite Hmap. now destruct db.
  - intros Hc. subst db'. unfold Database.UpdateAPIKeyUsage.
    now rewrite Hc.
Qed.

Lemma usage_update_keeps_decisions_witness :
  let k := Models.mkAPIKey 1 "9f86d081" "ci" true 10 None None 41 in
  let db := Database.mkStore true true [] [k] 0 1 in
  Database.api_keys (fst (Database.UpdateAPIKeyUsage 700 db "9f86d081"))
  = [Models.mkAPIKey 1 "9f86d081" "ci" true 10 (Some 700) None 42]
  /\ Database.UpdateAPIKeyUsage 700 db "unknown" = (db, Database.Ok tt).
Proof.
  intros k db.
  destruct (usage_update_keeps_decisions 700 db "9f86d081")
    as (_ & _ & H & _).
  destruct (usage_update_keeps_decisions 700 db "unknown")
    as (_ & _ & H' & _).
  split.
  - rewrite (proj1 (H eq_refl)). reflexivity.
  - apply (H' eq_refl). simpl. intros [H0|[]]. discriminate.
Defined.

Section KeysConsistent.
Import Strings Models Database Auth Spec Extra.
Variable hashAPIKey : string -> string.
Variable formatDate : Time -> string.

Lemma InsertAPIKey_consistent (now : Time) (db : Store) (apiKey : APIKey) :
  keysConsistent db -> keysConsistent (fst (InsertAPIKey now db apiKey)).
Proof.
  intros (H1 & H2 & H3). unfold InsertAPIKey.
  destruct (negb (conn_ok db)); [now repeat split|]. cbv zeta.
  assert (Hseq : keysConsistent
                   (withKeys db (api_keys db) (api_keys_id_seq db + 1))).
  { repeat split; try assumption. simpl. intros k Hk.
    specialize (H3 k Hk). lia. }
  destruct (negb (_ && _)); [exact Hseq|].
  destruct (hasKeyHash _ _) eqn:E; [exact Hseq|].
  unfold keysConsistent. cbn [fst api_keys api_keys_id_seq withKeys].
  rewrite !map_app. simpl. repeat split.
  - apply NoDup_app. split; [exact H1|]. split; [|apply NoDup_singleton].
    intros x Hx Hx'. apply list_elem_of_singleton in Hx'. subst x.
    apply list_elem_of_In in Hx. now apply hasKeyHash_false in E.
  - apply NoDup_app. split; [exact H2|]. split; [|apply NoDup_singleton].
    intros x Hx Hx'. apply list_elem_of_singleton in Hx'. subst x.
    apply list_elem_of_In, in_map_iff in Hx as (r & Hr & Hin).
    specialize (H3 r Hin). lia.
  - intros r [Hr|[<-|[]]]%in_app_or; [|simpl; lia].
    specialize (H3 r Hr). lia.
Qed.

Lemma used_ids (now : Time) (h : string) (rows : list APIKey) :
  map KeyHash (map (used now h) rows) = map KeyHash rows
  /\ map KeyID (map (used now h) rows) = map KeyID rows.
Proof.
  rewrite !map_map. split; apply map_ext; intros k; unfold used;
    now destruct (String.eqb (KeyHash k) h).
Qed.

Lemma UpdateAPIKeyUsage_consistent (now : Time) (db : Store) (h : string) :
  keysConsistent db -> keysConsistent (fst (UpdateAPIKeyUsage now db h)).
Proof.
  intros (H1 & H2 & H3). unfold UpdateAPIKeyUsage.
  destruct (negb (conn_ok db)); [now repeat split|].
  unfold keysConsistent. cbn [fst api_keys api_keys_id_seq withKeys].
  destruct (used_ids now h (api_keys db)) as [Eh Ei].
  change (map _ (api_keys db)) with (map (used now h) (api_keys db)).
  rewrite Eh, Ei. repeat split; try assumption.
  intros k (k0 & <- & Hk0)%in_map_iff.
  specialize (H3 k0 Hk0). unfold used.
  now destruct (String.eqb (KeyHash k0) h).
Qed.

Lemma initializeKeys_consistent (now : Time) (keys : list string) :
  forall (svc : AuthService) (db : Store),
    keysConsistent db ->
    keysConsistent
      (snd (fst (initializeKeys hashAPIKey formatDate now svc db keys))).
Proof.
  induction keys as [|key keys IH]; intros svc db H; simpl; [exact H|].
  destruct (GetAPIKey db (hashAPIKey key)) as [[k|]|e]; simpl.
  - now apply IH.
  - match goal with
    | |- context [InsertAPIKey now db ?a] =>
        pose proof (InsertAPIKey_consistent now db a H) as H1;
        destruct (InsertAPIKey now db a) as [db1 [k1|e1]]
    end; simpl in *; [now apply IH|exact H1].
  - exact H.
Qed.

Lemma AuthMiddleware_keeps (now : Time) (svc : AuthService) (db : Store)
                           (r : Header) (x : string) :
  cached svc x = true ->
  cached (fst (fst (AuthMiddleware hashAPIKey now svc db r))) x = true.
Proof.
  intros Hx.
  destruct (AuthMiddleware hashAPIKey now svc db r) as [[svc' out] eff] eqn:E.
  apply AuthMiddleware_cases in E. simpl.
  destruct E as [(Hk & _)|(Hk & _)]; unfold cached in *; rewrite Hk.
  - exact Hx.
  - destruct (decide (hashAPIKey (extractAPIKey r) = x)) as [->|Hne].
    + now rewrite lookup_insert_eq.
    + now rewrite lookup_insert_ne.
Qed.

Lemma serve_keeps (reqs : list Request) :
  forall (svc : AuthService) (x : string),
    cached svc x = true ->
    cached (snd (serve hashAPIKey svc reqs)) x = true.
Proof.
  induction reqs as [|r reqs IH]; intros svc x Hx; simpl; [exact Hx|].
  pose proof (AuthMiddleware_keeps (req_now r) svc (req_db r) (req_header r)
                                   x Hx) as H1.
  destruct (AuthMiddleware hashAPIKey (req_now r) svc (req_db r)
                           (req_header r)) as [[svc1 out] eff].
  simpl in H1. specialize (IH svc1 x H1).
  destruct (serve hashAPIKey svc1 reqs) as [outs svc2]. exact IH.
Qed.

(** A request whose key is in the map is let through without a look at
    the store or at the time. *)
Lemma AuthMiddleware_hit (now : Time) (svc : AuthService) (db : Store)
                         (r : Header) :
  extractAPIKey r <> "" ->
  cached svc (hashAPIKey (extractAPIKey r)) = true ->
  exists svc',
    AuthMiddleware hashAPIKey now svc db r
    = (svc', Next (hashAPIKey (extractAPIKey r)),
       [SpawnUsageUpdate (hashAPIKey (extractAPIKey r))])
    /\ apiKeys svc' = apiKeys svc.
Proof.
  intros Hne Hc. unfold AuthMiddleware.
  apply String.eqb_neq in Hne. rewrite Hne.
  pose proof (isValidCachedKey_spec now svc (hashAPIKey (extractAPIKey r)))
    as [Hk Hhit].
  destruct (isValidCachedKey now svc _) as [svc1 hit]. simpl in Hk, Hhit.
  subst hit. rewrite Hc. exists svc1. auto.
Qed.

Lemma AuthMiddleware_accepts (now : Time) (svc svc' : AuthService)
                             (db : Store) (r : Header) (h : string)
                             (eff : list Effect) :
  AuthMiddleware hashAPIKey now svc db r = (svc', Next h, eff) ->
  extractAPIKey r <> "" /\ h = hashAPIKey (extractAPIKey r)
  /\ cached svc' h = true.
Proof.
  intros H. unfold AuthMiddleware in H.
  destruct (String.eqb_spec (extractAPIKey r) "") as [He|He];
    [discriminate|].
  split; [exact He|].
  pose proof (isValidCachedKey_spec now svc (hashAPIKey (extractAPIKey r)))
    as [Hk Hhit].
  destruct (isValidCachedKey now svc _) as [svc1 hit]. simpl in Hk, Hhit.
  subst hit. destruct (cached svc _) eqn:Hc.
  { injection H as <- <- _. split; [reflexivity|].
    unfold cached in *. now rewrite Hk. }
  destruct (GetAPIKey db _) as [[k|]|e]; try discriminate.
  destruct (negb (IsActive k)); [discriminate|].
  destruct (expired now k); [discriminate|].
  injection H as <- <- _. split; [reflexivity|]. apply cached_setCached_same.
Qed.
End KeysConsistent.

(** X16: the writes to the table of keys keep its constraints.  If the
    hashes and the ids of the table are unique and no id is ahead of the
    sequence, the same holds after [InsertAPIKey], after
    [UpdateAPIKeyUsage], after bootstrap and after [GenerateAPIKey],
    whether they succeeded or not. *)
Theorem key_writes_keep_constraints (hashAPIKey : string -> string)
                                    (now : Models.Time)
                                    (db : Database.Store) :
  Extra.keysConsistent db ->
  (forall apiKey,
     Extra.keysConsistent (fst (Database.InsertAPIKey now db apiKey)))
  /\ (forall h,
        Extra.keysConsistent (fst (Database.UpdateAPIKeyUsage now db h)))
  /\ (forall formatDate svc keys,
        Extra.keysConsistent
          (snd (fst (Auth.InitializeAPIKeys hashAPIKey formatDate now svc db
                                            keys))))
  /\ (forall unixNano clock svc name expiresAt res,
        Auth.GenerateAPIKey hashAPIKey now unixNano clock svc db name
                            expiresAt = Some res ->
        Extra.keysConsistent (snd (fst res))).
Proof.
  intros H. split; [|split; [|split]].
  - intros. now apply InsertAPIKey_consistent.
  - intros. now apply UpdateAPIKeyUsage_consistent.
  - intros formatDate svc keys. unfold Auth.InitializeAPIKeys.
    pose proof (initializeKeys_consistent hashAPIKey formatDate now keys
                                          svc db H) as H1.
    destruct (Auth.initializeKeys _ _ _ _ _ _) as [[svc1 db1] [u|e]];
      exact H1.
  - intros unixNano clock svc name expiresAt res.
    unfold Auth.GenerateAPIKey.
    destruct (Auth.generateRandomString 32 clock) as [random|];
      [|discriminate].
    match goal with
    | |- context [Database.InsertAPIKey now db ?a] =>
        pose proof (InsertAPIKey_consistent now db a H) as H1;
        destruct (Database.InsertAPIKey now db a) as [db1 [k1|e1]]
    end; intros [= <-]; exact H1.
Qed.

Lemma key_writes_keep_constraints_witness :
  let k := Models.mkAPIKey 1 "9f86d081" "ci" true 10 None None 41 in
  let db := Database.mkStore true true [] [k] 0 1 in
  Extra.keysConsistent
    (fst (Database.InsertAPIKey 100 db
            (Models.mkAPIKey 0 "9f86d081" "again" true 0 None None 0)))
  /\ Extra.keysConsistent
       (fst (Database.UpdateAPIKeyUsage 100 db "9f86d081")).
Proof.
  intros k db.
  assert (H : Extra.keysConsistent db).
  { unfold Extra.keysConsistent, db; simpl. repeat split.
    - apply NoDup_singleton.
    - apply NoDup_singleton.
    - intros ? [<-|[]]. simpl. lia. }
  destruct (key_writes_keep_constraints (fun key => key) 100 db H)
    as (H1 & H2 & _).
  split; [apply H1|apply H2].
Defined.

(** X17: a key that was accepted once is accepted from then on.  After a
    request that the middleware let through, and after any requests
    served in between, every request that carries the same key is let
    through from the map, with no lookup in the store: at any later time,
    whatever has become of the record in the store (deactivated, expired,
    deleted) and whether the store can be reached or not. *)
Theorem accepted_key_stays_accepted
        (hashAPIKey : string -> string) (now : Models.Time)
        (svc svc' : Auth.AuthService) (db : Database.Store)
        (r : Auth.Header) (h : string) (eff : list Auth.Effect) :
  Auth.AuthMiddleware hashAPIKey now svc db r = (svc', Auth.Next h, eff) ->
  forall (between : list Auth.Request) (now' : Models.Time)
         (db' : Database.Store) (r' : Auth.Header),
    Auth.extractAPIKey r' = Auth.extractAPIKey r ->
    exists svc'',
      Auth.AuthMiddleware hashAPIKey now'
        (snd (Auth.serve hashAPIKey svc' between)) db' r'
      = (svc'', Auth.Next h, [Auth.SpawnUsageUpdate h]).
Proof.
  intros H between now' db' r' Hr.
  apply AuthMiddleware_accepts in H as (Hne & -> & Hc).
  pose proof (serve_keeps hashAPIKey between svc' _ Hc) as Hc'.
  rewrite <- Hr in Hne, Hc' |- *.
  destruct (AuthMiddleware_hit hashAPIKey now' _ db' r' Hne Hc')
    as (svc'' & E & _).
  exists svc''. exact E.
Qed.

Lemma accepted_key_stays_accepted_witness :
  let hashAPIKey := fun key : string => "sha256:" +:+ key in
  let record := Models.mkAPIKey 1 "sha256:k1" "mobile" true 10 None
                                (Some 500) 0 in
  let db := Database.mkStore true true [] [record] 0 1 in
  let down := Database.mkStore false true [] [] 0 1 in
  let header : Auth.Header := {[ "X-Api-Key" := ["k1"] ]} in
  exists svc'',
    Auth.AuthMiddleware hashAPIKey 900000000000000
      (snd (Auth.serve hashAPIKey (Auth.setCached Auth.NewAuthService
                                                  "sha256:k1") []))
      down header
    = (svc'', Auth.Next "sha256:k1", [Auth.SpawnUsageUpdate "sha256:k1"]).
Proof.
  intros hashAPIKey record db down header.
  exact (accepted_key_stays_accepted hashAPIKey 100 Auth.NewAuthService
           (Auth.setCached Auth.NewAuthService "sha256:k1") db header
           "sha256:k1"
           [Auth.StoreLookup "sha256:k1"; Auth.SpawnUsageUpdate "sha256:k1"]
           eq_refl [] 900000000000000 down header eq_refl).
Defined.

Section Decisions.
Import Strings Models Database Auth Spec Extra.
Variable hashAPIKey : string -> string.

Lemma cached_RevokeAPIKey (svc : AuthService) (h x : string) :
  cached (RevokeAPIKey svc h) x = if decide (x = h) then false else cached svc x.
Proof.
  unfold cached, RevokeAPIKey; simpl. destruct (decide (x = h)) as [->|Hne].
  - now rewrite lookup_delete_eq.
  - now rewrite lookup_delete_ne.
Qed.

(** The way through the middleware for a key that is not in the map. *)
Lemma AuthMiddleware_miss (now : Time) (svc : AuthService) (db : Store)
                          (r : Header) :
  extractAPIKey r <> "" ->
  cached svc (hashAPIKey (extractAPIKey r)) = false ->
  let h := hashAPIKey (extractAPIKey r) in
  let svc1 := fst (isValidCachedKey now svc h) in
  AuthMiddleware hashAPIKey now svc db r
  = match GetAPIKey db h with
    | Err _ =>
        (svc1,
         Abort StatusInternalServerError
               (mkErrorResponse "internal_error"
                                "Failed to validate API key" []),
         [StoreLookup h])
    | Ok None =>
        (svc1, unauthorized "Invalid or inactive API key", [StoreLookup h])
    | Ok (Some k) =>
        if expired now k
        then (svc1, unauthorized "API key has expired", [StoreLookup h])
        else (setCached svc1 h, Next h, [StoreLookup h; SpawnUsageUpdate h])
    end.
Proof.
  intros Hne Hc h svc1. unfold AuthMiddleware.
  apply String.eqb_neq in Hne. rewrite Hne. fold h.
  pose proof (isValidCachedKey_spec now svc h) as [Hk Hhit].
  subst svc1. destruct (isValidCachedKey now svc h) as [svc1 hit].
  simpl in *. subst hit. fold h in Hc. rewrite Hc.
  destruct (GetAPIKey db h) as [[k|]|e] eqn:Eg; try reflexivity.
  apply GetAPIKey_found in Eg as (_ & _ & ->). reflexivity.
Qed.

Lemma extractAPIKey_empty (r : Header) :
  extractAPIKey r = ""
  <-> (HeaderGet r "Authorization" = "" /\ HeaderGet r "X-Api-Key" = "")
      \/ HeaderGet r "Authorization" = "Bearer ".
Proof.
  unfold extractAPIKey.
  destruct (String.eqb_spec (HeaderGet r "Authorization") "") as [E|E];
    cbn [negb].
  - rewrite E. split; [auto|]. intros [[_ H]|H]; [exact H|discriminate].
  - destruct (HasPrefix (HeaderGet r "Authorization") "Bearer ") eqn:Ep.
    + pose proof (HasPrefix_split _ _ Ep) as Hs. split.
      * intros Ht. right. rewrite Ht in Hs. now rewrite <- Hs.
      * intros [[H _]|H]; [contradiction|].
        rewrite H. reflexivity.
    + split.
      * intros H. contradiction.
      * intros [[H _]|H]; [contradiction|]. rewrite H in Ep. discriminate.
Qed.
End Decisions.

(** X18: [RevokeAPIKey] takes the hash out of the map and does nothing
    else: the other hashes and the clock stay, and the record in the store
    is not touched.  So the next request with the key goes to the store,
    and where the store still holds the record, active and not expired,
    the request is let through and the hash is back in the map. *)
Theorem revoke_only_clears_cache (hashAPIKey : string -> string)
                                 (svc : Auth.AuthService) (h : string) :
  let svc' := Auth.RevokeAPIKey svc h in
  Auth.cached svc' h = false
  /\ (forall x, x <> h -> Auth.cached svc' x = Auth.cached svc x)
  /\ Auth.lastSync svc' = Auth.lastSync svc
  /\ (forall now db r,
        Auth.extractAPIKey r <> "" ->
        hashAPIKey (Auth.extractAPIKey r) = h ->
        In (Auth.StoreLookup h)
           (snd (Auth.AuthMiddleware hashAPIKey now svc' db r)))
  /\ (forall now db r k,
        Auth.extractAPIKey r <> "" ->
        hashAPIKey (Auth.extractAPIKey r) = h ->
        Database.GetAPIKey db h = Database.Ok (Some k) ->
        Auth.expired now k = false ->
        exists svc'',
          Auth.AuthMiddleware hashAPIKey now svc' db r
          = (svc'', Auth.Next h,
             [Auth.StoreLookup h; Auth.SpawnUsageUpdate h])
          /\ Auth.cached svc'' h = true).
Proof.
  intros svc'.
  assert (Hgone : Auth.cached svc' h = false).
  { subst svc'. rewrite cached_RevokeAPIKey. now rewrite decide_True. }
  split; [exact Hgone|]. split; [|split; [reflexivity|split]].
  - intros x Hx. subst svc'. rewrite cached_RevokeAPIKey.
    now rewrite decide_False.
  - intros now db r Hne Hh. rewrite <- Hh in Hgone |- *.
    rewrite (AuthMiddleware_miss hashAPIKey now svc' db r Hne Hgone).
    destruct (Database.GetAPIKey db _) as [[k|]|e]; simpl; auto.
    destruct (Auth.expired now k); simpl; auto.
  - intros now db r k Hne Hh Hget Hexp. rewrite <- Hh in Hgone, Hget |- *.
    rewrite (AuthMiddleware_miss hashAPIKey now svc' db r Hne Hgone).
    rewrite Hget, Hexp. eexists. split; [reflexivity|].
    apply cached_setCached_same.
Qed.

Lemma revoke_only_clears_cache_witness :
  let hashAPIKey := fun key : string => "sha256:" +:+ key in
  let record := Models.mkAPIKey 1 "sha256:k1" "mobile" true 10 None None 0 in
  let db := Database.mkStore true true [] [record] 0 1 in
  let header : Auth.Header := {[ "X-Api-Key" := ["k1"] ]} in
  let svc := Auth.setCached Auth.NewAuthService "sha256:k1" in
  exists svc'',
    Auth.AuthMiddleware hashAPIKey 100 (Auth.RevokeAPIKey svc "sha256:k1")
                        db header
    = (svc'', Auth.Next "sha256:k1",
       [Auth.StoreLookup "sha256:k1"; Auth.SpawnUsageUpdate "sha256:k1"])
    /\ Auth.cached svc'' "sha256:k1" = true.
Proof.
  intros hashAPIKey record db header svc.
  destruct (revoke_only_clears_cache hashAPIKey svc "sha256:k1")
    as (_ & _ & _ & _ & H).
  apply (H 100 db header record).
  - vm_compute. discriminate.
  - reflexivity.
  - reflexivity.
  - reflexivity.
Defined.

(** X19: the middleware answers 401 [API key is required] exactly when
    the request carries no key: both headers are empty, or
    [Authorization] is [Bearer ] with nothing after it, whatever
    [X-API-Key] holds.  Such a request reaches neither the map nor the
    store, also when the hash of the empty string is in the map. *)
Theorem key_required_iff (hashAPIKey : string -> string) (now : Models.Time)
                         (svc : Auth.AuthService) (db : Database.Store)
                         (r : Auth.Header) :
  let blank :=
    (Auth.HeaderGet r "Authorization" = ""
     /\ Auth.HeaderGet r "X-Api-Key" = "")
    \/ Auth.HeaderGet r "Authorization" = "Bearer " in
  (blank ->
   Auth.AuthMiddleware hashAPIKey now svc db r
   = (svc, Auth.unauthorized "API key is required", []))
  /\ (snd (fst (Auth.AuthMiddleware hashAPIKey now svc db r))
      = Auth.unauthorized "API key is required" -> blank).
Proof.
  intros blank. split.
  - intros Hb. apply extractAPIKey_empty in Hb.
    unfold Auth.AuthMiddleware. now rewrite Hb.
  - intros H. apply extractAPIKey_empty.
    destruct (String.eqb_spec (Auth.extractAPIKey r) "") as [E|E];
      [exact E|exfalso].
    destruct (Auth.cached svc (hashAPIKey (Auth.extractAPIKey r))) eqn:Hc.
    + destruct (AuthMiddleware_hit hashAPIKey now svc db r E Hc)
        as (svc' & Hrun & _).
      rewrite Hrun in H. discriminate.
    + rewrite (AuthMiddleware_miss hashAPIKey now svc db r E Hc) in H.
      destruct (Database.GetAPIKey db _) as [[k|]|e]; try discriminate.
      destruct (Auth.expired now k); discriminate.
Qed.

Lemma key_required_iff_witness :
  let hashAPIKey := fun key : string => "sha256:" +:+ key in
  let r : Auth.Header :=
    {[ "Authorization" := ["Bearer "]; "X-Api-Key" := ["k1"] ]} in
  let svc := Auth.setCached (Auth.setCached Auth.NewAuthService "sha256:k1")
                            "sha256:" in
  let db := Database.mkStore true true [] [] 0 0 in
  Auth.AuthMiddleware hashAPIKey 100 svc db r
  = (svc, Auth.unauthorized "API key is required", []).
Proof.
  intros hashAPIKey r svc db.
  apply (proj1 (key_required_iff hashAPIKey 100 svc db r)).
  right. reflexivity.
Defined.

(** X20: the store is asked exactly for the requests that carry a key
    whose hash is not in the map, once and for that hash; and the answer
    is 500 [internal_error] exactly when, for such a request, the store
    cannot be reached.  A key in the map is let through while the store is
    down. *)
Theorem store_asked_for_unknown_keys (hashAPIKey : string -> string)
                                     (now : Models.Time)
                                     (svc : Auth.AuthService)
                                     (db : Database.Store)
                                     (r : Auth.Header) :
  let h := hashAPIKey (Auth.extractAPIKey r) in
  let out := snd (fst (Auth.AuthMiddleware hashAPIKey now svc db r)) in
  let eff := snd (Auth.AuthMiddleware hashAPIKey now svc db r) in
  let unknown := Auth.extractAPIKey r <> "" /\ Auth.cached svc h = false in
  (unknown -> Extra.lookups eff = [h])
  /\ (~ unknown -> Extra.lookups eff = [])
  /\ ((exists body, out = Auth.Abort 500 body)
      <-> unknown /\ Database.conn_ok db = false)
  /\ (Auth.extractAPIKey r <> "" -> Auth.cached svc h = true ->
      out = Auth.Next h).
Proof.
  intros h out eff unknown. subst out eff.
  destruct (String.eqb_spec (Auth.extractAPIKey r) "") as [E|E].
  { unfold Auth.AuthMiddleware, unknown.
    apply String.eqb_eq in E. rewrite E. apply String.eqb_eq in E. simpl.
    split; [tauto|]. split; [tauto|]. split; [|tauto].
    split; [intros [body H]; discriminate|tauto]. }
  destruct (Auth.cached svc h) eqn:Hc.
  { destruct (AuthMiddleware_hit hashAPIKey now svc db r E Hc)
      as (svc' & Hrun & _).
    rewrite Hrun. simpl. fold h. unfold unknown.
    split; [intros [_ H]; discriminate|].
    split; [reflexivity|].
    split; [|reflexivity].
    split; [intros [body H]; discriminate|intros [[_ H] _]; discriminate]. }
  rewrite (AuthMiddleware_miss hashAPIKey now svc db r E Hc). fold h.
  unfold unknown, Database.GetAPIKey.
  destruct (Database.conn_ok db); simpl.
  - destruct (find _ _) as [k|]; [destruct (Auth.expired now k)|]; simpl;
      (split; [reflexivity|]);
      (split; [tauto|]);
      (split; [|congruence]);
      (split; [intros [body H]; discriminate|intros [_ H]; discriminate]).
  - split; [reflexivity|]. split; [tauto|]. split; [|congruence].
    split; [auto|]. intros _. eexists. reflexivity.
Qed.

Lemma store_asked_for_unknown_keys_witness :
  let hashAPIKey := fun key : string => "sha256:" +:+ key in
  let down := Database.mkStore false true [] [] 0 0 in
  let r : Auth.Header := {[ "X-Api-Key" := ["k1"] ]} in
  snd (fst (Auth.AuthMiddleware hashAPIKey 100
              (Auth.setCached Auth.NewAuthService "sha256:k1") down r))
  = Auth.Next "sha256:k1"
  /\ exists body,
       snd (fst (Auth.AuthMiddleware hashAPIKey 100 Auth.NewAuthService
                                     down r))
       = Auth.Abort 500 body.
Proof.
  intros hashAPIKey down r. split.
  - apply (store_asked_for_unknown_keys hashAPIKey 100
             (Auth.setCached Auth.NewAuthService "sha256:k1") down r).
    + vm_compute. discriminate.
    + reflexivity.
  - apply (store_asked_for_unknown_keys hashAPIKey 100 Auth.NewAuthService
                                        down r).
    split; [split|]; [vm_compute; discriminate|reflexivity|reflexivity].
Defined.

(** ** Generated keys *)

Section Generated.
Import Strings Models Database Auth Spec Extra.
Variable hashAPIKey : string -> string.

Lemma get_in_range (s : string) :
  forall n, (n < String.length s)%nat -> exists c, String.get n s = Some c.
Proof.
  induction s as [|c s IH]; intros n Hn; simpl in Hn; [lia|].
  destruct n as [|n]; simpl; [eauto|]. apply IH. lia.
Qed.

(** The index that one reading of the clock gives. *)
Lemma charset_index (t : Z) :
  0 <= Z.rem t 62 ->
  exists c, String.get (Z.to_nat (Z.rem t 62)) charset = Some c.
Proof.
  intros H. apply get_in_range.
  pose proof (Z.rem_bound_abs t 62 ltac:(lia)) as Hb.
  change (String.length charset) with 62%nat. lia.
Qed.

Lemma randomBytes_some (n : nat) (clock : nat -> Z) :
  forall (i : nat) (s : string),
    randomBytes n clock i = Some s ->
    String.length s = n
    /\ forall j, (j < n)%nat ->
         0 <= Z.rem (clock (i + j)%nat) 62
         /\ String.get j s
            = String.get (Z.to_nat (Z.rem (clock (i + j)%nat) 62)) charset.
Proof.
  induction n as [|n IH]; intros i s H; cbn [randomBytes] in H.
  - injection H as <-. split; [reflexivity|]. intros j Hj. lia.
  - change (Z.of_nat (String.length charset)) with 62 in H.
    destruct (Z.ltb_spec (Z.rem (clock i) 62) 0) as [Hneg|Hpos];
      [discriminate|].
    destruct (charset_index (clock i) Hpos) as [c Hc]. rewrite Hc in H.
    destruct (randomBytes n clock (S i)) as [rest|] eqn:E; [|discriminate].
    injection H as <-. destruct (IH (S i) rest E) as [Hlen Hget].
    split; [simpl; now rewrite Hlen|].
    intros [|j] Hj.
    + rewrite Nat.add_0_r. simpl. auto.
    + replace (i + S j)%nat with (S i + j)%nat by lia. simpl.
      apply Hget. lia.
Qed.

Lemma randomBytes_none (n : nat) (clock : nat -> Z) :
  forall i : nat,
    randomBytes n clock i = None
    <-> exists j, (j < n)%nat /\ Z.rem (clock (i + j)%nat) 62 < 0.
Proof.
  induction n as [|n IH]; intros i; cbn [randomBytes].
  - split; [discriminate|]. intros (j & Hj & _). lia.
  - change (Z.of_nat (String.length charset)) with 62.
    destruct (Z.ltb_spec (Z.rem (clock i) 62) 0) as [Hneg|Hpos].
    + split; [|reflexivity]. intros _. exists 0%nat.
      rewrite Nat.add_0_r. split; [lia|exact Hneg].
    + destruct (charset_index (clock i) Hpos) as [c ->].
      specialize (IH (S i)).
      destruct (randomBytes n clock (S i)) as [rest|].
      * split; [discriminate|]. intros ([|j] & Hj & Hneg).
        -- rewrite Nat.add_0_r in Hneg. lia.
        -- assert (Hex : exists j', (j' < n)%nat
                                    /\ Z.rem (clock (S i + j')%nat) 62 < 0).
           { exists j. split; [lia|].
             now replace (S i + j)%nat with (i + S j)%nat by lia. }
           apply IH in Hex. discriminate.
      * split; [|reflexivity]. intros _.
        destruct (proj1 IH eq_refl) as (j & Hj & Hneg).
        exists (S j). split; [lia|].
        now replace (i + S j)%nat with (S i + j)%nat by lia.
Qed.

Lemma generateRandomString_runs (length : Z) (clock : nat -> Z) :
  0 <= length ->
  (forall i, 0 <= clock i) ->
  exists s, generateRandomString length clock = Some s
            /\ String.length s = Z.to_nat length.
Proof.
  intros Hlen Hclock. unfold generateRandomString.
  destruct (Z.ltb_spec length 0) as [H|_]; [lia|].
  destruct (randomBytes (Z.to_nat length) clock 0) as [s|] eqn:E.
  - exists s. split; [reflexivity|]. now apply randomBytes_some in E.
  - apply randomBytes_none in E as (j & _ & Hneg).
    specialize (Hclock (0 + j)%nat).
    pose proof (Z.rem_nonneg (clock (0 + j)%nat) 62 ltac:(lia) Hclock). lia.
Qed.

Lemma extractAPIKey_x_api_key (key : string) :
  extractAPIKey {[ "X-Api-Key" := [key] ]} = key.
Proof.
  unfold extractAPIKey, HeaderGet.
  rewrite lookup_singleton_ne by discriminate. simpl.
  now rewrite lookup_singleton_eq.
Qed.

Lemma pretty_N_go_not_empty (x : N) (s : string) :
  s <> "" -> pretty_N_go x s <> "".
Proof.
  revert s. induction (N.lt_wf_0 x) as [x _ IH]; intros s Hs.
  assert (x = 0 \/ 0 < x)%N as [->|Hpos] by lia.
  - now rewrite pretty_N_go_0.
  - rewrite pretty_N_go_step by assumption.
    apply IH; [now apply N.div_lt|discriminate].
Qed.

Lemma itoa_not_empty (z : Z) : itoa z <> "".
Proof.
  assert (HN : forall x : N, pretty x <> "").
  { intros x. unfold pretty, pretty_N. case_decide; [discriminate|].
    rewrite pretty_N_go_step by lia.
    apply pretty_N_go_not_empty. discriminate. }
  unfold itoa, pretty, pretty_Z. destruct z as [|q|q].
  - discriminate.
  - apply HN.
  - discriminate.
Qed.

Lemma generated_shape (unixNano : Z) (random : string) :
  String.length random = 32%nat ->
  let key := "hta_" +:+ itoa unixNano +:+ "_" +:+ random in
  key <> "" /\ HasPrefix key "hta_" = true /\ ValidateAPIKeyFormat key = true
  /\ (38 <= String.length key)%nat.
Proof.
  intros Hlen key.
  assert (Hkey : key = String "h" (String "t" (String "a" (String "_"
                   (itoa unixNano +:+ "_" +:+ random))))) by reflexivity.
  assert (Hdigits : (1 <= String.length (itoa unixNano))%nat).
  { pose proof (itoa_not_empty unixNano) as Hd.
    destruct (itoa unixNano) as [|c s]; [contradiction|simpl; lia]. }
  assert (Hl : (38 <= String.length key)%nat).
  { rewrite Hkey. simpl. rewrite !length_append, Hlen. simpl. lia. }
  split; [rewrite Hkey; discriminate|]. split; [now rewrite Hkey|].
  split; [|exact Hl]. unfold ValidateAPIKeyFormat.
  destruct (Nat.ltb_spec (String.length key) 10) as [H|_]; [lia|].
  rewrite Hkey. reflexivity.
Qed.
End Generated.

(** X21: with a clock that does not read before 1970, [GenerateAPIKey]
    returns.  When the insert went through, the key starts with [hta_],
    has at least 38 bytes and passes [ValidateAPIKeyFormat], its record is
    in the store under the hash, active, with the name and the expiry
    given, and the hash is in the map: every request with the key is let
    through from then on with no lookup in the store, also after the
    expiry given.  When the insert failed, the map is as it was and no
    record was added. *)
Theorem generated_key_is_valid
        (hashAPIKey : string -> string) (now unixNano : Z)
        (clock : nat -> Z) (svc : Auth.AuthService) (db : Database.Store)
        (name : string) (expiresAt : option Models.Time) :
  (forall i, 0 <= clock i) ->
  exists svc' db' res,
    Auth.GenerateAPIKey hashAPIKey now unixNano clock svc db name expiresAt
    = Some (svc', db', res)
    /\ match res with
       | Database.Ok key =>
           Strings.HasPrefix key "hta_" = true
           /\ (38 <= String.length key)%nat
           /\ Auth.ValidateAPIKeyFormat key = true
           /\ Database.GetAPIKey db' (hashAPIKey key)
              = Database.Ok
                  (Some (Models.mkAPIKey (Database.api_keys_id_seq db + 1)
                           (hashAPIKey key) name true now None expiresAt 0))
           /\ Auth.cached svc' (hashAPIKey key) = true
           /\ (forall now' db'' r,
                 Auth.extractAPIKey r = key ->
                 exists svc'',
                   Auth.AuthMiddleware hashAPIKey now' svc' db'' r
                   = (svc'', Auth.Next (hashAPIKey key),
                      [Auth.SpawnUsageUpdate (hashAPIKey key)]))
       | Database.Err _ =>
           svc' = svc /\ Database.api_keys db' = Database.api_keys db
       end.
Proof.
  intros Hclock. unfold Auth.GenerateAPIKey.
  destruct (generateRandomString_runs 32 clock ltac:(lia) Hclock)
    as (random & -> & Hlen).
  change (Z.to_nat 32) with 32%nat in Hlen.
  destruct (generated_shape unixNano random Hlen) as (Hne & Hp & Hv & Hl).
  set (key := "hta_" +:+ Strings.itoa unixNano +:+ "_" +:+ random) in *.
  cbv zeta.
  set (apiKey := Models.mkAPIKey 0 (hashAPIKey key) name true 0 None
                                 expiresAt 0).
  destruct (Database.InsertAPIKey now db apiKey) as [db' [stored|e]] eqn:E.
  - exists (Auth.setCached svc (hashAPIKey key)), db', (Database.Ok key).
    split; [reflexivity|].
    apply InsertAPIKey_ok in E as (Hc & Hnew & Hrows & Hseq & Hc' & _).
    simpl in Hnew, Hrows.
    repeat (split; [assumption|]). split; [|split].
    + unfold Database.GetAPIKey. rewrite Hc', Hrows. simpl. f_equal.
      rewrite (find_append_none _ _ _ (find_key_absent _ _ Hnew)). simpl.
      now rewrite String.eqb_refl.
    + apply cached_setCached_same.
    + intros now' db'' r Hr.
      assert (Hne' : Auth.extractAPIKey r <> "") by now rewrite Hr.
      assert (Hhit : Auth.cached (Auth.setCached svc (hashAPIKey key))
                                 (hashAPIKey (Auth.extractAPIKey r)) = true)
        by (rewrite Hr; apply cached_setCached_same).
      destruct (AuthMiddleware_hit hashAPIKey now' _ db'' r Hne' Hhit)
        as (svc'' & Hrun & _).
      exists svc''. rewrite Hrun, Hr. reflexivity.
  - exists svc, db', (Database.Err ("failed to insert API key: " +:+ e)).
    split; [reflexivity|]. split; [reflexivity|].
    unfold Database.InsertAPIKey in E.
    destruct (negb (Database.conn_ok db)); [now injection E as <- _|].
    cbv zeta in E. destruct (negb (_ && _)); [now injection E as <- _|].
    destruct (Database.hasKeyHash _ _); [now injection E as <- _|].
    discriminate.
Qed.

Lemma generated_key_is_valid_witness :
  let hashAPIKey := fun key : string => "sha256:" +:+ key in
  let db := Database.mkStore true true [] [] 0 0 in
  exists svc' db' res,
    Auth.GenerateAPIKey hashAPIKey 100 1700000000000000000
                        (fun i => 1700000000000000000 + Z.of_nat i)
                        Auth.NewAuthService db "ci" (Some 50)
    = Some (svc', db', res)
    /\ match res with
       | Database.Ok key =>
           Strings.HasPrefix key "hta_" = true
           /\ (38 <= String.length key)%nat
           /\ Auth.ValidateAPIKeyFormat key = true
           /\ Database.GetAPIKey db' (hashAPIKey key)
              = Database.Ok
                  (Some (Models.mkAPIKey (Database.api_keys_id_seq db + 1)
                           (hashAPIKey key) "ci" true 100 None (Some 50) 0))
           /\ Auth.cached svc' (hashAPIKey key) = true
           /\ (forall now' db'' r,
                 Auth.extractAPIKey r = key ->
                 exists svc'',
                   Auth.AuthMiddleware hashAPIKey now' svc' db'' r
                   = (svc'', Auth.Next (hashAPIKey key),
                      [Auth.SpawnUsageUpdate (hashAPIKey key)]))
       | Database.Err _ =>
           svc' = Auth.NewAuthService
           /\ Database.api_keys db' = Database.api_keys db
       end.
Proof.
  intros hashAPIKey db.
  apply (generated_key_is_valid hashAPIKey 100 1700000000000000000
           (fun i => 1700000000000000000 + Z.of_nat i)
           Auth.NewAuthService db "ci" (Some 50)).
  intros i. lia.
Defined.

(** X22: the random string is read off the clock.  For a length that is
    not negative, [generateRandomString] panics exactly when one of the
    readings leaves a negative remainder modulo 62 (a time before 1970 not
    on a multiple of 62); otherwise the string has the length asked for
    and its byte [i] is the byte of the alphabet at the [i]-th reading
    modulo 62, so that readings that agree modulo 62 give the same
    byte. *)
Theorem random_string_reads_clock (length : Z) (clock : nat -> Z) :
  0 <= length ->
  (Auth.generateRandomString length clock = None
   <-> exists i, (i < Z.to_nat length)%nat /\ Z.rem (clock i) 62 < 0)
  /\ (forall s,
        Auth.generateRandomString length clock = Some s ->
        String.length s = Z.to_nat length
        /\ forall i, (i < Z.to_nat length)%nat ->
             String.get i s
             = String.get (Z.to_nat (Z.rem (clock i) 62)) Auth.charset).
Proof.
  intros Hlen. unfold Auth.generateRandomString.
  destruct (Z.ltb_spec length 0) as [H|_]; [lia|]. split.
  - apply (randomBytes_none (Z.to_nat length) clock 0).
  - intros s E. apply randomBytes_some in E as [Hl Hget].
    split; [exact Hl|]. intros i Hi. now apply Hget.
Qed.

Lemma random_string_reads_clock_witness :
  Auth.generateRandomString 3 (fun _ => 1700000000000000001) = None
  <-> exists i, (i < 3)%nat
                /\ Z.rem ((fun _ : nat => 1700000000000000001) i) 62 < 0.
Proof.
  apply (random_string_reads_clock 3 (fun _ => 1700000000000000001)). lia.
Defined.

(** ** Bootstrap that succeeded *)

Section BootstrapSuccess.
Import Strings Models Database Auth Spec Extra.
Variable hashAPIKey : string -> string.
Variable formatDate : Time -> string.

Lemma find_grows {A : Type} (p : A -> bool) (l l' : list A) (x : A) :
  List.find p l = Some x -> List.find p (l ++ l') = Some x.
Proof.
  induction l as [|y l IH]; simpl; [discriminate|].
  destruct (p y); [auto|exact IH].
Qed.

Lemma GetAPIKey_grows (db db' : Store) (added : list APIKey) (h : string)
                      (k : APIKey) :
  conn_ok db' = conn_ok db ->
  api_keys db' = api_keys db ++ added ->
  GetAPIKey db h = Ok (Some k) -> GetAPIKey db' h = Ok (Some k).
Proof.
  unfold GetAPIKey. intros -> ->.
  destruct (negb (conn_ok db)); [discriminate|].
  intros [= Hfind]. f_equal. now apply find_grows.
Qed.

Lemma GetAPIKey_inserted (now : Time) (db db' : Store)
                         (apiKey stored : APIKey) :
  InsertAPIKey now db apiKey = (db', Ok stored) ->
  IsActive apiKey = true ->
  GetAPIKey db' (KeyHash apiKey)
  = Ok (Some (mkAPIKey (api_keys_id_seq db + 1) (KeyHash apiKey)
                       (Name apiKey) true now None (ExpiresAt apiKey) 0)).
Proof.
  intros H Ha.
  apply InsertAPIKey_ok in H as (Hc & Hnew & Hrows & Hseq & Hc' & _).
  unfold GetAPIKey. rewrite Hc', Hrows, Ha. simpl. f_equal.
  rewrite (find_append_none _ _ _ (find_key_absent _ _ Hnew)). simpl.
  now rewrite String.eqb_refl.
Qed.

Lemma initializeKeys_ok (now : Time) (keys : list string) :
  forall (svc svc' : AuthService) (db db' : Store) (u : unit),
    initializeKeys hashAPIKey formatDate now svc db keys = (svc', db', Ok u) ->
    lastSync svc' = lastSync svc
    /\ (forall x, cached svc x = true -> cached svc' x = true)
    /\ (forall key, In key keys -> cached svc' (hashAPIKey key) = true)
    /\ conn_ok db' = conn_ok db
    /\ (exists added,
          api_keys db' = api_keys db ++ added
          /\ forall k, In k added ->
               bootstrapRecord hashAPIKey formatDate now keys k)
    /\ (forall key, In key keys ->
          exists k, GetAPIKey db' (hashAPIKey key) = Ok (Some k)).
Proof.
  induction keys as [|key keys IH]; intros svc svc' db db' u H; simpl in H.
  - injection H as <- <- _.
    split; [reflexivity|]. split; [tauto|]. split; [intros key []|].
    split; [reflexivity|]. split; [|intros key []].
    exists []. rewrite app_nil_r. split; [reflexivity|]. intros k [].
  - assert (Hweak : forall k,
              bootstrapRecord hashAPIKey formatDate now keys k ->
              bootstrapRecord hashAPIKey formatDate now (key :: keys) k).
    { intros k (H1 & H2 & H3 & H4 & key' & Hin & Hk).
      repeat split; try assumption. exists key'. split; [now right|exact Hk]. }
    destruct (GetAPIKey db (hashAPIKey key)) as [[k|]|e] eqn:Eg.
    + destruct (IH _ _ _ _ _ H)
        as (Hsync & Hmono & Hall & Hconn & (added & Hrows & Hadded) & Hfound).
      split; [exact Hsync|]. split; [|split; [|split; [exact Hconn|split]]].
      * intros x Hx. now apply Hmono, cached_setCached_mono.
      * intros x [<-|Hx]; [|now apply Hall].
        apply Hmono, cached_setCached_same.
      * exists added. split; [exact Hrows|]. intros k' Hk'.
        now apply Hweak, Hadded.
      * intros x [<-|Hx]; [|now apply Hfound].
        exists k. now apply (GetAPIKey_grows db db' added).
    + match type of H with
      | context [InsertAPIKey now db ?a] =>
          destruct (InsertAPIKey now db a) as [db1 [stored|e1]] eqn:Ei
      end; [|discriminate].
      pose proof (GetAPIKey_inserted _ _ _ _ _ Ei eq_refl) as Hins.
      apply InsertAPIKey_ok in Ei as (Hc & _ & Hrows1 & _ & Hc1 & _).
      simpl in Hins, Hrows1.
      destruct (IH _ _ _ _ _ H)
        as (Hsync & Hmono & Hall & Hconn & (added & Hrows & Hadded) & Hfound).
      split; [exact Hsync|]. split; [|split; [|split; [congruence|split]]].
      * intros x Hx. now apply Hmono, cached_setCached_mono.
      * intros x [<-|Hx]; [|now apply Hall].
        apply Hmono, cached_setCached_same.
      * eexists (_ :: added). split.
        { rewrite Hrows, Hrows1, <- app_assoc. reflexivity. }
        intros k' [<-|Hk']; [|now apply Hweak, Hadded].
        repeat split. exists key. split; [now left|reflexivity].
      * intros x [<-|Hx]; [|now apply Hfound].
        eexists. apply (GetAPIKey_grows db1 db' added _ _ Hconn Hrows).
        exact Hins.
    + discriminate.
Qed.
End BootstrapSuccess.

(** X23: when [InitializeAPIKeys] returns without an error, the clock of
    the map is set, what was in the map is still there, and every
    configured key has its hash in the map and a record that the lookup
    finds.  The records added are active, without expiry, created now and
    named after the day, each under the hash of a configured key.  So
    every request with a configured key that is not empty is let through
    with no lookup in the store. *)
Theorem bootstrap_success_marks_every_key
        (hashAPIKey : string -> string) (formatDate : Models.Time -> string)
        (now : Models.Time) (svc svc' : Auth.AuthService)
        (db db' : Database.Store) (keys : list string) :
  Auth.InitializeAPIKeys hashAPIKey formatDate now svc db keys
  = (svc', db', Database.Ok tt) ->
  Auth.lastSync svc' = now
  /\ (forall x, Auth.cached svc x = true -> Auth.cached svc' x = true)
  /\ (forall key, In key keys ->
        Auth.cached svc' (hashAPIKey key) = true
        /\ exists k,
             Database.GetAPIKey db' (hashAPIKey key) = Database.Ok (Some k))
  /\ (exists added,
        Database.api_keys db' = Database.api_keys db ++ added
        /\ forall k, In k added ->
             Models.IsActive k = true /\ Models.KeyCreatedAt k = now
             /\ Models.ExpiresAt k = None
             /\ Models.Name k = "Auto-generated key " +:+ formatDate now
             /\ exists key, In key keys
                            /\ Models.KeyHash k = hashAPIKey key)
  /\ (forall key now' db'' r,
        In key keys -> key <> "" -> Auth.extractAPIKey r = key ->
        exists svc'',
          Auth.AuthMiddleware hashAPIKey now' svc' db'' r
          = (svc'', Auth.Next (hashAPIKey key),
             [Auth.SpawnUsageUpdate (hashAPIKey key)])).
Proof.
  unfold Auth.InitializeAPIKeys.
  destruct (Auth.initializeKeys hashAPIKey formatDate now svc db keys)
    as [[svc1 db1] [u|e]] eqn:E; [|discriminate].
  intros [= <- <-].
  apply initializeKeys_ok in E
    as (_ & Hmono & Hall & _ & Hadded & Hfound).
  split; [reflexivity|]. split; [exact Hmono|].
  split; [|split; [exact Hadded|]].
  - intros key Hkey. split; [now apply Hall|now apply Hfound].
  - intros key now' db'' r Hkey Hne Hr.
    assert (Hne' : Auth.extractAPIKey r <> "") by now rewrite Hr.
    assert (Hhit : Auth.cached (Auth.mkAuthService (Auth.apiKeys svc1) now)
                     (hashAPIKey (Auth.extractAPIKey r)) = true)
      by (rewrite Hr; now apply Hall).
    destruct (AuthMiddleware_hit hashAPIKey now' _ db'' r Hne' Hhit)
      as (svc'' & Hrun & _).
    exists svc''. rewrite Hrun, Hr. reflexivity.
Qed.

Lemma bootstrap_success_marks_every_key_witness :
  let hashAPIKey := fun key : string => "sha256:" +:+ key in
  let formatDate := fun _ : Models.Time => "2025-01-01" in
  let db := Database.mkStore true true [] [] 0 0 in
  let run := Auth.InitializeAPIKeys hashAPIKey formatDate 100
                                    Auth.NewAuthService db ["k1"; "k2"] in
  Auth.lastSync (fst (fst run)) = 100
  /\ (forall x, Auth.cached Auth.NewAuthService x = true ->
                Auth.cached (fst (fst run)) x = true).
Proof.
  intros hashAPIKey formatDate db run.
  destruct (bootstrap_success_marks_every_key hashAPIKey formatDate 100
              Auth.NewAuthService (fst (fst run)) db (snd (fst run))
              ["k1"; "k2"] eq_refl) as (H1 & H2 & _).
  split; [exact H1|exact H2].
Defined.

(** ** Configuration *)

Section Settings.
Import Strings Models Database Config Extra.

Lemma append_empty_r (s : string) : s +:+ "" = s.
Proof.
  induction s as [|c s IH]; [reflexivity|].
  change (String c (s +:+ "") = String c s). now rewrite IH.
Qed.

Lemma rev_app_spec (s1 s2 : string) :
  String.rev_app s1 s2 = String.rev s1 +:+ s2.
Proof.
  unfold String.rev. revert s2.
  induction s1 as [|a s1 IH]; intros s2; simpl; [reflexivity|].
  rewrite IH, (IH (String a "")), append_assoc. reflexivity.
Qed.

Lemma rev_cons (c : ascii) (s : string) :
  String.rev (String c s) = String.rev s +:+ String c "".
Proof. unfold String.rev at 1. simpl. apply rev_app_spec. Qed.

Lemma occurs_rev (c : ascii) (s : string) :
  occurs c (String.rev s) = occurs c s.
Proof.
  induction s as [|d s IH]; [reflexivity|].
  rewrite rev_cons, occurs_append, IH. simpl.
  rewrite orb_false_r. apply orb_comm.
Qed.

Lemma Join_cons (piece : string) (rest : list string) (sep : string) :
  rest <> [] -> Join (piece :: rest) sep = piece +:+ sep +:+ Join rest sep.
Proof. destruct rest; [contradiction|reflexivity]. Qed.

(** [Split] on a separator of one byte, from inside a piece. *)
Lemma splitFrom_byte (c : ascii) (s : string) :
  forall cur : string,
    occurs c cur = false ->
    let pieces := splitFrom (String c "") s 0 cur in
    pieces <> []
    /\ Join pieces (String c "") = String.rev cur +:+ s
    /\ (forall piece, In piece pieces -> occurs c piece = false)
    /\ (occurs c s = false -> pieces = [String.rev cur +:+ s]).
Proof.
  induction s as [|d s IH]; intros cur Hcur; simpl.
  - rewrite append_empty_r. split; [discriminate|]. split; [reflexivity|].
    split; [|reflexivity]. intros piece [<-|[]]. now rewrite occurs_rev.
  - destruct (Ascii.eqb c d) eqn:Ecd.
    + apply Ascii.eqb_eq in Ecd as <-.
      destruct (IH "" eq_refl) as (Hnil & Hjoin & Hfree & _).
      split; [discriminate|]. split; [|split].
      * rewrite Join_cons by exact Hnil. now rewrite Hjoin.
      * intros piece [<-|Hp]; [now rewrite occurs_rev|now apply Hfree].
      * discriminate.
    + assert (Hcur' : occurs c (String d cur) = false).
      { simpl. now rewrite Ecd. }
      destruct (IH (String d cur) Hcur') as (Hnil & Hjoin & Hfree & Hone).
      rewrite rev_cons, append_assoc in Hjoin, Hone.
      split; [exact Hnil|]. split; [exact Hjoin|]. split; [exact Hfree|].
      exact Hone.
Qed.

Lemma Split_byte (c : ascii) (s : string) :
  Split s (String c "") <> []
  /\ Join (Split s (String c "")) (String c "") = s
  /\ (forall piece, In piece (Split s (String c "")) -> occurs c piece = false)
  /\ (occurs c s = false -> Split s (String c "") = [s]).
Proof. exact (splitFrom_byte c s "" eq_refl). Qed.

Lemma getEnvAsSlice_nil (env : Env) (key : string) (c : ascii) :
  getEnvAsSlice env key (String c "") = [] <-> Getenv env key = "".
Proof.
  unfold getEnvAsSlice.
  destruct (String.eqb_spec (Getenv env key) "") as [E|E]; cbn [negb].
  - tauto.
  - split; [|contradiction]. intros H. now apply Split_byte in H.
Qed.
End Settings.

(** X24: a list setting is cut at every comma and at nothing else.  The
    pieces of [getEnvAsSlice] put together again with commas are the
    value of the variable, byte for byte: nothing is trimmed and empty
    pieces are kept.  No piece holds a comma; there is no piece exactly
    when the variable is empty or not set; and a value without a comma is
    one piece. *)
Theorem slice_setting_round_trip (env : Config.Env) (key : string) :
  let value := Config.Getenv env key in
  let pieces := Config.getEnvAsSlice env key "," in
  Extra.Join pieces "," = value
  /\ (pieces = [] <-> value = "")
  /\ (forall piece, In piece pieces -> Strings.occurs "," piece = false)
  /\ (value <> "" -> Strings.occurs "," value = false -> pieces = [value]).
Proof.
  intros value pieces.
  split; [|split; [apply (getEnvAsSlice_nil env key ",")|]];
    subst pieces; unfold Config.getEnvAsSlice; fold value;
    destruct (String.eqb_spec value "") as [E|E]; cbn [negb].
  - now rewrite E.
  - apply (Split_byte "," value).
  - split; [intros piece []|contradiction].
  - split; [apply (Split_byte "," value)|].
    intros _. apply (Split_byte "," value).
Qed.

Lemma slice_setting_round_trip_witness :
  let env : Config.Env := {[ "API_KEYS" := "k1" ]} in
  Config.getEnvAsSlice env "API_KEYS" "," = ["k1"].
Proof.
  intros env.
  destruct (slice_setting_round_trip env "API_KEYS") as (_ & _ & _ & H).
  apply H.
  - vm_compute. discriminate.
  - reflexivity.
Defined.

(** X25: [LoadConfig] asks for two settings and for nothing else.  It
    fails with [API_KEYS must be provided] exactly when [API_KEYS] is
    empty or not set, with [DB_PASSWORD must be provided] exactly when
    [API_KEYS] is set and [DB_PASSWORD] is empty or not set, and returns
    the configuration in every other case, whatever the other variables
    hold and whether the numbers among them parse or not.  The keys of the
    configuration are then the pieces of [API_KEYS], at least one, and
    the password is the value of [DB_PASSWORD]. *)
Theorem config_needs_keys_and_password (Atoi : string -> option Z)
                                       (env : Config.Env) :
  let keys := Config.Getenv env "API_KEYS" in
  let password := Config.Getenv env "DB_PASSWORD" in
  (Config.LoadConfig Atoi env = Database.Err "API_KEYS must be provided"
   <-> keys = "")
  /\ (Config.LoadConfig Atoi env = Database.Err "DB_PASSWORD must be provided"
      <-> keys <> "" /\ password = "")
  /\ ((exists config, Config.LoadConfig Atoi env = Database.Ok config)
      <-> keys <> "" /\ password <> "")
  /\ (forall config,
        Config.LoadConfig Atoi env = Database.Ok config ->
        Config.APIKeys config <> []
        /\ Extra.Join (Config.APIKeys config) "," = keys
        /\ Config.Password (Config.Database config) = password).
Proof.
  intros keys password.
  pose proof (getEnvAsSlice_nil env "API_KEYS" ",") as Hnil.
  pose proof (proj1 (slice_setting_round_trip env "API_KEYS")) as Hjoin.
  cbv zeta in Hjoin. fold keys in Hnil, Hjoin.
  assert (Hpw : Config.getEnv env "DB_PASSWORD" "" = password).
  { unfold Config.getEnv. fold password.
    now destruct (String.eqb_spec password "") as [->|]. }
  unfold Config.LoadConfig. cbv zeta.
  cbn [Config.APIKeys Config.Password Config.Database].
  rewrite Hpw.
  destruct (Config.getEnvAsSlice env "API_KEYS" ",") as [|k ks] eqn:Es.
  - assert (Hk : keys = "") by now apply Hnil.
    cbn [length Nat.eqb].
    split; [tauto|]. split; [split; [discriminate|tauto]|].
    split; [split; [intros [c H]; discriminate|tauto]|]. discriminate.
  - assert (Hk : keys <> "").
    { intros Hk. apply Hnil in Hk. discriminate. }
    cbn [length Nat.eqb].
    destruct (String.eqb_spec password "") as [Hp|Hp].
    + split; [split; [discriminate|contradiction]|].
      split; [tauto|].
      split; [split; [intros [c H]; discriminate|tauto]|]. discriminate.
    + split; [split; [discriminate|contradiction]|].
      split; [split; [discriminate|tauto]|].
      split; [split; [tauto|intros _; eexists; reflexivity]|].
      intros config [= <-].
      cbn [Config.APIKeys Config.Password Config.Database].
      split; [discriminate|]. split; [|reflexivity]. exact Hjoin.
Qed.

Lemma config_needs_keys_and_password_witness :
  let env : Config.Env :=
    {[ "API_KEYS" := "k1,,k2"; "DB_PASSWORD" := "s3cret";
       "DB_PORT" := "not a number" ]} in
  exists config, Config.LoadConfig (fun _ => None) env = Database.Ok config.
Proof.
  intros env.
  apply (config_needs_keys_and_password (fun _ => None) env).
  split; vm_compute; discriminate.
Defined.

(** ** Startup *)

Section StartupFacts.
Import Strings Models Database Config Extra.

Lemma LoadConfig_ok (Atoi : string -> option Z) (env : Env) (cfg : Config) :
  LoadConfig Atoi env = Ok cfg ->
  Getenv env "API_KEYS" <> ""
  /\ APIKeys cfg = Split (Getenv env "API_KEYS") ","
  /\ Password (Database cfg) = Getenv env "DB_PASSWORD"
  /\ Getenv env "DB_PASSWORD" <> "".
Proof.
  unfold LoadConfig. cbv zeta.
  cbn [APIKeys Password Config.Database].
  assert (Hpw : getEnv env "DB_PASSWORD" "" = Getenv env "DB_PASSWORD").
  { unfold getEnv.
    now destruct (String.eqb_spec (Getenv env "DB_PASSWORD") "") as [->|]. }
  rewrite Hpw.
  destruct (getEnvAsSlice env "API_KEYS" ",") as [|k ks] eqn:Es;
    cbn [length Nat.eqb]; [discriminate|].
  destruct (String.eqb_spec (Getenv env "DB_PASSWORD") "") as [Hp|Hp];
    [discriminate|].
  intros [= <-]. cbn [APIKeys Password Config.Database].
  unfold getEnvAsSlice in Es.
  destruct (String.eqb_spec (Getenv env "API_KEYS") "") as [E|E];
    cbn [negb] in Es; [discriminate|].
  auto.
Qed.
End StartupFacts.

(** X26: after a start that went through, the keys of the deployment are
    the pieces of [API_KEYS] between its commas, byte for byte, and every
    request that carries one of them that is not empty is let through,
    from the first request on and with no lookup in the store.  The
    password of the configuration is the value of [DB_PASSWORD]. *)
Theorem startup_accepts_configured_keys
        (Atoi : string -> option Z) (hashAPIKey : string -> string)
        (formatDate : Models.Time -> string) (now : Models.Time)
        (env : Config.Env) (db db' : Database.Store) (cfg : Config.Config)
        (authService : Auth.AuthService) :
  Main.startup Atoi hashAPIKey formatDate now env db
  = (db', Database.Ok (cfg, authService)) ->
  Extra.Join (Config.APIKeys cfg) "," = Config.Getenv env "API_KEYS"
  /\ Config.Password (Config.Database cfg) = Config.Getenv env "DB_PASSWORD"
  /\ Auth.lastSync authService = now
  /\ (forall key,
        In key (Config.APIKeys cfg) ->
        Strings.occurs "," key = false
        /\ Auth.cached authService (hashAPIKey key) = true
        /\ (exists k, Database.GetAPIKey db' (hashAPIKey key)
                      = Database.Ok (Some k))
        /\ (key <> "" ->
            forall now' db'' r,
              Auth.extractAPIKey r = key ->
              exists svc',
                Auth.AuthMiddleware hashAPIKey now' authService db'' r
                = (svc', Auth.Next (hashAPIKey key),
                   [Auth.SpawnUsageUpdate (hashAPIKey key)]))).
Proof.
  unfold Main.startup.
  destruct (Config.LoadConfig Atoi env) as [cfg0|e] eqn:El; [|discriminate].
  apply LoadConfig_ok in El as (Hne & Hkeys & Hpw & _).
  unfold Auth.InitializeAPIKeys.
  destruct (Auth.initializeKeys hashAPIKey formatDate now Auth.NewAuthService
                                db (Config.APIKeys cfg0))
    as [[svc1 db1] [u|e]] eqn:E; [|discriminate].
  intros [= <- <- <-].
  apply initializeKeys_ok in E as (_ & _ & Hall & _ & _ & Hfound).
  destruct (Split_byte "," (Config.Getenv env "API_KEYS"))
    as (_ & Hjoin & Hfree & _).
  split; [now rewrite Hkeys|]. split; [exact Hpw|]. split; [reflexivity|].
  intros key Hkey. split; [apply Hfree; now rewrite <- Hkeys|].
  split; [now apply Hall|]. split; [now apply Hfound|].
  intros Hk now' db'' r Hr.
  assert (Hne' : Auth.extractAPIKey r <> "") by now rewrite Hr.
  assert (Hhit : Auth.cached (Auth.mkAuthService (Auth.apiKeys svc1) now)
                   (hashAPIKey (Auth.extractAPIKey r)) = true)
    by (rewrite Hr; now apply Hall).
  destruct (AuthMiddleware_hit hashAPIKey now' _ db'' r Hne' Hhit)
    as (svc' & Hrun & _).
  exists svc'. rewrite Hrun, Hr. reflexivity.
Qed.

Lemma startup_accepts_configured_keys_witness :
  let hashAPIKey := fun key : string => "sha256:" +:+ key in
  let formatDate := fun _ : Models.Time => "2025-01-01" in
  let env : Config.Env :=
    {[ "API_KEYS" := "k1, k2"; "DB_PASSWORD" := "s3cret" ]} in
  let db := Database.mkStore true true [] [] 0 0 in
  match snd (Main.startup (fun _ => None) hashAPIKey formatDate 100 env db)
  with
  | Database.Ok (cfg, authService) =>
      Extra.Join (Config.APIKeys cfg) "," = "k1, k2"
      /\ Auth.lastSync authService = 100
  | Database.Err _ => False
  end.
Proof.
  intros hashAPIKey formatDate env db.
  destruct (Main.startup (fun _ => None) hashAPIKey formatDate 100 env db)
    as [db' [[cfg authService]|e]] eqn:E.
  - destruct (startup_accepts_configured_keys (fun _ => None) hashAPIKey
                formatDate 100 env db db' cfg authService E)
      as (H1 & _ & H3 & _).
    split; [exact H1|exact H3].
  - vm_compute in E. discriminate E.
Defined.
